(** * gtasks-mcp: the task orchestration layer of [src/Tasks.ts]

    A shallow embedding of [TaskResources] and [TaskActions]: the remote
    Google Tasks client is an explicit collaborator (a record of fallible,
    state-changing calls over an abstract remote world), every outbound call
    is appended to a call log, and [throw]/[try]/[catch] are the operations
    of a small state-and-exception monad. *)

From Stdlib Require Import String Ascii List Bool Arith Lia.
From stdpp Require Import base option list strings gmap pretty.

Open Scope string_scope.
Open Scope list_scope.

(** ** JavaScript strings and truthiness *)

Module Js.

(** An optional property: [None] is [undefined]. *)
Definition truthy (o : option string) : bool :=
  match o with
  | Some s => negb (String.eqb s "")
  | None => false
  end.

(** [o || d] for a string-valued default. *)
Definition or_else (o : option string) (d : string) : string :=
  match o with
  | Some s => if String.eqb s "" then d else s
  | None => d
  end.

(** [o || undefined]. *)
Definition or_undefined (o : option string) : option string :=
  if truthy o then o else None.

(** Template-literal interpolation [`${o}`]. *)
Definition show (o : option string) : string :=
  match o with Some s => s | None => "undefined" end.

Definition show_bool (o : option bool) : string :=
  match o with
  | Some true => "true"
  | Some false => "false"
  | None => "undefined"
  end.

(** [a === b] between an optional property and a string. *)
Definition strict_eq (o : option string) (s : string) : bool :=
  match o with Some x => String.eqb x s | None => false end.

(** [s.startsWith(p)]. *)
Definition startsWith (s p : string) : bool := String.prefix p s.

Definition lower_ascii (c : ascii) : ascii :=
  let n := nat_of_ascii c in
  if (65 <=? n)%nat && (n <=? 90)%nat then ascii_of_nat (n + 32) else c.

(** [s.toLowerCase()], on the ASCII letters. *)
Fixpoint toLowerCase (s : string) : string :=
  match s with
  | EmptyString => EmptyString
  | String c r => String (lower_ascii c) (toLowerCase r)
  end.

Definition is_space (c : ascii) : bool :=
  let n := nat_of_ascii c in
  ((9 <=? n)%nat && (n <=? 13)%nat) || (n =? 32)%nat.

Fixpoint trimStart (s : string) : string :=
  match s with
  | EmptyString => EmptyString
  | String c r => if is_space c then trimStart r else s
  end.

Fixpoint rev_string (acc s : string) : string :=
  match s with
  | EmptyString => acc
  | String c r => rev_string (String c acc) r
  end.

Definition trimEnd (s : string) : string :=
  rev_string "" (trimStart (rev_string "" s)).

(** [s.trim()], on the ASCII white space. *)
Definition trim (s : string) : string := trimEnd (trimStart s).

(** [xs.join(sep)]. *)
Definition join (sep : string) (xs : list string) : string :=
  String.concat sep xs.

(** [s.replace(pat, "")] with a string pattern: the first occurrence only. *)
Fixpoint remove_first (pat s : string) : string :=
  if String.prefix pat s
  then String.substring (String.length pat)
                        (String.length s - String.length pat) s
  else match s with
       | EmptyString => EmptyString
       | String c r => String c (remove_first pat r)
       end.

Definition nl : string := String (ascii_of_nat 10) EmptyString.

(** The double-quote character of the message templates. *)
Definition dq : string := String (ascii_of_nat 34) EmptyString.

Definition quoted (s : string) : string := dq +:+ s +:+ dq.

(** [`${n}`] for a length or a counter. *)
Definition show_nat (n : nat) : string := pretty n.

(** [s.includes(t)]. *)
Fixpoint includes (s t : string) : bool :=
  String.prefix t s
  || match s with
     | EmptyString => false
     | String _ r => includes r t
     end.

End Js.

(** ** Remote data: [tasks_v1.Schema$TaskList], [tasks_v1.Schema$Task] *)

Record Schema_TaskList := mkTaskList {
  list_id : option string;
  list_title : option string;
  list_updated : option string
}.

Record Schema_TaskLink := mkTaskLink {
  link_description : option string;
  link_link : option string;
  link_type : option string
}.

(** The last two fields are the ones [_list] and [listSubtasks] attach
    locally ([Schema$Task & { taskListId?, taskListTitle? }]). *)
Record Schema_Task := mkTask {
  task_id : option string;
  task_title : option string;
  task_notes : option string;
  task_due : option string;
  task_status : option string;
  task_parent : option string;
  task_selfLink : option string;
  task_hidden : option bool;
  task_deleted : option bool;
  task_completed : option string;
  task_position : option string;
  task_updated : option string;
  task_etag : option string;
  task_links : option (list Schema_TaskLink);
  task_kind : option string;
  task_taskListId : option string;
  task_taskListTitle : option string
}.

(** The object literal [{ id, title, notes, due, status }] used as a
    [requestBody]: every other property stays undefined. *)
Definition requestBody (i t n d s : option string) : Schema_Task :=
  {| task_id := i; task_title := t; task_notes := n; task_due := d;
     task_status := s; task_parent := None; task_selfLink := None;
     task_hidden := None; task_deleted := None; task_completed := None;
     task_position := None; task_updated := None; task_etag := None;
     task_links := None; task_kind := None;
     task_taskListId := None; task_taskListTitle := None |}.

(** [{ ...task, taskListId: lid, taskListTitle: ltitle }]. *)
Definition withListInfo (task : Schema_Task) (lid ltitle : option string)
  : Schema_Task :=
  {| task_id := task_id task; task_title := task_title task;
     task_notes := task_notes task; task_due := task_due task;
     task_status := task_status task; task_parent := task_parent task;
     task_selfLink := task_selfLink task; task_hidden := task_hidden task;
     task_deleted := task_deleted task; task_completed := task_completed task;
     task_position := task_position task; task_updated := task_updated task;
     task_etag := task_etag task; task_links := task_links task;
     task_kind := task_kind task;
     task_taskListId := lid; task_taskListTitle := ltitle |}.

(** [tasks_v1.Schema$Tasks], the answer of [tasks.tasks.list]. *)
Record Schema_Tasks := mkTasks {
  tasks_items : option (list Schema_Task);
  tasks_nextPageToken : option string
}.

(** ** Outbound calls *)

Inductive Call :=
| TasklistsList (maxResults : nat)
| TasklistsInsert (title : string)
| TasklistsUpdate (tasklist : string) (body_id body_title : string)
| TasklistsDelete (tasklist : string)
| TasksList (tasklist : option string) (maxResults : nat)
            (pageToken : option string)
| TasksGet (tasklist task : string)
| TasksInsert (tasklist : string) (body : Schema_Task)
              (parent : option string)
| TasksPatch (tasklist task : string) (body : Schema_Task)
| TasksDelete (tasklist task : string).

Definition is_mutation (c : Call) : bool :=
  match c with
  | TasklistsList _ | TasksList _ _ _ | TasksGet _ _ => false
  | _ => true
  end.

Definition is_insert (c : Call) : bool :=
  match c with TasksInsert _ _ _ => true | _ => false end.

Definition is_delete (c : Call) : bool :=
  match c with TasksDelete _ _ => true | _ => false end.

(** ** Outcomes, state, and the monad of an async function *)

Inductive Outcome (A : Type) :=
| Returned (a : A)
| Thrown (message : string).
Arguments Returned {A} a.
Arguments Thrown {A} message.

Inductive ConsoleEntry :=
| ConsoleError (text : string) (error : option string)
| ConsoleWarn (text : string).

(** The uniform result envelope
    [{ content: [{ type: "text", text }], isError }]. *)
Record CallToolResult := mkResult {
  text : string;
  isError : bool
}.

Record St (W : Type) := mkSt {
  world : W;
  calls : list Call;
  console : list ConsoleEntry
}.
Arguments mkSt {W} _ _ _.
Arguments world {W} _.
Arguments calls {W} _.
Arguments console {W} _.

Definition M (W A : Type) : Type := St W -> Outcome A * St W.

Definition ret {W A} (a : A) : M W A := fun s => (Returned a, s).

Definition throw {W A} (msg : string) : M W A := fun s => (Thrown msg, s).

Definition bind {W A B} (m : M W A) (k : A -> M W B) : M W B :=
  fun s => match m s with
           | (Returned a, s') => k a s'
           | (Thrown e, s') => (Thrown e, s')
           end.

(** [try { m } catch (error) { h(message of error) }]. *)
Definition try_catch {W A} (m : M W A) (h : string -> M W A) : M W A :=
  fun s => match m s with
           | (Returned a, s') => (Returned a, s')
           | (Thrown e, s') => h e s'
           end.

Declare Scope js_scope.
Delimit Scope js_scope with js.
Notation "'await!' x <- m ; k" := (bind m (fun x => k))
  (at level 10, x name, m at level 100, k at level 200,
   format "'[v' 'await!'  x  <-  m ; '/' k ']'") : js_scope.
Notation "'run!' m ; k" := (bind m (fun _ => k))
  (at level 10, m at level 100, k at level 200,
   format "'[v' 'run!'  m ; '/' k ']'") : js_scope.
Open Scope js_scope.

Definition console_log {W} (e : ConsoleEntry) : M W unit :=
  fun s => (Returned tt, mkSt (world s) (calls s) (console s ++ [e])).

(** [for (const x of xs) { body }] over a loop-carried accumulator. *)
Fixpoint for_of {W X Acc} (xs : list X) (body : X -> Acc -> M W Acc)
         (acc : Acc) : M W Acc :=
  match xs with
  | [] => ret acc
  | x :: rest => await! acc' <- body x acc; for_of rest body acc'
  end.

(** ** The remote collaborator ([tasks_v1.Tasks])

    Each call either throws (an [Error] with a message) or answers with the
    [data] of its response, typed as the client library types it; it may
    change the remote world in both cases. *)

Record Remote (W : Type) := mkRemote {
  remote_tasklists_list :
    nat -> W -> Outcome (option (list Schema_TaskList)) * W;
  remote_tasklists_insert : string -> W -> Outcome Schema_TaskList * W;
  remote_tasklists_update :
    string -> string -> string -> W -> Outcome Schema_TaskList * W;
  remote_tasklists_delete : string -> W -> Outcome unit * W;
  remote_tasks_list :
    option string -> nat -> option string -> W -> Outcome Schema_Tasks * W;
  remote_tasks_get : string -> string -> W -> Outcome Schema_Task * W;
  remote_tasks_insert :
    string -> Schema_Task -> option string -> W -> Outcome Schema_Task * W;
  remote_tasks_patch :
    string -> string -> Schema_Task -> W -> Outcome Schema_Task * W;
  remote_tasks_delete : string -> string -> W -> Outcome unit * W
}.
Arguments remote_tasklists_list {W} _.
Arguments remote_tasklists_insert {W} _.
Arguments remote_tasklists_update {W} _.
Arguments remote_tasklists_delete {W} _.
Arguments remote_tasks_list {W} _.
Arguments remote_tasks_get {W} _.
Arguments remote_tasks_insert {W} _.
Arguments remote_tasks_patch {W} _.
Arguments remote_tasks_delete {W} _.

(** An awaited remote call: log it, let the remote answer and move on. *)
Definition await {W A} (c : Call) (f : W -> Outcome A * W) : M W A :=
  fun s => let (o, w') := f (world s) in
           (o, mkSt w' (calls s ++ [c]) (console s)).

Definition MAX_TASK_RESULTS : nat := 100.

(** The identifiers of the collections that have one ([if (taskList.id)]). *)
Definition list_ids (taskLists : list Schema_TaskList) : list string :=
  omap (fun taskList =>
          if Js.truthy (list_id taskList) then list_id taskList else None)
       taskLists.

(** What the remote answers to a sequence of calls issued one after the
    other, each on the world the previous one left. *)
Fixpoint answers {W K R} (f : K -> W -> Outcome R * W) (ks : list K) (w : W)
  : list (Outcome R) * W :=
  match ks with
  | [] => ([], w)
  | k :: rest =>
      let (o, w') := f k w in
      let (os, w'') := answers f rest w' in
      (o :: os, w'')
  end.

Section Client.

Context {W : Type} (tasks : Remote W).

Definition tasks_tasklists_list (maxResults : nat) :=
  await (TasklistsList maxResults) (remote_tasklists_list tasks maxResults).

Definition tasks_tasklists_insert (title : string) :=
  await (TasklistsInsert title) (remote_tasklists_insert tasks title).

Definition tasks_tasklists_update (tasklist i title : string) :=
  await (TasklistsUpdate tasklist i title)
        (remote_tasklists_update tasks tasklist i title).

Definition tasks_tasklists_delete (tasklist : string) :=
  await (TasklistsDelete tasklist) (remote_tasklists_delete tasks tasklist).

Definition tasks_tasks_list (tasklist : option string) (maxResults : nat)
           (pageToken : option string) :=
  await (TasksList tasklist maxResults pageToken)
        (remote_tasks_list tasks tasklist maxResults pageToken).

Definition tasks_tasks_get (tasklist task : string) :=
  await (TasksGet tasklist task) (remote_tasks_get tasks tasklist task).

Definition tasks_tasks_insert (tasklist : string) (body : Schema_Task)
           (parent : option string) :=
  await (TasksInsert tasklist body parent)
        (remote_tasks_insert tasks tasklist body parent).

Definition tasks_tasks_patch (tasklist task : string) (body : Schema_Task) :=
  await (TasksPatch tasklist task body)
        (remote_tasks_patch tasks tasklist task body).

Definition tasks_tasks_delete (tasklist task : string) :=
  await (TasksDelete tasklist task) (remote_tasks_delete tasks tasklist task).

End Client.

(** ** [class TaskResources] *)

Module TaskResources.
Section WithRemote.

Context {W : Type} (tasks : Remote W).

(** The [for] loop of [read]: [Some task] is the [break], a caught
    failure moves on to the next collection. *)
Fixpoint read_loop (taskId : string) (taskLists : list Schema_TaskList)
  : M W (option Schema_Task) :=
  match taskLists with
  | [] => ret None
  | taskList :: rest =>
      match list_id taskList with
      | Some i =>
          if String.eqb i "" then read_loop taskId rest
          else
            await! task <-
              try_catch (await! taskResponse <- tasks_tasks_get tasks i taskId;
                         ret (Some taskResponse))
                        (fun _ => ret None);
            match task with
            | Some t => ret (Some t)
            | None => read_loop taskId rest
            end
      | None => read_loop taskId rest
      end
  end.

Definition read (uri : string) : M W Schema_Task :=
  let taskId := Js.remove_first "gtasks:///" uri in
  await! taskListsResponse <- tasks_tasklists_list tasks MAX_TASK_RESULTS;
  let taskLists := default [] taskListsResponse in
  await! task <- read_loop taskId taskLists;
  match task with
  | None => throw "Task not found"
  | Some t => ret t
  end.

Definition list (cursor : option string)
  : M W (list Schema_Task * option string) :=
  let pageSize := 10 in
  let pageToken := if Js.truthy cursor then cursor else None in
  await! taskListsResponse <- tasks_tasklists_list tasks MAX_TASK_RESULTS;
  let taskLists := default [] taskListsResponse in
  for_of taskLists
    (fun taskList '(allTasks, nextPageToken) =>
       await! tasksResponse <-
         tasks_tasks_list tasks (list_id taskList) pageSize pageToken;
       let taskItems := default [] (tasks_items tasksResponse) in
       ret (allTasks ++ taskItems,
            if Js.truthy (tasks_nextPageToken tasksResponse)
            then tasks_nextPageToken tasksResponse
            else nextPageToken))
    ([], None).

End WithRemote.
End TaskResources.

(** ** Tool arguments *)

(** An argument expected to be an array: absent (or otherwise falsy), some
    other truthy value, or an array. *)
Inductive ArrayArg (A : Type) :=
| ArgMissing
| ArgNotArray
| ArgArray (elements : list A).
Arguments ArgMissing {A}.
Arguments ArgNotArray {A}.
Arguments ArgArray {A} elements.

(** [!batch || !Array.isArray(batch) || batch.length === 0]. *)
Definition nonempty_array {A} (arg : ArrayArg A) : option (list A) :=
  match arg with
  | ArgArray (x :: rest) => Some (x :: rest)
  | _ => None
  end.

(** Element descriptors of the batch operations: objects, as the declared
    element types have it, any of whose fields may be missing. *)
Record TaskData := mkTaskData {
  td_taskListId : option string;
  td_taskId : option string;
  td_title : option string;
  td_notes : option string;
  td_due : option string;
  td_status : option string
}.

Record MoveData := mkMoveData {
  md_sourceTaskListId : option string;
  md_targetTaskListId : option string;
  md_taskId : option string
}.

Record ListData := mkListData {
  ld_listId : option string;
  ld_title : option string
}.

Record SubtaskData := mkSubtaskData {
  sd_taskListId : option string;
  sd_parentTaskId : option string;
  sd_title : option string;
  sd_notes : option string;
  sd_due : option string;
  sd_status : option string
}.

(** Entries of the [results], [errors] and [warnings] arrays. *)
Record ErrorEntry (D : Type) := mkError {
  error_message : string;
  error_data : D
}.
Arguments mkError {D} _ _.
Arguments error_message {D} _.
Arguments error_data {D} _.

Record TaskResult := mkTaskResult {
  tr_taskId : option string;
  tr_title : option string;
  tr_taskListId : string
}.

Record MoveResult := mkMoveResult {
  mr_originalTaskId : string;
  mr_newTaskId : string;
  mr_title : option string;
  mr_sourceTaskListId : string;
  mr_targetTaskListId : string
}.

Record MoveWarning := mkMoveWarning {
  mw_warning : string;
  mw_moveData : MoveData;
  mw_originalTaskId : string;
  mw_newTaskId : string;
  mw_title : option string
}.

Record ListResult := mkListResult {
  lr_listId : option string;
  lr_title : option string
}.

Record SubtaskResult := mkSubtaskResult {
  sr_taskId : option string;
  sr_title : option string;
  sr_parentTaskId : string;
  sr_taskListId : string
}.

(** A plain object used as a string-to-string dictionary, with its keys in
    insertion order (titles that spell an array index, which JavaScript
    enumerates first, and the inherited properties of [Object.prototype]
    are left out of the model). *)
Definition JsObject := list (string * string).

Fixpoint obj_get (o : JsObject) (k : string) : option string :=
  match o with
  | [] => None
  | (k', v) :: rest => if String.eqb k' k then Some v else obj_get rest k
  end.

Fixpoint obj_set (o : JsObject) (k v : string) : JsObject :=
  match o with
  | [] => [(k, v)]
  | (k', v') :: rest =>
      if String.eqb k' k then (k', v) :: rest else (k', v') :: obj_set rest k v
  end.

Definition obj_keys (o : JsObject) : list string := map fst o.

Record MovePlan := mkPlan {
  plan_task : Schema_Task;
  plan_targetListId : string;
  plan_targetListTitle : string;
  plan_prefix : string
}.

(** ** [class TaskActions] *)

Module TaskActions.

Definition show_links (o : option (list Schema_TaskLink)) : string :=
  match o with
  | Some ls => Js.join "," (map (fun _ => "[object Object]") ls)
  | None => "undefined"
  end.

Definition formatTask (task : Schema_Task) : string :=
  Js.show (task_title task) +:+ Js.nl
  +:+ " (List: " +:+ Js.or_else (task_taskListTitle task) "Unknown"
  +:+ " [" +:+ Js.or_else (task_taskListId task) "Unknown" +:+ "])"
  +:+ " - (Due: " +:+ Js.or_else (task_due task) "Not set" +:+ ")"
  +:+ " - Notes: " +:+ Js.show (task_notes task)
  +:+ " - ID: " +:+ Js.show (task_id task)
  +:+ " - Status: " +:+ Js.show (task_status task)
  +:+ " - URI: " +:+ Js.show (task_selfLink task)
  +:+ " - Hidden: " +:+ Js.show_bool (task_hidden task)
  +:+ " - Parent: " +:+ Js.show (task_parent task)
  +:+ " - Deleted?: " +:+ Js.show_bool (task_deleted task)
  +:+ " - Completed Date: " +:+ Js.show (task_completed task)
  +:+ " - Position: " +:+ Js.show (task_position task)
  +:+ " - Updated Date: " +:+ Js.show (task_updated task)
  +:+ " - ETag: " +:+ Js.show (task_etag task)
  +:+ " - Links: " +:+ show_links (task_links task)
  +:+ " - Kind: " +:+ Js.show (task_kind task) +:+ "}".

Definition formatTaskList (taskList : list Schema_Task) : string :=
  Js.join Js.nl (map formatTask taskList).

(** The copy policy of a transfer: the object literal [newTask]. *)
Definition newTask_of (originalTask : Schema_Task) : Schema_Task :=
  requestBody None
              (Some (Js.or_else (task_title originalTask) "Untitled Task"))
              (Some (Js.or_else (task_notes originalTask) ""))
              (Js.or_undefined (task_due originalTask))
              (Some (Js.or_else (task_status originalTask) "needsAction")).

Definition moved_text (title : option string) (src tgt : string) : string :=
  "Task " +:+ Js.quoted (Js.show title) +:+ " moved from list "
  +:+ Js.quoted src +:+ " to list " +:+ Js.quoted tgt.

Definition copied_text (title : option string) (tgt : string) : string :=
  "Task " +:+ Js.quoted (Js.show title) +:+ " was copied to list "
  +:+ Js.quoted tgt
  +:+ " but could not be deleted from source list. You may need to delete it manually.".

Definition not_deleted_warning (newTaskId tgt e : string) : string :=
  "Created task " +:+ newTaskId +:+ " in " +:+ tgt
  +:+ " but failed to delete original: " +:+ e.

(** The optional [Errors:] section of a batch report. *)
Definition errors_section {D} (what : string) (errors : list (ErrorEntry D))
  : string :=
  if (0 <? length errors)%nat
  then Js.nl +:+ Js.nl +:+ "Errors:" +:+ Js.nl
       +:+ Js.join Js.nl
             (map (fun e => "- Failed to " +:+ what +:+ ": " +:+ error_message e)
                  errors)
  else "".

(** The report of the two-partition batch operations. *)
Definition batch_text {R D} (heading : string) (line : R -> string)
           (what : string) (results : list R) (errors : list (ErrorEntry D))
  : string :=
  heading +:+ ": " +:+ Js.show_nat (length results) +:+ " succeeded, "
  +:+ Js.show_nat (length errors) +:+ " failed"
  +:+ Js.nl +:+ Js.nl +:+ "Successes:" +:+ Js.nl
  +:+ Js.join Js.nl (map line results)
  +:+ errors_section what errors.

Section WithRemote.

Context {W : Type} (tasks : Remote W).

(** One round of the loop of [_list]. *)
Definition _list_step (taskList : Schema_TaskList)
           (allTasks : list Schema_Task) : M W (list Schema_Task) :=
  match Js.or_undefined (list_id taskList) with
  | Some i =>
      try_catch
        (await! tasksResponse <- tasks_tasks_list tasks (Some i) MAX_TASK_RESULTS None;
         let items := default [] (tasks_items tasksResponse) in
         let tasksWithListInfo :=
           map (fun task =>
                  withListInfo task (Js.or_undefined (list_id taskList))
                               (Js.or_undefined (list_title taskList)))
               items in
         ret (allTasks ++ tasksWithListInfo))
        (fun e =>
           run! console_log
                  (ConsoleError ("Error fetching tasks for list " +:+ i +:+ ":")
                                (Some e));
           ret allTasks)
  | None => ret allTasks
  end.

Definition _list : M W (list Schema_Task) :=
  await! taskListsResponse <- tasks_tasklists_list tasks MAX_TASK_RESULTS;
  let taskLists := default [] taskListsResponse in
  for_of taskLists _list_step [].

(** Steps 1 and 2 of a transfer, shared word for word by [moveTask] and
    the loop of [batchMoveTasks]: fetch the original, insert the copy. *)
Definition fetch_original (src tid : string) : M W Schema_Task :=
  try_catch
    (await! taskResponse <- tasks_tasks_get tasks src tid;
     if Js.truthy (task_title taskResponse) then ret taskResponse
     else throw "Task not found or has invalid format")
    (fun e => throw ("Could not get source task: " +:+ e)).

Definition create_copy (tgt : string) (originalTask : Schema_Task)
  : M W string :=
  try_catch
    (let newTask := newTask_of originalTask in
     await! newTaskResponse <- tasks_tasks_insert tasks tgt newTask None;
     match Js.or_undefined (task_id newTaskResponse) with
     | Some newTaskId => ret newTaskId
     | None => throw "Failed to create new task - no ID returned"
     end)
    (fun e => throw ("Could not create task in target list: " +:+ e)).

Definition moveTask (sourceTaskListId targetTaskListId taskId : option string)
  : M W CallToolResult :=
  match Js.or_undefined sourceTaskListId, Js.or_undefined targetTaskListId,
        Js.or_undefined taskId with
  | Some src, Some tgt, Some tid =>
      try_catch
        (await! originalTask <- fetch_original src tid;
         await! newTaskId <- create_copy tgt originalTask;
         await! early <-
           try_catch
             (run! tasks_tasks_delete tasks src tid; ret None)
             (fun e =>
                run! console_log
                       (ConsoleError
                          ("Warning: " +:+ not_deleted_warning newTaskId tgt e)
                          None);
                ret (Some (mkResult (copied_text (task_title originalTask) tgt)
                                    false)));
         match early with
         | Some r => ret r
         | None =>
             ret (mkResult (moved_text (task_title originalTask) src tgt) false)
         end)
        (fun e =>
           run! console_log (ConsoleError "Error moving task:" (Some e));
           ret (mkResult ("Error moving task: " +:+ e) true))
  | _, _, _ =>
      throw "Source task list ID, target task list ID, and task ID are required"
  end.

(** *** [reorganizeTasks] *)

(** The [forEach] that fills [listIdByTitle] and
    [listIdByNormalizedTitle]. *)
Definition build_lookups (taskLists : list Schema_TaskList)
  : JsObject * JsObject :=
  fold_left
    (fun '(listIdByTitle, listIdByNormalizedTitle) l =>
       match Js.or_undefined (list_title l), Js.or_undefined (list_id l) with
       | Some title, Some i =>
           let normalizedTitle := Js.trim (Js.toLowerCase title) in
           (obj_set listIdByTitle title i,
            obj_set listIdByNormalizedTitle normalizedTitle i)
       | _, _ => (listIdByTitle, listIdByNormalizedTitle)
       end)
    taskLists ([], []).

(** Exact match first, normalized match second. *)
Definition resolve_target (listIdByTitle listIdByNormalizedTitle : JsObject)
           (targetListTitle : string) : option string :=
  match Js.or_undefined (obj_get listIdByTitle targetListTitle) with
  | Some i => Some i
  | None =>
      let normalizedTargetTitle := Js.trim (Js.toLowerCase targetListTitle) in
      Js.or_undefined (obj_get listIdByNormalizedTitle normalizedTargetTitle)
  end.

Definition target_not_found (listIdByTitle : JsObject)
           (targetListTitle : string) : string :=
  "Target list " +:+ Js.quoted targetListTitle
  +:+ " not found. Available lists: "
  +:+ Js.join ", " (obj_keys listIdByTitle).

(** The inner loop over [Object.entries(prefixMappings)] for one task:
    both [continue]s go on with the next entry, the [break] after the
    [push] ends the loop. *)
Fixpoint plan_task_loop (listIdByTitle listIdByNormalizedTitle : JsObject)
         (task : Schema_Task) (title taskListId : string)
         (entries : list (string * string)) : M W (option MovePlan) :=
  match entries with
  | [] => ret None
  | (prefix, targetListTitle) :: rest =>
      if Js.startsWith title ("[" +:+ prefix +:+ "]") then
        match resolve_target listIdByTitle listIdByNormalizedTitle
                             targetListTitle with
        | None =>
            run! console_log
                   (ConsoleWarn (target_not_found listIdByTitle targetListTitle));
            plan_task_loop listIdByTitle listIdByNormalizedTitle
                           task title taskListId rest
        | Some targetListId =>
            if String.eqb taskListId targetListId then
              plan_task_loop listIdByTitle listIdByNormalizedTitle
                             task title taskListId rest
            else
              ret (Some (mkPlan task targetListId targetListTitle prefix))
        end
      else
        plan_task_loop listIdByTitle listIdByNormalizedTitle
                       task title taskListId rest
  end.

(** One round of the outer loop over [allTasks]. *)
Definition plan_step (listIdByTitle listIdByNormalizedTitle : JsObject)
           (entries : list (string * string))
           (task : Schema_Task) (movePlans : list MovePlan)
  : M W (list MovePlan) :=
  match Js.or_undefined (task_title task),
        Js.or_undefined (task_taskListId task),
        Js.or_undefined (task_id task) with
  | Some title, Some taskListId, Some _ =>
      await! found <- plan_task_loop listIdByTitle listIdByNormalizedTitle
                                     task title taskListId entries;
      match found with
      | Some plan => ret (movePlans ++ [plan])
      | None => ret movePlans
      end
  | _, _, _ => ret movePlans
  end.

Definition plan_moves (entries : list (string * string))
           (allTasks : list Schema_Task) (taskLists : list Schema_TaskList)
  : M W (list MovePlan) :=
  let '(listIdByTitle, listIdByNormalizedTitle) := build_lookups taskLists in
  for_of allTasks (plan_step listIdByTitle listIdByNormalizedTitle entries) [].

Definition plan_from (plan : MovePlan) : string :=
  Js.quoted (Js.or_else (task_taskListTitle (plan_task plan)) "Unknown list").

(** One round of the live loop over [movePlans]; the accumulator is
    [(results, successCount, failureCount)]. The source list id handed to
    [delete] is [plan.task.taskListId], which planning has checked. *)
Definition execute_step (plan : MovePlan)
           (acc : list string * nat * nat) : M W (list string * nat * nat) :=
  let '(results, successCount, failureCount) := acc in
  try_catch
    (match Js.or_undefined (task_title (plan_task plan)),
           Js.or_undefined (task_id (plan_task plan)) with
     | Some title, Some tid =>
         let newTask :=
           requestBody None (Some title)
                       (Some (Js.or_else (task_notes (plan_task plan)) ""))
                       (Js.or_undefined (task_due (plan_task plan)))
                       (Some (Js.or_else (task_status (plan_task plan))
                                         "needsAction")) in
         await! newTaskResponse <-
           tasks_tasks_insert tasks (plan_targetListId plan) newTask None;
         if Js.truthy (task_id newTaskResponse) then
           run! tasks_tasks_delete tasks
                  (default "" (task_taskListId (plan_task plan))) tid;
           ret (results ++ ["- Moved " +:+ Js.quoted title +:+ " from "
                            +:+ plan_from plan +:+ " to "
                            +:+ Js.quoted (plan_targetListTitle plan)],
                S successCount, failureCount)
         else throw "Failed to create new task - no ID returned"
     | _, _ =>
         ret (results ++ ["- SKIPPED task with missing title or ID"],
              successCount, failureCount)
     end)
    (fun e =>
       ret (results ++ ["- FAILED to move "
                        +:+ Js.quoted (Js.show (task_title (plan_task plan)))
                        +:+ ": " +:+ e],
            successCount, S failureCount)).

Definition dry_run_report (movePlans : list MovePlan) : list string :=
  ("Would move " +:+ Js.show_nat (length movePlans) +:+ " tasks:")
  :: map (fun plan =>
            "- " +:+ Js.quoted (Js.show (task_title (plan_task plan)))
            +:+ " from " +:+ plan_from plan +:+ " to "
            +:+ Js.quoted (plan_targetListTitle plan))
         movePlans.

Definition summary_line (successCount failureCount : nat) : string :=
  Js.nl +:+ "Summary: " +:+ Js.show_nat successCount
  +:+ " tasks moved successfully, " +:+ Js.show_nat failureCount +:+ " failed.".

Definition execute_moves (dryRun : bool) (movePlans : list MovePlan)
  : M W (list string * nat * nat) :=
  if dryRun then ret (dry_run_report movePlans, 0, 0)
  else
    await! acc <-
      for_of movePlans execute_step
             (["Moving " +:+ Js.show_nat (length movePlans) +:+ " tasks:"], 0, 0);
    let '(results, successCount, failureCount) := acc in
    ret (results ++ [summary_line successCount failureCount],
         successCount, failureCount).

(** The mapping is given by its [Object.entries], in their order. *)
Definition reorganizeTasks (prefixMappings : option (list (string * string)))
           (dryRun : option bool) : M W CallToolResult :=
  match prefixMappings with
  | None | Some [] => throw "Prefix mappings are required and must not be empty"
  | Some entries =>
      try_catch
        (await! allTasks <- _list;
         await! taskListsResponse <- tasks_tasklists_list tasks MAX_TASK_RESULTS;
         let taskLists := default [] taskListsResponse in
         await! movePlans <- plan_moves entries allTasks taskLists;
         await! acc <- execute_moves (default false dryRun) movePlans;
         ret (mkResult (Js.join Js.nl (fst (fst acc))) false))
        (fun e =>
           run! console_log (ConsoleError "Error reorganizing tasks:" (Some e));
           ret (mkResult ("Error reorganizing tasks: " +:+ e) true))
  end.

(** *** Batch operations *)

Definition batchCreateTasks_step (taskData : TaskData)
           (acc : list TaskResult * list (ErrorEntry TaskData))
  : M W (list TaskResult * list (ErrorEntry TaskData)) :=
  let '(results, errors) := acc in
  let taskListId := Js.or_else (td_taskListId taskData) "@default" in
  match Js.or_undefined (td_title taskData) with
  | None => ret (results, errors ++ [mkError "Task title is required" taskData])
  | Some title =>
      try_catch
        (let task :=
           requestBody None (Some title)
                       (Some (Js.or_else (td_notes taskData) ""))
                       (td_due taskData)
                       (Some (Js.or_else (td_status taskData) "needsAction")) in
         await! taskResponse <- tasks_tasks_insert tasks taskListId task None;
         ret (results ++ [mkTaskResult (task_id taskResponse)
                                       (task_title taskResponse) taskListId],
              errors))
        (fun e => ret (results, errors ++ [mkError e taskData]))
  end.

Definition batchCreateTasks (taskBatch : ArrayArg TaskData)
  : M W CallToolResult :=
  match nonempty_array taskBatch with
  | None => throw "tasks array is required and must not be empty"
  | Some batch =>
      await! acc <- for_of batch batchCreateTasks_step ([], []);
      ret (mkResult
             (batch_text "Batch task creation"
                (fun r => "- Task " +:+ Js.quoted (Js.show (tr_title r))
                          +:+ " created in list " +:+ Js.quoted (tr_taskListId r)
                          +:+ " with ID: " +:+ Js.show (tr_taskId r))
                "create task" (fst acc) (snd acc))
             false)
  end.

Definition batchUpdateTasks_step (taskData : TaskData)
           (acc : list TaskResult * list (ErrorEntry TaskData))
  : M W (list TaskResult * list (ErrorEntry TaskData)) :=
  let '(results, errors) := acc in
  match Js.or_undefined (td_taskListId taskData),
        Js.or_undefined (td_taskId taskData) with
  | Some taskListId, Some taskId =>
      try_catch
        (let task :=
           requestBody (Some taskId) (td_title taskData) (td_notes taskData)
                       (td_due taskData) (td_status taskData) in
         await! taskResponse <- tasks_tasks_patch tasks taskListId taskId task;
         ret (results ++ [mkTaskResult (task_id taskResponse)
                                       (task_title taskResponse) taskListId],
              errors))
        (fun e => ret (results, errors ++ [mkError e taskData]))
  | _, _ =>
      ret (results,
           errors ++ [mkError "Task list ID and task ID are required" taskData])
  end.

Definition batchUpdateTasks (taskBatch : ArrayArg TaskData)
  : M W CallToolResult :=
  match nonempty_array taskBatch with
  | None => throw "tasks array is required and must not be empty"
  | Some batch =>
      await! acc <- for_of batch batchUpdateTasks_step ([], []);
      ret (mkResult
             (batch_text "Batch task update"
                (fun r => "- Task " +:+ Js.quoted (Js.show (tr_title r))
                          +:+ " updated in list " +:+ Js.quoted (tr_taskListId r))
                "update task" (fst acc) (snd acc))
             false)
  end.

Definition batchDeleteTasks_step (taskData : TaskData)
           (acc : list TaskResult * list (ErrorEntry TaskData))
  : M W (list TaskResult * list (ErrorEntry TaskData)) :=
  let '(results, errors) := acc in
  match Js.or_undefined (td_taskListId taskData),
        Js.or_undefined (td_taskId taskData) with
  | Some taskListId, Some taskId =>
      try_catch
        (run! tasks_tasks_delete tasks taskListId taskId;
         ret (results ++ [mkTaskResult (Some taskId) None taskListId], errors))
        (fun e => ret (results, errors ++ [mkError e taskData]))
  | _, _ =>
      ret (results,
           errors ++ [mkError "Task list ID and task ID are required" taskData])
  end.

Definition batchDeleteTasks (taskBatch : ArrayArg TaskData)
  : M W CallToolResult :=
  match nonempty_array taskBatch with
  | None => throw "tasks array is required and must not be empty"
  | Some batch =>
      await! acc <- for_of batch batchDeleteTasks_step ([], []);
      ret (mkResult
             (batch_text "Batch task deletion"
                (fun r => "- Task " +:+ Js.show (tr_taskId r)
                          +:+ " deleted from list " +:+ Js.quoted (tr_taskListId r))
                "delete task" (fst acc) (snd acc))
             false)
  end.

Definition batchMoveTasks_step (moveData : MoveData)
           (acc : list MoveResult * list (ErrorEntry MoveData)
                  * list MoveWarning)
  : M W (list MoveResult * list (ErrorEntry MoveData) * list MoveWarning) :=
  let '(results, errors, warnings) := acc in
  match Js.or_undefined (md_sourceTaskListId moveData),
        Js.or_undefined (md_targetTaskListId moveData),
        Js.or_undefined (md_taskId moveData) with
  | Some src, Some tgt, Some tid =>
      try_catch
        (await! originalTask <- fetch_original src tid;
         await! newTaskId <- create_copy tgt originalTask;
         await! partial <-
           try_catch
             (run! tasks_tasks_delete tasks src tid; ret None)
             (fun e =>
                let warning := not_deleted_warning newTaskId tgt e in
                run! console_log (ConsoleError warning None);
                ret (Some (mkMoveWarning warning moveData tid newTaskId
                                         (task_title originalTask))));
         match partial with
         | Some w => ret (results, errors, warnings ++ [w])
         | None =>
             ret (results ++ [mkMoveResult tid newTaskId
                                           (task_title originalTask) src tgt],
                  errors, warnings)
         end)
        (fun e => ret (results, errors ++ [mkError e moveData], warnings))
  | _, _, _ =>
      ret (results,
           errors ++ [mkError
             "Source task list ID, target task list ID, and task ID are required"
             moveData],
           warnings)
  end.

Definition batchMoveTasks_text (results : list MoveResult)
           (errors : list (ErrorEntry MoveData)) (warnings : list MoveWarning)
  : string :=
  let summaryText :=
    "Batch task move: " +:+ Js.show_nat (length results) +:+ " succeeded, "
    +:+ Js.show_nat (length errors) +:+ " failed"
    +:+ (if (0 <? length warnings)%nat
         then ", " +:+ Js.show_nat (length warnings)
              +:+ " partial (created but not deleted)"
         else "") in
  let resultText :=
    Js.nl +:+ Js.nl +:+ "Successes:" +:+ Js.nl
    +:+ Js.join Js.nl
          (map (fun r => "- Task " +:+ Js.quoted (Js.show (mr_title r))
                         +:+ " moved from list "
                         +:+ Js.quoted (mr_sourceTaskListId r)
                         +:+ " to list " +:+ Js.quoted (mr_targetTaskListId r))
               results)
    +:+ (if (0 <? length warnings)%nat
         then Js.nl +:+ Js.nl
              +:+ "Partial Successes (created but not deleted from source):"
              +:+ Js.nl
              +:+ Js.join Js.nl
                    (map (fun w =>
                            "- Task " +:+ Js.quoted (Js.show (mw_title w))
                            +:+ " copied to list "
                            +:+ Js.quoted
                                  (Js.show (md_targetTaskListId (mw_moveData w)))
                            +:+ " but not removed from "
                            +:+ Js.quoted
                                  (Js.show (md_sourceTaskListId (mw_moveData w))))
                         warnings)
         else "")
    +:+ errors_section "move task" errors in
  summaryText +:+ resultText.

Definition batchMoveTasks_run (batch : list MoveData) :=
  for_of batch batchMoveTasks_step ([], [], []).

Definition batchMoveTasks (taskBatch : ArrayArg MoveData)
  : M W CallToolResult :=
  match nonempty_array taskBatch with
  | None => throw "tasks array is required and must not be empty"
  | Some batch =>
      await! acc <- batchMoveTasks_run batch;
      let '(results, errors, warnings) := acc in
      ret (mkResult (batchMoveTasks_text results errors warnings) false)
  end.

Definition batchCreateTaskLists_step (listData : ListData)
           (acc : list ListResult * list (ErrorEntry ListData))
  : M W (list ListResult * list (ErrorEntry ListData)) :=
  let '(results, errors) := acc in
  match Js.or_undefined (ld_title listData) with
  | None =>
      ret (results, errors ++ [mkError "Task list title is required" listData])
  | Some title =>
      try_catch
        (await! taskListResponse <- tasks_tasklists_insert tasks title;
         ret (results ++ [mkListResult (list_id taskListResponse)
                                       (list_title taskListResponse)],
              errors))
        (fun e => ret (results, errors ++ [mkError e listData]))
  end.

Definition list_line (verb : string) (r : ListResult) : string :=
  "- List " +:+ Js.quoted (Js.show (lr_title r)) +:+ " " +:+ verb
  +:+ " with ID: " +:+ Js.show (lr_listId r).

Definition batchCreateTaskLists (listBatch : ArrayArg ListData)
  : M W CallToolResult :=
  match nonempty_array listBatch with
  | None => throw "lists array is required and must not be empty"
  | Some batch =>
      await! acc <- for_of batch batchCreateTaskLists_step ([], []);
      ret (mkResult
             (batch_text "Batch task list creation" (list_line "created")
                         "create list" (fst acc) (snd acc))
             false)
  end.

Definition batchUpdateTaskLists_step (listData : ListData)
           (acc : list ListResult * list (ErrorEntry ListData))
  : M W (list ListResult * list (ErrorEntry ListData)) :=
  let '(results, errors) := acc in
  match Js.or_undefined (ld_listId listData),
        Js.or_undefined (ld_title listData) with
  | Some listId, Some title =>
      try_catch
        (await! taskListResponse <-
           tasks_tasklists_update tasks listId listId title;
         ret (results ++ [mkListResult (list_id taskListResponse)
                                       (list_title taskListResponse)],
              errors))
        (fun e => ret (results, errors ++ [mkError e listData]))
  | _, _ =>
      ret (results,
           errors ++ [mkError "Task list ID and title are required" listData])
  end.

Definition batchUpdateTaskLists (listBatch : ArrayArg ListData)
  : M W CallToolResult :=
  match nonempty_array listBatch with
  | None => throw "lists array is required and must not be empty"
  | Some batch =>
      await! acc <- for_of batch batchUpdateTaskLists_step ([], []);
      ret (mkResult
             (batch_text "Batch task list update" (list_line "updated")
                         "update list" (fst acc) (snd acc))
             false)
  end.

Definition batchDeleteTaskLists_step (listData : ListData)
           (acc : list ListResult * list (ErrorEntry ListData))
  : M W (list ListResult * list (ErrorEntry ListData)) :=
  let '(results, errors) := acc in
  match Js.or_undefined (ld_listId listData) with
  | None => ret (results, errors ++ [mkError "Task list ID is required" listData])
  | Some listId =>
      try_catch
        (run! tasks_tasklists_delete tasks listId;
         ret (results ++ [mkListResult (Some listId) None], errors))
        (fun e => ret (results, errors ++ [mkError e listData]))
  end.

Definition batchDeleteTaskLists (listBatch : ArrayArg ListData)
  : M W CallToolResult :=
  match nonempty_array listBatch with
  | None => throw "lists array is required and must not be empty"
  | Some batch =>
      await! acc <- for_of batch batchDeleteTaskLists_step ([], []);
      ret (mkResult
             (batch_text "Batch task list deletion"
                (fun r => "- List " +:+ Js.show (lr_listId r) +:+ " deleted")
                "delete list" (fst acc) (snd acc))
             false)
  end.

(** *** Subtasks *)

Definition listSubtasks (taskListId parentTaskId : option string)
  : M W CallToolResult :=
  let taskListId := Js.or_else taskListId "@default" in
  match Js.or_undefined (Some taskListId), Js.or_undefined parentTaskId with
  | Some _, Some parentTaskId =>
      try_catch
        (await! tasksResponse <-
           tasks_tasks_list tasks (Some taskListId) MAX_TASK_RESULTS None;
         let items := default [] (tasks_items tasksResponse) in
         await! parentTask <-
           try_catch (tasks_tasks_get tasks taskListId parentTaskId)
                     (fun e => throw ("Could not get parent task: " +:+ e));
         let subtasks :=
           map (fun task => withListInfo task (Some taskListId) (Some ""))
               (List.filter
                  (fun task => Js.strict_eq (task_parent task) parentTaskId)
                  items) in
         let formattedTasks := formatTaskList subtasks in
         ret (mkResult
                ("Found " +:+ Js.show_nat (length subtasks) +:+ " subtasks for "
                 +:+ Js.quoted (Js.or_else (task_title parentTask) "Unknown task")
                 +:+ ":" +:+ Js.nl +:+ formattedTasks)
                false))
        (fun e =>
           run! console_log (ConsoleError "Error listing subtasks:" (Some e));
           ret (mkResult ("Error listing subtasks: " +:+ e) true))
  | _, _ => throw "Task list ID and parent task ID are required"
  end.

Definition batchCreateSubtasks_step (subtaskData : SubtaskData)
           (acc : list SubtaskResult * list (ErrorEntry SubtaskData))
  : M W (list SubtaskResult * list (ErrorEntry SubtaskData)) :=
  let '(results, errors) := acc in
  let taskListId := Js.or_else (sd_taskListId subtaskData) "@default" in
  match Js.or_undefined (sd_parentTaskId subtaskData),
        Js.or_undefined (sd_title subtaskData) with
  | Some parentTaskId, Some title =>
      try_catch
        (run! try_catch
                (run! tasks_tasks_get tasks taskListId parentTaskId; ret tt)
                (fun e => throw ("Could not verify parent task: " +:+ e));
         let task :=
           requestBody None (Some title)
                       (Some (Js.or_else (sd_notes subtaskData) ""))
                       (sd_due subtaskData)
                       (Some (Js.or_else (sd_status subtaskData) "needsAction")) in
         await! taskResponse <-
           tasks_tasks_insert tasks taskListId task (Some parentTaskId);
         ret (results ++ [mkSubtaskResult (task_id taskResponse)
                                          (task_title taskResponse)
                                          parentTaskId taskListId],
              errors))
        (fun e => ret (results, errors ++ [mkError e subtaskData]))
  | _, _ =>
      ret (results,
           errors ++ [mkError "Parent task ID and title are required" subtaskData])
  end.

Definition batchCreateSubtasks (subtaskBatch : ArrayArg SubtaskData)
  : M W CallToolResult :=
  match nonempty_array subtaskBatch with
  | None => throw "subtasks array is required and must not be empty"
  | Some batch =>
      await! acc <- for_of batch batchCreateSubtasks_step ([], []);
      ret (mkResult
             (batch_text "Batch subtask creation"
                (fun r => "- Subtask " +:+ Js.quoted (Js.show (sr_title r))
                          +:+ " created under parent task " +:+ sr_parentTaskId r
                          +:+ " with ID: " +:+ Js.show (sr_taskId r))
                "create subtask" (fst acc) (snd acc))
             false)
  end.

(** *** Single-entity operations *)

Definition create (taskListId taskTitle taskNotes taskStatus taskDue
                   : option string) : M W CallToolResult :=
  let taskListId := Js.or_else taskListId "@default" in
  match Js.or_undefined taskTitle with
  | None => throw "Task title is required"
  | Some title =>
      let task := requestBody None (Some title) taskNotes taskDue None in
      await! taskResponse <- tasks_tasks_insert tasks taskListId task None;
      ret (mkResult ("Task created: " +:+ Js.show (task_title taskResponse))
                    false)
  end.

Definition delete (taskListId taskId : option string) : M W CallToolResult :=
  let taskListId := Js.or_else taskListId "@default" in
  match Js.or_undefined taskId with
  | None => throw "Task URI is required"
  | Some taskId =>
      run! tasks_tasks_delete tasks taskListId taskId;
      ret (mkResult ("Task " +:+ taskId +:+ " deleted") false)
  end.

(** The predicate of the [filter] of [search]: an absent title (or notes)
    ends its optional chain with [undefined]. *)
Definition search_hit (userQuery : string) (task : Schema_Task) : bool :=
  match task_title task with
  | Some title =>
      Js.includes (Js.toLowerCase title) (Js.toLowerCase userQuery)
  | None => false
  end
  || match task_notes task with
     | Some notes =>
         Js.includes (Js.toLowerCase notes) (Js.toLowerCase userQuery)
     | None => false
     end.

(** [query] is a string, as the tool's schema requires. *)
Definition search (userQuery : string) : M W CallToolResult :=
  await! allTasks <- _list;
  let filteredItems := List.filter (search_hit userQuery) allTasks in
  let taskList := formatTaskList filteredItems in
  ret (mkResult ("Found " +:+ Js.show_nat (length filteredItems) +:+ " tasks:"
                 +:+ Js.nl +:+ taskList)
                false).

Definition formatList (l : Schema_TaskList) : string :=
  "List: " +:+ Js.or_else (list_title l) "Unnamed"
  +:+ " - ID: " +:+ Js.or_else (list_id l) "Unknown"
  +:+ " - Updated: " +:+ Js.or_else (list_updated l) "Unknown".

Definition listTaskLists : M W CallToolResult :=
  try_catch
    (await! taskListsResponse <- tasks_tasklists_list tasks MAX_TASK_RESULTS;
     let taskLists := default [] taskListsResponse in
     let formattedLists := Js.join Js.nl (map formatList taskLists) in
     ret (mkResult ("Found " +:+ Js.show_nat (length taskLists)
                    +:+ " task lists:" +:+ Js.nl +:+ formattedLists)
                   false))
    (fun e =>
       run! console_log (ConsoleError "Error listing task lists:" (Some e));
       ret (mkResult ("Error listing task lists: " +:+ e) true)).

Definition createSubtask (taskListId parentTaskId taskTitle taskNotes
                          taskStatus taskDue : option string)
  : M W CallToolResult :=
  let taskListId := Js.or_else taskListId "@default" in
  match Js.or_undefined parentTaskId, Js.or_undefined taskTitle with
  | Some parentTaskId, Some title =>
      try_catch
        (run! try_catch
                (run! tasks_tasks_get tasks taskListId parentTaskId; ret tt)
                (fun e => throw ("Could not verify parent task: " +:+ e));
         try_catch
           (let task :=
              requestBody None (Some title) (Some (Js.or_else taskNotes ""))
                          taskDue (Some (Js.or_else taskStatus "needsAction")) in
            await! taskResponse <-
              tasks_tasks_insert tasks taskListId task (Some parentTaskId);
            ret (mkResult
                   ("Subtask " +:+ Js.quoted (Js.show (task_title taskResponse))
                    +:+ " created under parent task with ID " +:+ parentTaskId)
                   false))
           (fun e => throw ("Could not create subtask: " +:+ e)))
        (fun e =>
           run! console_log (ConsoleError "Error creating subtask:" (Some e));
           ret (mkResult ("Error creating subtask: " +:+ e) true))
  | _, _ => throw "Parent task ID and task title are required"
  end.

Definition list : M W CallToolResult :=
  await! allTasks <- _list;
  let taskList := formatTaskList allTasks in
  ret (mkResult ("Found " +:+ Js.show_nat (length allTasks) +:+ " tasks:"
                 +:+ Js.nl +:+ taskList)
                false).

End WithRemote.
End TaskActions.

(** ** [TaskActions]: the operations on [tasks.update], [tasks.clear] and
    [tasks.move]

    These three remote calls are not part of the collaborator above; the
    operations that use them run over a log that has them too, and [lift]
    runs an operation of the layer above, carrying its calls over. *)

Module TaskActionsMore.

Inductive Call' :=
| Base (c : Call)
| TasksUpdate (tasklist task : string) (body : Schema_Task)
| TasksClear (tasklist : string)
| TasksMove (tasklist task parent : string).

Record Remote' (W : Type) := mkRemote' {
  remote_base : Remote W;
  remote_tasks_update :
    string -> string -> Schema_Task -> W -> Outcome Schema_Task * W;
  remote_tasks_clear : string -> W -> Outcome unit * W;
  remote_tasks_move : string -> string -> string -> W -> Outcome Schema_Task * W
}.
Arguments remote_base {W} _.
Arguments remote_tasks_update {W} _.
Arguments remote_tasks_clear {W} _.
Arguments remote_tasks_move {W} _.

Record St' (W : Type) := mkSt' {
  world' : W;
  calls' : list Call';
  console' : list ConsoleEntry
}.
Arguments mkSt' {W} _ _ _.
Arguments world' {W} _.
Arguments calls' {W} _.
Arguments console' {W} _.

Definition M' (W A : Type) : Type := St' W -> Outcome A * St' W.

Definition ret' {W A} (a : A) : M' W A := fun s => (Returned a, s).

Definition throw' {W A} (msg : string) : M' W A := fun s => (Thrown msg, s).

Definition bind' {W A B} (m : M' W A) (k : A -> M' W B) : M' W B :=
  fun s => match m s with
           | (Returned a, s') => k a s'
           | (Thrown e, s') => (Thrown e, s')
           end.

Definition try_catch' {W A} (m : M' W A) (h : string -> M' W A) : M' W A :=
  fun s => match m s with
           | (Returned a, s') => (Returned a, s')
           | (Thrown e, s') => h e s'
           end.

Definition console_log' {W} (e : ConsoleEntry) : M' W unit :=
  fun s => (Returned tt, mkSt' (world' s) (calls' s) (console' s ++ [e])).

Definition await' {W A} (c : Call') (f : W -> Outcome A * W) : M' W A :=
  fun s => let (o, w') := f (world' s) in
           (o, mkSt' w' (calls' s ++ [c]) (console' s)).

Definition lift {W A} (m : M W A) : M' W A :=
  fun s => let (o, t) := m (mkSt (world' s) [] (console' s)) in
           (o, mkSt' (world t) (calls' s ++ map Base (calls t)) (console t)).

Section WithRemote.

Context {W : Type} (tasks : Remote' W).

Definition tasks_tasks_update (tasklist task : string) (body : Schema_Task) :=
  await' (TasksUpdate tasklist task body)
         (remote_tasks_update tasks tasklist task body).

Definition tasks_tasks_clear (tasklist : string) :=
  await' (TasksClear tasklist) (remote_tasks_clear tasks tasklist).

Definition tasks_tasks_move (tasklist task parent : string) :=
  await' (TasksMove tasklist task parent)
         (remote_tasks_move tasks tasklist task parent).


Definition clear (taskListId : option string) : M' W CallToolResult :=
  let taskListId := Js.or_else taskListId "@default" in
  bind' (tasks_tasks_clear taskListId)
        (fun _ =>
           ret' (mkResult ("Tasks from tasklist " +:+ taskListId +:+ " cleared")
                          false)).

Definition makeSubtask (taskListId taskId parentTaskId : option string)
  : M' W CallToolResult :=
  match Js.or_undefined taskListId, Js.or_undefined taskId,
        Js.or_undefined parentTaskId with
  | Some taskListId, Some taskId, Some parentTaskId =>
      try_catch'
        (bind'
           (try_catch'
              (bind' (lift (tasks_tasks_get (remote_base tasks)
                                            taskListId taskId))
                     (fun _ =>
                        bind' (lift (tasks_tasks_get (remote_base tasks)
                                                     taskListId parentTaskId))
                              (fun _ => ret' tt)))
              (fun e => throw' ("Could not verify tasks: " +:+ e)))
           (fun _ =>
              try_catch'
                (bind' (tasks_tasks_move taskListId taskId parentTaskId)
                       (fun taskResponse =>
                          ret' (mkResult
                                  ("Task "
                                   +:+ Js.quoted
                                         (Js.show (task_title taskResponse))
                                   +:+ " is now a subtask of task with ID "
                                   +:+ parentTaskId)
                                  false)))
                (fun e => throw' ("Could not make subtask: " +:+ e))))
        (fun e =>
           bind' (console_log' (ConsoleError "Error making subtask:" (Some e)))
                 (fun _ =>
                    ret' (mkResult ("Error making subtask: " +:+ e) true)))
  | _, _, _ => throw' "Task list ID, task ID, and parent task ID are required"
  end.

End WithRemote.
End TaskActionsMore.

(** ** The resource handlers of [index.ts] *)

Module Server.

Record Resource := mkResource {
  resource_uri : string;
  resource_mimeType : string;
  resource_name : option string
}.

Record ResourceContents := mkContents {
  contents_uri : string;
  contents_mimeType : string;
  contents_text : string
}.

(** [`${b || "Unknown"}`] for an optional boolean. *)
Definition show_flag (o : option bool) : string :=
  match o with Some true => "true" | _ => "Unknown" end.

(** [`${links || "Unknown"}`]: an array is truthy, even when empty. *)
Definition show_links_or (o : option (list Schema_TaskLink)) : string :=
  match o with
  | Some ls => Js.join "," (map (fun _ => "[object Object]") ls)
  | None => "Unknown"
  end.

Definition taskDetails (task : Schema_Task) : string :=
  Js.join Js.nl
    ["Title: " +:+ Js.or_else (task_title task) "No title";
     "Status: " +:+ Js.or_else (task_status task) "Unknown";
     "Due: " +:+ Js.or_else (task_due task) "Not set";
     "Notes: " +:+ Js.or_else (task_notes task) "No notes";
     "Hidden: " +:+ show_flag (task_hidden task);
     "Parent: " +:+ Js.or_else (task_parent task) "Unknown";
     "Deleted?: " +:+ show_flag (task_deleted task);
     "Completed Date: " +:+ Js.or_else (task_completed task) "Unknown";
     "Position: " +:+ Js.or_else (task_position task) "Unknown";
     "ETag: " +:+ Js.or_else (task_etag task) "Unknown";
     "Links: " +:+ show_links_or (task_links task);
     "Kind: " +:+ Js.or_else (task_kind task) "Unknown";
     "Status: " +:+ Js.or_else (task_status task) "Unknown";
     "Created: " +:+ Js.or_else (task_updated task) "Unknown";
     "Updated: " +:+ Js.or_else (task_updated task) "Unknown"].

(** The resource published for a task. *)
Definition resource_of (task : Schema_Task) : Resource :=
  mkResource ("gtasks:///" +:+ Js.show (task_id task)) "text/plain"
             (task_title task).

Section WithRemote.

Context {W : Type} (tasks : Remote W).

(** The handler of [ListResourcesRequestSchema]. *)
Definition listResources (cursor : option string)
  : M W (list Resource * option string) :=
  await! listed <- TaskResources.list tasks cursor;
  let '(allTasks, nextPageToken) := listed in
  ret (map resource_of allTasks, nextPageToken).

(** The handler of [ReadResourceRequestSchema]. *)
Definition readResource (uri : string) : M W (list ResourceContents) :=
  await! task <- TaskResources.read tasks uri;
  ret [mkContents uri "text/plain" (taskDetails task)].

End WithRemote.
End Server.

(** ** The earlier [moveTask] ([src/unnamed/part_001])

    The variant of the orchestration module that precedes [Tasks.ts]: its
    [moveTask] copies the fields of the original as they are and has a
    single [try] around its three calls. *)

Module Legacy.
Section WithRemote.

Context {W : Type} (tasks : Remote W).

Definition moveTask (sourceTaskListId targetTaskListId taskId : option string)
  : M W CallToolResult :=
  match Js.or_undefined sourceTaskListId, Js.or_undefined targetTaskListId,
        Js.or_undefined taskId with
  | Some src, Some tgt, Some tid =>
      try_catch
        (await! originalTask <- tasks_tasks_get tasks src tid;
         let newTask :=
           requestBody None (task_title originalTask) (task_notes originalTask)
                       (task_due originalTask) (task_status originalTask) in
         await! newTaskResponse <- tasks_tasks_insert tasks tgt newTask None;
         run! tasks_tasks_delete tasks src tid;
         ret (mkResult (TaskActions.moved_text (task_title originalTask) src tgt)
                       false))
        (fun e =>
           run! console_log (ConsoleError "Error moving task:" (Some e));
           ret (mkResult ("Error moving task: " +:+ e) true))
  | _, _, _ =>
      throw "Source task list ID, target task list ID, and task ID are required"
  end.

End WithRemote.
End Legacy.

(** ** An in-memory remote

    A small executable stand-in for the Google Tasks service, used to run
    the operations on concrete inputs: collections and items are kept in
    insertion order, some collections can be out of service, and the
    account can be read-only for deletions. *)

Module InMemory.

Record World := mkWorld {
  w_lists : list Schema_TaskList;
  w_items : list (string * Schema_Task);
  w_down : list string;
  w_listing_down : bool;
  w_no_delete : bool;
  w_next : nat
}.

Definition has (xs : list string) (x : string) : bool :=
  existsb (String.eqb x) xs.

Definition known (w : World) (l : string) : bool :=
  existsb (fun tl => Js.strict_eq (list_id tl) l) (w_lists w).

Definition is_item (l t : string) (e : string * Schema_Task) : bool :=
  String.eqb (fst e) l && Js.strict_eq (task_id (snd e)) t.

Definition fresh (w : World) : string := "id-" +:+ pretty (w_next w).

Definition tasklists_list (maxResults : nat) (w : World)
  : Outcome (option (list Schema_TaskList)) * World :=
  if w_listing_down w then (Thrown "Backend Error", w)
  else (Returned (Some (take maxResults (w_lists w))), w).

Definition tasklists_insert (title : string) (w : World)
  : Outcome Schema_TaskList * World :=
  let l := mkTaskList (Some (fresh w)) (Some title) None in
  (Returned l,
   mkWorld (w_lists w ++ [l]) (w_items w) (w_down w) (w_listing_down w)
           (w_no_delete w) (S (w_next w))).

Definition tasklists_update (tasklist i title : string) (w : World)
  : Outcome Schema_TaskList * World :=
  if known w tasklist then
    let l := mkTaskList (Some i) (Some title) None in
    (Returned l,
     mkWorld (map (fun tl => if Js.strict_eq (list_id tl) tasklist then l else tl)
                  (w_lists w))
             (w_items w) (w_down w) (w_listing_down w) (w_no_delete w)
             (w_next w))
  else (Thrown "Not Found", w).

Definition tasklists_delete (tasklist : string) (w : World)
  : Outcome unit * World :=
  if known w tasklist then
    (Returned tt,
     mkWorld (List.filter (fun tl => negb (Js.strict_eq (list_id tl) tasklist))
                          (w_lists w))
             (List.filter (fun e => negb (String.eqb (fst e) tasklist))
                          (w_items w))
             (w_down w) (w_listing_down w) (w_no_delete w) (w_next w))
  else (Thrown "Not Found", w).

Definition tasks_list (tasklist : option string) (maxResults : nat)
           (pageToken : option string) (w : World)
  : Outcome Schema_Tasks * World :=
  match tasklist with
  | None => (Thrown "Missing required parameters: tasklist", w)
  | Some l =>
      if has (w_down w) l then (Thrown "Backend Error", w)
      else if known w l then
        let all :=
          map snd (List.filter (fun e => String.eqb (fst e) l) (w_items w)) in
        match pageToken with
        | Some _ => (Returned (mkTasks (Some (drop maxResults all)) None), w)
        | None =>
            (Returned
               (mkTasks (Some (take maxResults all))
                        (if (maxResults <? length all)%nat
                         then Some ("after-" +:+ pretty maxResults)
                         else None)),
             w)
        end
      else (Thrown "Not Found", w)
  end.

Definition tasks_get (tasklist task : string) (w : World)
  : Outcome Schema_Task * World :=
  if has (w_down w) tasklist then (Thrown "Backend Error", w)
  else match List.find (is_item tasklist task) (w_items w) with
       | Some e => (Returned (snd e), w)
       | None => (Thrown "Not Found", w)
       end.

Definition tasks_insert (tasklist : string) (body : Schema_Task)
           (parent : option string) (w : World)
  : Outcome Schema_Task * World :=
  if has (w_down w) tasklist then (Thrown "Backend Error", w)
  else if known w tasklist then
    let t :=
      mkTask (Some (fresh w)) (task_title body) (task_notes body)
             (task_due body) (task_status body) parent None None None None
             None None None None (Some "tasks#task") None None in
    (Returned t,
     mkWorld (w_lists w) (w_items w ++ [(tasklist, t)]) (w_down w)
             (w_listing_down w) (w_no_delete w) (S (w_next w)))
  else (Thrown "Not Found", w).

Definition patched (old new : option string) : option string :=
  match new with Some v => Some v | None => old end.

Definition tasks_patch (tasklist task : string) (body : Schema_Task)
           (w : World) : Outcome Schema_Task * World :=
  match List.find (is_item tasklist task) (w_items w) with
  | Some (_, old) =>
      let t :=
        mkTask (task_id old) (patched (task_title old) (task_title body))
               (patched (task_notes old) (task_notes body))
               (patched (task_due old) (task_due body))
               (patched (task_status old) (task_status body))
               (task_parent old) None None None None None None None None
               (Some "tasks#task") None None in
      (Returned t,
       mkWorld (w_lists w)
               (map (fun e => if is_item tasklist task e then (tasklist, t) else e)
                    (w_items w))
               (w_down w) (w_listing_down w) (w_no_delete w) (w_next w))
  | None => (Thrown "Not Found", w)
  end.

Definition tasks_delete (tasklist task : string) (w : World)
  : Outcome unit * World :=
  if w_no_delete w then (Thrown "Forbidden", w)
  else match List.find (is_item tasklist task) (w_items w) with
       | Some _ =>
           (Returned tt,
            mkWorld (w_lists w)
                    (List.filter (fun e => negb (is_item tasklist task e))
                                 (w_items w))
                    (w_down w) (w_listing_down w) (w_no_delete w) (w_next w))
       | None => (Thrown "Not Found", w)
       end.

Definition remote : Remote World :=
  mkRemote World tasklists_list tasklists_insert tasklists_update
           tasklists_delete tasks_list tasks_get tasks_insert tasks_patch
           tasks_delete.

Definition start (w : World) : St World := mkSt w [] [].

(** An item as the service would hold it. *)
Definition item (i title : string) (parent : option string) : Schema_Task :=
  mkTask (Some i) (Some title) None None (Some "needsAction") parent
         None None None None None None None None (Some "tasks#task")
         None None.

Definition collection (i title : string) : Schema_TaskList :=
  mkTaskList (Some i) (Some title) None.

(** Two collections, [A] ("Inbox") and [B] ("Work"). *)
Definition two_lists (items : list (string * Schema_Task))
           (down : list string) (no_delete : bool) : World :=
  mkWorld [collection "A" "Inbox"; collection "B" "Work"] items down false
          no_delete 1.

End InMemory.

(** ** Vocabulary of the statements *)

(** The last truthy [nextPageToken] of a sequence of pages. *)
Definition last_token (pages : list Schema_Tasks) : option string :=
  last (omap (fun p => Js.or_undefined (tasks_nextPageToken p)) pages).

(** [page.items || []]. *)
Definition page_items (p : Schema_Tasks) : list Schema_Task :=
  default [] (tasks_items p).

(** The number of entries a batch has filed so far. *)
Definition filed2 {R E} (acc : list R * list E) : nat :=
  length (fst acc) + length (snd acc).

Definition filed3 {R E V} (acc : list R * list E * list V) : nat :=
  length (fst (fst acc)) + length (snd (fst acc)) + length (snd acc).

(** One round of a batch loop files one entry, in one partition. *)
Definition files_one2 {R E} (acc acc' : list R * list E) : Prop :=
  (exists r, acc' = (fst acc ++ [r], snd acc))
  \/ (exists e, acc' = (fst acc, snd acc ++ [e])).

Definition files_one3 {R E V} (acc acc' : list R * list E * list V) : Prop :=
  (exists r, acc' = (fst (fst acc) ++ [r], snd (fst acc), snd acc))
  \/ (exists e, acc' = (fst (fst acc), snd (fst acc) ++ [e], snd acc))
  \/ (exists v, acc' = (fst (fst acc), snd (fst acc), snd acc ++ [v])).

(** A round [step] of a batch loop always returns, having filed one entry. *)
Definition files_each2 {W X R E}
           (step : X -> list R * list E -> M W (list R * list E)) : Prop :=
  forall x acc s, exists acc' s',
      step x acc s = (Returned acc', s') /\ files_one2 acc acc'.

Definition files_each3 {W X R E V}
           (step : X -> list R * list E * list V
                   -> M W (list R * list E * list V)) : Prop :=
  forall x acc s, exists acc' s',
      step x acc s = (Returned acc', s') /\ files_one3 acc acc'.

(** The opening of every batch report. *)
Definition batch_summary (heading : string) (succeeded failed : nat) : string :=
  heading +:+ ": " +:+ Js.show_nat succeeded +:+ " succeeded, "
  +:+ Js.show_nat failed +:+ " failed".

(** A batch operation [op], whose loop is [run], accounts for [n] elements
    from state [s]: the loop returns two partitions of [n] entries in all,
    and the operation reports their sizes. *)
Definition accounts_for {W R E} (run : M W (list R * list E))
           (op : M W CallToolResult) (heading : string) (n : nat) (s : St W)
  : Prop :=
  exists results errors s' r,
    run s = (Returned (results, errors), s')
    /\ length results + length errors = n
    /\ op s = (Returned r, s')
    /\ isError r = false
    /\ Js.startsWith (text r)
                     (batch_summary heading (length results) (length errors))
       = true.

(** The same with the third partition of [batchMoveTasks]. *)
Definition accounts_for3 {W R E V} (run : M W (list R * list E * list V))
           (op : M W CallToolResult) (heading : string) (n : nat) (s : St W)
  : Prop :=
  exists results errors warnings s' r,
    run s = (Returned (results, errors, warnings), s')
    /\ length results + length errors + length warnings = n
    /\ op s = (Returned r, s')
    /\ isError r = false
    /\ Js.startsWith (text r)
                     (batch_summary heading (length results) (length errors))
       = true.

(** Prefix routing: the title carries the bracketed prefix of the entry. *)
Definition carries (title : string) (entry : string * string) : bool :=
  Js.startsWith title ("[" +:+ fst entry +:+ "]").

(** The entry routes the item: its prefix is carried, its destination
    title resolves, and to a collection other than the current one. *)
Definition routes (listIdByTitle listIdByNormalizedTitle : JsObject)
           (title taskListId : string) (entry : string * string)
  : option string :=
  if carries title entry then
    match TaskActions.resolve_target listIdByTitle listIdByNormalizedTitle
                                     (snd entry) with
    | Some targetListId =>
        if String.eqb taskListId targetListId then None else Some targetListId
    | None => None
    end
  else None.

(** The prefix is carried but its destination title does not resolve. *)
Definition unresolved (listIdByTitle listIdByNormalizedTitle : JsObject)
           (title : string) (entry : string * string) : bool :=
  carries title entry
  && negb (bool_decide
             (is_Some (TaskActions.resolve_target listIdByTitle
                         listIdByNormalizedTitle (snd entry)))).

(** The console warnings for the unresolved entries among [entries]. *)
Definition unresolved_warnings (listIdByTitle listIdByNormalizedTitle : JsObject)
           (title : string) (entries : list (string * string))
  : list ConsoleEntry :=
  map (fun entry =>
         ConsoleWarn (TaskActions.target_not_found listIdByTitle (snd entry)))
      (List.filter (unresolved listIdByTitle listIdByNormalizedTitle title)
                   entries).

(** How the live execution of one planned transfer ends. *)
Inductive Fate :=
| Moved
| NotCreated (e : string)
| NotDeleted (e : string).

Definition is_moved (fate : Fate) : bool :=
  match fate with Moved => true | _ => false end.

(** The remote calls of one planned transfer: the insert of the copy and,
    unless the copy could not be created, the delete of the original. *)
Definition transfer_calls (plan : MovePlan) (fate : Fate) : list Call :=
  TasksInsert (plan_targetListId plan) (TaskActions.newTask_of (plan_task plan))
              None
  :: match fate with
     | NotCreated _ => []
     | _ => [TasksDelete (default "" (task_taskListId (plan_task plan)))
                         (default "" (task_id (plan_task plan)))]
     end.

(** The line of the live report for one planned transfer. *)
Definition transfer_line (plan : MovePlan) (fate : Fate) : string :=
  match fate with
  | Moved =>
      "- Moved " +:+ Js.quoted (Js.show (task_title (plan_task plan)))
      +:+ " from " +:+ TaskActions.plan_from plan +:+ " to "
      +:+ Js.quoted (plan_targetListTitle plan)
  | NotCreated e | NotDeleted e =>
      "- FAILED to move " +:+ Js.quoted (Js.show (task_title (plan_task plan)))
      +:+ ": " +:+ e
  end.

Definition moved_count (fates : list Fate) : nat :=
  length (List.filter is_moved fates).

Definition failed_count (fates : list Fate) : nat :=
  length (List.filter (fun fate => negb (is_moved fate)) fates).

Definition live_report (plans : list MovePlan) (fates : list Fate)
  : list string :=
  ("Moving " +:+ Js.show_nat (length plans) +:+ " tasks:")
  :: zip_with transfer_line plans fates
  ++ [TaskActions.summary_line (moved_count fates) (failed_count fates)].

(** What planning guarantees of a plan: title, identifier and current
    collection of the item are non-empty strings. *)
Definition well_formed (plan : MovePlan) : Prop :=
  Js.truthy (task_title (plan_task plan)) = true
  /\ Js.truthy (task_id (plan_task plan)) = true
  /\ Js.truthy (task_taskListId (plan_task plan)) = true.

(** The enumeration and planning phase of [reorganizeTasks], run from [s],
    yields the move plans [plans]. *)
Definition planned {W} (tasks : Remote W) (entries : list (string * string))
           (s : St W) (plans : list MovePlan) : Prop :=
  exists allTasks s1 ols s2 s3,
    TaskActions._list tasks s = (Returned allTasks, s1)
    /\ tasks_tasklists_list tasks MAX_TASK_RESULTS s1 = (Returned ols, s2)
    /\ TaskActions.plan_moves entries allTasks (default [] ols) s2
       = (Returned plans, s3).

(** The enumeration fails: one of the two listings of the collections
    throws. *)
Definition enumeration_fails {W} (tasks : Remote W) (s : St W) (e : string)
  : Prop :=
  (exists s1, TaskActions._list tasks s = (Thrown e, s1))
  \/ (exists allTasks s1 s2,
         TaskActions._list tasks s = (Returned allTasks, s1)
         /\ tasks_tasklists_list tasks MAX_TASK_RESULTS s1 = (Thrown e, s2)).

(** The copy of a transfer was created (whether or not the original could
    then be deleted). *)
Definition is_created (fate : Fate) : bool :=
  match fate with NotCreated _ => false | _ => true end.

(** A required field is missing: undefined or the empty string. *)
Definition lacks (o : option string) : bool := negb (Js.truthy o).

(** A batch operation throws [msg], having done nothing, when its argument
    is not a non-empty array, and otherwise returns a result that is not
    error-flagged. *)
Definition guards_input {W A} (op : ArrayArg A -> M W CallToolResult)
           (msg : string) : Prop :=
  forall arg s,
    match nonempty_array arg with
    | None => op arg s = (Thrown msg, s)
    | Some _ => exists r s', op arg s = (Returned r, s') /\ isError r = false
    end.

(** A round of a batch loop files an element that misses a required field
    under [errors], with [msg], and leaves the state (calls included) as it
    is. *)
Definition rejects_unasked2 {W X R}
           (step : X -> list R * list (ErrorEntry X)
                   -> M W (list R * list (ErrorEntry X)))
           (missing : X -> bool) (msg : string) : Prop :=
  forall x acc s,
    missing x = true ->
    step x acc s = (Returned (fst acc, snd acc ++ [mkError msg x]), s).

Definition rejects_unasked3 {W X R V}
           (step : X -> list R * list (ErrorEntry X) * list V
                   -> M W (list R * list (ErrorEntry X) * list V))
           (missing : X -> bool) (msg : string) : Prop :=
  forall x acc s,
    missing x = true ->
    step x acc s
    = (Returned (fst (fst acc), snd (fst acc) ++ [mkError msg x], snd acc), s).

(** The collections [_list] asks for their items. *)
Definition with_id (taskLists : list Schema_TaskList) : list Schema_TaskList :=
  List.filter (fun taskList => Js.truthy (list_id taskList)) taskLists.

(** What [_list] keeps of the answer of one collection, and what it writes
    to the console about it. *)
Definition gathered (taskList : Schema_TaskList) (o : Outcome Schema_Tasks)
  : list Schema_Task :=
  match o with
  | Returned page =>
      map (fun task =>
             withListInfo task (Js.or_undefined (list_id taskList))
                          (Js.or_undefined (list_title taskList)))
          (page_items page)
  | Thrown _ => []
  end.

Definition complaint (taskList : Schema_TaskList) (o : Outcome Schema_Tasks)
  : list ConsoleEntry :=
  match o with
  | Returned _ => []
  | Thrown e =>
      [ConsoleError ("Error fetching tasks for list "
                     +:+ Js.show (list_id taskList) +:+ ":") (Some e)]
  end.

(** The line of the report of [batchMoveTasks] for an item that was copied
    to [tgt] but could not be deleted from [src]. *)
Definition partial_line (title : option string) (tgt src : string) : string :=
  "- Task " +:+ Js.quoted (Js.show title) +:+ " copied to list "
  +:+ Js.quoted tgt +:+ " but not removed from " +:+ Js.quoted src.

Module Scenario.
Import InMemory.

(** The identifier [t1] is held by both collections. *)
Definition shared_id : World :=
  two_lists [("B", item "t1" "the copy in B" None);
             ("A", item "t1" "the copy in A" None)] [] false.

(** Collection [A] holds eleven items, collection [B] one. *)
Definition crowded : World :=
  two_lists (map (fun n => ("A", item ("a" +:+ pretty n) "chore" None)) (seq 0 11)
             ++ [("B", item "b0" "errand" None)]) [] false.

(** Collection [A] is out of service, collection [B] holds one item. *)
Definition A_down : World :=
  two_lists [("B", item "b0" "errand" None)] ["A"] false.

(** One item in [A]; the first world accepts deletions, the second
    refuses them. *)
Definition errand : World :=
  two_lists [("A", item "t1" "Buy milk" None)] [] false.

Definition errand_no_delete : World :=
  two_lists [("A", item "t1" "Buy milk" None)] [] true.

(** The world [errand_no_delete] once the copy has been inserted. *)
Definition errand_copied : World :=
  mkWorld [collection "A" "Inbox"; collection "B" "Work"]
          [("A", item "t1" "Buy milk" None);
           ("B", mkTask (Some "id-1") (Some "Buy milk") (Some "") None
                        (Some "needsAction") None None None None None None None
                        None None (Some "tasks#task") None None)]
          [] false true 2.

(** A parent [p] with two children, a grandchild and an unrelated
    top-level item, all in [A]. *)
Definition family : World :=
  two_lists [("A", item "p" "Plan trip" None);
             ("A", item "c1" "Book flight" (Some "p"));
             ("A", item "g1" "Compare fares" (Some "c1"));
             ("A", item "u1" "Water plants" None);
             ("A", item "c2" "Book hotel" (Some "p"))] [] false.

(** One item of [A] whose title carries both the prefix [X] and the
    prefix [X]]. *)
Definition two_prefixes : World :=
  two_lists [("A", item "t1" "[X]] foo" None)] [] false.

(** The collections cannot be listed. *)
Definition unreachable : World :=
  mkWorld [collection "A" "Inbox"; collection "B" "Work"]
          [("A", item "t1" "[X] foo" None)] [] true false 1.

(** One item of [A] whose title carries the prefix [X]. *)
Definition prefixed : World :=
  two_lists [("A", item "t1" "[X] foo" None)] [] false.

(** An item that has notes, alone in [A]; its copy as [B] receives it;
    the world once the copy has been inserted. *)
Definition annotated_item : Schema_Task :=
  mkTask (Some "t1") (Some "Buy milk") (Some "2 litres") None
         (Some "needsAction") None None None None None None None None None
         (Some "tasks#task") None None.

Definition annotated_copy : Schema_Task :=
  mkTask (Some "id-1") (Some "Buy milk") (Some "2 litres") None
         (Some "needsAction") None None None None None None None None None
         (Some "tasks#task") None None.

Definition annotated : World :=
  two_lists [("A", annotated_item)] [] false.

Definition annotated_copied : World :=
  mkWorld [collection "A" "Inbox"; collection "B" "Work"]
          [("A", annotated_item); ("B", annotated_copy)] [] false false 2.

End Scenario.

(** ** Vocabulary of the further statements *)

(** The entries [r], [e] filed before, put in front of an outcome. *)
Definition frame2 {S R E} (r : list R) (e : list E)
           (o : Outcome (list R * list E) * S) : Outcome (list R * list E) * S :=
  match o with
  | (Returned (r', e'), s) => (Returned (r ++ r', e ++ e'), s)
  | (Thrown m, s) => (Thrown m, s)
  end.

Definition frame3 {S R E V} (r : list R) (e : list E) (v : list V)
           (o : Outcome (list R * list E * list V) * S)
  : Outcome (list R * list E * list V) * S :=
  match o with
  | (Returned (r', e', v'), s) => (Returned (r ++ r', e ++ e', v ++ v'), s)
  | (Thrown m, s) => (Thrown m, s)
  end.

(** What a round files, and the state it leaves, do not depend on the
    entries filed before. *)
Definition independent2 {W X R E}
           (step : X -> list R * list E -> M W (list R * list E)) : Prop :=
  forall x r e s, step x (r, e) s = frame2 r e (step x ([], []) s).

Definition independent3 {W X R E V}
           (step : X -> list R * list E * list V
                   -> M W (list R * list E * list V)) : Prop :=
  forall x r e v s, step x (r, e, v) s = frame3 r e v (step x ([], [], []) s).

(** The batch [xs ++ ys] is the batch [xs] followed by the batch [ys] on
    the state [xs] left. *)
Definition splits2 {W X R E}
           (step : X -> list R * list E -> M W (list R * list E)) : Prop :=
  forall xs ys s,
    for_of (xs ++ ys) step ([], []) s
    = match for_of xs step ([], []) s with
      | (Returned (r, e), s1) => frame2 r e (for_of ys step ([], []) s1)
      | (Thrown m, s1) => (Thrown m, s1)
      end.

Definition splits3 {W X R E V}
           (step : X -> list R * list E * list V
                   -> M W (list R * list E * list V)) : Prop :=
  forall xs ys s,
    for_of (xs ++ ys) step ([], [], []) s
    = match for_of xs step ([], [], []) s with
      | (Returned (r, e, v), s1) =>
          frame3 r e v (for_of ys step ([], [], []) s1)
      | (Thrown m, s1) => (Thrown m, s1)
      end.

(** The task with its title and notes in lower case. *)
Definition lowered (task : Schema_Task) : Schema_Task :=
  mkTask (task_id task) (Js.toLowerCase <$> task_title task)
         (Js.toLowerCase <$> task_notes task) (task_due task) (task_status task)
         (task_parent task) (task_selfLink task) (task_hidden task)
         (task_deleted task) (task_completed task) (task_position task)
         (task_updated task) (task_etag task) (task_links task) (task_kind task)
         (task_taskListId task) (task_taskListTitle task).

(** The collections that enter the lookups, as (title, identifier) pairs:
    those with a non-empty title and a non-empty identifier. *)
Definition usable (taskLists : list Schema_TaskList) : list (string * string) :=
  omap (fun l =>
          match Js.or_undefined (list_title l), Js.or_undefined (list_id l) with
          | Some title, Some i => Some (title, i)
          | _, _ => None
          end)
       taskLists.

(** The identifier of the last pair under the key [k]. *)
Definition last_id (k : string) (pairs : list (string * string))
  : option string :=
  snd <$> last (List.filter (fun p => String.eqb (fst p) k) pairs).

(** [title.toLowerCase().trim()]. *)
Definition normalized (title : string) : string :=
  Js.trim (Js.toLowerCase title).

Definition normalized_pairs (pairs : list (string * string))
  : list (string * string) :=
  map (fun p => (normalized (fst p), snd p)) pairs.

(** The names a plain object inherits from [Object.prototype]: where the
    object has no entry of its own, a lookup under one of them answers with
    the inherited member, and an assignment to ["__proto__"] stores no
    entry. *)
Definition inherited_names : list string :=
  ["constructor"; "__defineGetter__"; "__defineSetter__"; "hasOwnProperty";
   "__lookupGetter__"; "__lookupSetter__"; "isPrototypeOf";
   "propertyIsEnumerable"; "toString"; "valueOf"; "__proto__";
   "toLocaleString"].

Definition own_key (k : string) : bool :=
  negb (existsb (String.eqb k) inherited_names).

(** Text made of ASCII characters only, on which [Js.toLowerCase] and
    [Js.trim] are the methods of JavaScript. *)
Definition ascii_text (t : string) : bool :=
  forallb (fun c => (nat_of_ascii c <? 128)%nat) (list_ascii_of_string t).

(** The destination titles on which the lookups [obj_get] are those of
    JavaScript: ASCII text that names no inherited member, as it stands or
    normalized. *)
Definition plain_key (t : string) : bool :=
  ascii_text t && own_key t && own_key (normalized t).

Definition plain_targets (entries : list (string * string)) : bool :=
  forallb (fun entry => plain_key (snd entry)) entries.

Definition ascii_titles (taskLists : list Schema_TaskList) : bool :=
  forallb (fun l => ascii_text (Js.show (list_title l))) taskLists.

(** What planning guarantees of a plan made from the collections
    [taskLists] under the mapping [entries]: it is well formed, its prefix
    and destination title are an entry of the mapping, the title of its
    item carries the prefix, the destination title resolves to its target,
    the target is the identifier of a listed collection, and it is not the
    collection the item is in. *)
Definition sound_plan (taskLists : list Schema_TaskList)
           (entries : list (string * string)) (plan : MovePlan) : Prop :=
  well_formed plan
  /\ In (plan_prefix plan, plan_targetListTitle plan) entries
  /\ carries (Js.show (task_title (plan_task plan)))
             (plan_prefix plan, plan_targetListTitle plan) = true
  /\ TaskActions.resolve_target (fst (TaskActions.build_lookups taskLists))
                                (snd (TaskActions.build_lookups taskLists))
                                (plan_targetListTitle plan)
     = Some (plan_targetListId plan)
  /\ (exists taskList,
         In taskList taskLists /\ list_id taskList = Some (plan_targetListId plan))
  /\ task_taskListId (plan_task plan) <> Some (plan_targetListId plan).

(** The error flag of the result an operation returned, if it returned. *)
Definition isError_of {S} (o : Outcome CallToolResult * S) : option bool :=
  match fst o with
  | Returned r => Some (isError r)
  | Thrown _ => None
  end.

(** * Properties *)

(** ** The monad and the loops *)

Lemma for_of_app {W X Acc} (body : X -> Acc -> M W Acc) (xs ys : list X)
      (acc : Acc) (s : St W) :
  for_of (xs ++ ys) body acc s =
  match for_of xs body acc s with
  | (Returned acc', s') => for_of ys body acc' s'
  | (Thrown e, s') => (Thrown e, s')
  end.
Proof.
  revert acc s. induction xs as [|x xs IH]; intros acc s; simpl; [done|].
  unfold bind. destruct (body x acc s) as [[acc'|e] s']; [apply IH | done].
Qed.

(** A loop whose every round returns and adds one to a measure of the
    accumulator returns, with the measure grown by the number of rounds. *)
Lemma for_of_counts {W X Acc} (size : Acc -> nat) (body : X -> Acc -> M W Acc) :
  (forall x acc s, exists acc' s',
      body x acc s = (Returned acc', s') /\ size acc' = S (size acc)) ->
  forall xs acc s, exists acc' s',
      for_of xs body acc s = (Returned acc', s')
      /\ size acc' = size acc + length xs.
Proof.
  intros Hbody xs. induction xs as [|x xs IH]; intros acc s; simpl.
  - exists acc, s. split; [done | lia].
  - destruct (Hbody x acc s) as (acc1 & s1 & E1 & Hs1).
    destruct (IH acc1 s1) as (acc2 & s2 & E2 & Hs2).
    exists acc2, s2. unfold bind. rewrite E1. split; [done | lia].
Qed.

Lemma answers_app {W K R} (f : K -> W -> Outcome R * W) (ks1 ks2 : list K)
      (w : W) :
  answers f (ks1 ++ ks2) w =
  let (os1, w1) := answers f ks1 w in
  let (os2, w2) := answers f ks2 w1 in
  (os1 ++ os2, w2).
Proof.
  revert w. induction ks1 as [|k ks1 IH]; intros w; simpl.
  - by destruct (answers f ks2 w).
  - destruct (f k w) as [o w']. rewrite IH.
    destruct (answers f ks1 w') as [os1 w1].
    by destruct (answers f ks2 w1).
Qed.

Lemma list_ids_cons (taskList : Schema_TaskList) (rest : list Schema_TaskList) :
  list_ids (taskList :: rest) =
  match list_id taskList with
  | Some i => if String.eqb i "" then list_ids rest else i :: list_ids rest
  | None => list_ids rest
  end.
Proof.
  unfold list_ids; simpl. destruct (list_id taskList) as [i|]; simpl; [|done].
  by destruct (String.eqb i "").
Qed.

(** ** [TaskResources.read] *)

Section ReadFacts.

Context {W : Type} (tasks : Remote W) (taskId : string).

Local Abbreviation probe := (fun i => remote_tasks_get tasks i taskId).
Local Abbreviation probed := (map (fun i => TasksGet i taskId)).

Lemma read_loop_hit (taskLists : list Schema_TaskList) :
  forall (s : St W) pre i post es t w1 w2,
    list_ids taskLists = pre ++ i :: post ->
    answers probe pre (world s) = (map Thrown es, w1) ->
    probe i w1 = (Returned t, w2) ->
    TaskResources.read_loop tasks taskId taskLists s =
    (Returned (Some t),
     mkSt w2 (calls s ++ probed (pre ++ [i])) (console s)).
Proof.
  induction taskLists as [|taskList rest IH]; intros s pre i post es t w1 w2.
  - intros H. by destruct pre.
  - rewrite list_ids_cons. simpl.
    destruct (list_id taskList) as [i0|]; [|by apply IH].
    destruct (String.eqb i0 ""); [by apply IH|].
    intros Hids Hpre Hget. destruct pre as [|p pre]; simpl in *.
    + injection Hids as -> _. injection Hpre as _ <-.
      unfold bind, try_catch, tasks_tasks_get, await, ret; simpl.
      by rewrite Hget.
    + injection Hids as -> Hids.
      unfold bind, try_catch, tasks_tasks_get, await, ret; simpl.
      destruct (remote_tasks_get tasks p taskId (world s)) as [o w'] eqn:Ep.
      destruct (answers probe pre w') as [os w''] eqn:Eans.
      destruct es as [|e es]; [done|]. simpl in Hpre.
      injection Hpre as -> Hos ->. simpl.
      rewrite (IH _ pre i post es t w1 w2 Hids); simpl;
        [| rewrite Eans; congruence | done].
      by rewrite <- app_assoc.
Qed.

Lemma read_loop_miss (taskLists : list Schema_TaskList) :
  forall (s : St W) es w1,
    answers probe (list_ids taskLists) (world s) = (map Thrown es, w1) ->
    TaskResources.read_loop tasks taskId taskLists s =
    (Returned None,
     mkSt w1 (calls s ++ probed (list_ids taskLists)) (console s)).
Proof.
  induction taskLists as [|taskList rest IH]; intros s es w1.
  - simpl. intros [= _ <-]. unfold ret. destruct s; simpl.
    by rewrite app_nil_r.
  - rewrite list_ids_cons. simpl.
    destruct (list_id taskList) as [i0|]; [|by apply IH].
    destruct (String.eqb i0 ""); [by apply IH|].
    simpl. unfold bind, try_catch, tasks_tasks_get, await, ret; simpl.
    destruct (remote_tasks_get tasks i0 taskId (world s)) as [o w'] eqn:Ep.
    destruct (answers probe (list_ids rest) w') as [os w''] eqn:Eans.
    destruct es as [|e es]; [done|]. simpl.
    intros [= -> Hos ->]. simpl.
    rewrite (IH _ es w1); simpl; [| rewrite Eans; congruence].
    by rewrite <- app_assoc.
Qed.

(** The loop itself never throws, and when it ends without a task every
    probe it made has failed. *)
Lemma read_loop_inv (taskLists : list Schema_TaskList) :
  forall (s : St W),
    (exists t s', TaskResources.read_loop tasks taskId taskLists s
                  = (Returned (Some t), s'))
    \/ (exists s' es w1,
           TaskResources.read_loop tasks taskId taskLists s = (Returned None, s')
           /\ answers probe (list_ids taskLists) (world s)
              = (map Thrown es, w1)).
Proof.
  induction taskLists as [|taskList rest IH]; intros s.
  - right. exists s, [], (world s). by simpl.
  - rewrite list_ids_cons. simpl.
    destruct (list_id taskList) as [i0|]; [|by apply IH].
    destruct (String.eqb i0 ""); [by apply IH|].
    simpl. unfold bind, try_catch, tasks_tasks_get, await, ret; simpl.
    destruct (remote_tasks_get tasks i0 taskId (world s)) as [[t|e] w'] eqn:Ep;
      simpl.
    + left. eauto.
    + destruct (IH (mkSt w' (calls s ++ [TasksGet i0 taskId]) (console s)))
        as [(t & s' & E)|(s' & es & w1 & E & Hans)].
      * left. eauto.
      * right. exists s', (e :: es), w1. split; [done|].
        simpl in Hans. by rewrite Hans.
Qed.

End ReadFacts.

(** C10. [TaskResources.read] probes the collections that have an
    identifier in the order the remote lists them and returns the task of
    the first one whose [get] succeeds, whatever the later collections hold
    (so the earliest copy of an identifier wins); failed probes are
    swallowed; and, the collections having been listed, it throws exactly
    when every probe has failed, the message being "Task not found". *)
Theorem read_earliest_list_wins {W : Type} (tasks : Remote W) (uri : string)
        (s : St W) (ols : option (list Schema_TaskList)) (w0 : W) :
  remote_tasklists_list tasks MAX_TASK_RESULTS (world s) = (Returned ols, w0) ->
  let taskId := Js.remove_first "gtasks:///" uri in
  let ids := list_ids (default [] ols) in
  let probe := fun i => remote_tasks_get tasks i taskId in
  (forall pre i post es t w1 w2,
      ids = pre ++ i :: post ->
      answers probe pre w0 = (map Thrown es, w1) ->
      probe i w1 = (Returned t, w2) ->
      TaskResources.read tasks uri s =
      (Returned t,
       mkSt w2
            (calls s ++ TasklistsList MAX_TASK_RESULTS
                   :: map (fun i => TasksGet i taskId) (pre ++ [i]))
            (console s)))
  /\ (forall msg,
         fst (TaskResources.read tasks uri s) = Thrown msg <->
         msg = "Task not found"
         /\ exists es w1, answers probe ids w0 = (map Thrown es, w1)).
Proof.
  intros Hlists taskId ids probe.
  assert (Hread : TaskResources.read tasks uri s =
                  match TaskResources.read_loop tasks taskId (default [] ols)
                          (mkSt w0 (calls s ++ [TasklistsList MAX_TASK_RESULTS])
                                (console s)) with
                  | (Returned (Some t), s') => (Returned t, s')
                  | (Returned None, s') => (Thrown "Task not found", s')
                  | (Thrown e, s') => (Thrown e, s')
                  end).
  { unfold TaskResources.read, bind, tasks_tasklists_list, await.
    rewrite Hlists. fold taskId.
    destruct (TaskResources.read_loop _ _ _ _) as [[[t|]|e] s']; done. }
  split.
  - intros pre i post es t w1 w2 Hids Hpre Hget. rewrite Hread.
    rewrite (read_loop_hit tasks taskId _ _ pre i post es t w1 w2 Hids);
      [| done | done].
    simpl. by rewrite <- app_assoc.
  - intros msg. rewrite Hread. split.
    + destruct (read_loop_inv tasks taskId (default [] ols)
                  (mkSt w0 (calls s ++ [TasklistsList MAX_TASK_RESULTS])
                        (console s)))
        as [(t & s' & E)|(s' & es & w1 & E & Hans)]; rewrite E; simpl.
      * done.
      * intros [= <-]. split; [done|]. by exists es, w1.
    + intros [-> (es & w1 & Hans)].
      by rewrite (read_loop_miss tasks taskId _ _ es w1).
Qed.

Lemma read_earliest_list_wins_witness :
  TaskResources.read InMemory.remote "gtasks:///t1"
                     (InMemory.start Scenario.shared_id)
  = (Returned (InMemory.item "t1" "the copy in A" None),
     mkSt Scenario.shared_id [TasklistsList 100; TasksGet "A" "t1"] []).
Proof.
  apply (proj1 (read_earliest_list_wins InMemory.remote "gtasks:///t1"
                  (InMemory.start Scenario.shared_id)
                  (Some (InMemory.w_lists Scenario.shared_id))
                  Scenario.shared_id eq_refl)
               [] "A" ["B"] [] (InMemory.item "t1" "the copy in A" None)
               Scenario.shared_id Scenario.shared_id); reflexivity.
Defined.

(** ** [TaskResources.list] and [TaskActions._list] *)

Section ListFacts.

Context {W : Type} (tasks : Remote W) (pageToken : option string).

Local Abbreviation fetch :=
  (fun taskList => remote_tasks_list tasks (list_id taskList) 10 pageToken).
Local Abbreviation fetched :=
  (map (fun taskList => TasksList (list_id taskList) 10 pageToken)).
Local Abbreviation body :=
  (fun (taskList : Schema_TaskList) '(allTasks, nextPageToken) =>
     await! tasksResponse <-
       tasks_tasks_list tasks (list_id taskList) 10 pageToken;
     let taskItems := default [] (tasks_items tasksResponse) in
     ret (allTasks ++ taskItems,
          if Js.truthy (tasks_nextPageToken tasksResponse)
          then tasks_nextPageToken tasksResponse
          else nextPageToken)).

Lemma list_loop_pages (taskLists : list Schema_TaskList) :
  forall (s : St W) allTasks token pages w1,
    answers fetch taskLists (world s) = (map Returned pages, w1) ->
    for_of taskLists body (allTasks, token) s =
    (Returned (allTasks ++ concat (map page_items pages),
               match last_token pages with Some t => Some t | None => token end),
     mkSt w1 (calls s ++ fetched taskLists) (console s)).
Proof.
  induction taskLists as [|taskList rest IH]; intros s allTasks token pages w1.
  - simpl. intros [= Hp <-]. destruct pages; [|done]. simpl.
    unfold ret. destruct s; simpl. by rewrite !app_nil_r.
  - simpl. unfold bind at 1. unfold tasks_tasks_list, await, bind, ret.
    destruct (remote_tasks_list tasks (list_id taskList) 10 pageToken (world s))
      as [o w'] eqn:Ef.
    destruct (answers fetch rest w') as [os w''] eqn:Eans.
    destruct pages as [|p pages]; [done|]. simpl.
    intros [= -> Hos ->].
    rewrite (IH _ _ _ pages w1); simpl; [| rewrite Eans; congruence].
    rewrite <- !app_assoc. simpl. f_equal. f_equal.
    unfold last_token. simpl. unfold Js.or_undefined at 2.
    destruct (Js.truthy (tasks_nextPageToken p)) eqn:Et.
    + destruct (tasks_nextPageToken p) as [t|]; [|done]. simpl.
      rewrite last_cons. unfold page_items.
      by destruct (last _).
    + unfold page_items. by destruct (last _).
Qed.

Lemma list_loop_abort (pre : list Schema_TaskList) :
  forall (s : St W) allTasks token pages taskList post w1 e w2,
    answers fetch pre (world s) = (map Returned pages, w1) ->
    fetch taskList w1 = (Thrown e, w2) ->
    for_of (pre ++ taskList :: post) body (allTasks, token) s =
    (Thrown e,
     mkSt w2 (calls s ++ fetched (pre ++ [taskList])) (console s)).
Proof.
  intros s allTasks token pages taskList post w1 e w2 Hpre Hf.
  rewrite for_of_app, (list_loop_pages pre s allTasks token pages w1 Hpre).
  simpl. unfold bind at 1. unfold tasks_tasks_list, await, bind, ret. simpl.
  rewrite Hf. by rewrite map_app, <- app_assoc.
Qed.

End ListFacts.

(** C8. [TaskResources.list] asks every collection for one page of at most
    10 items, hands the caller's cursor (when it is a non-empty string) to
    every one of these calls as [pageToken], and, when they all answer,
    returns the items of the pages concatenated in collection order together
    with the last truthy [nextPageToken] of the pass, or null. *)
Theorem list_pages_and_cursor {W : Type} (tasks : Remote W)
        (cursor : option string) (s : St W)
        (ols : option (list Schema_TaskList)) (w0 : W)
        (pages : list Schema_Tasks) (w1 : W) :
  remote_tasklists_list tasks MAX_TASK_RESULTS (world s) = (Returned ols, w0) ->
  answers (fun taskList =>
             remote_tasks_list tasks (list_id taskList) 10 (Js.or_undefined cursor))
          (default [] ols) w0
  = (map Returned pages, w1) ->
  TaskResources.list tasks cursor s =
  (Returned (concat (map page_items pages), last_token pages),
   mkSt w1
        (calls s ++ TasklistsList MAX_TASK_RESULTS
               :: map (fun taskList =>
                         TasksList (list_id taskList) 10 (Js.or_undefined cursor))
                      (default [] ols))
        (console s)).
Proof.
  intros Hlists Hpages.
  unfold TaskResources.list, bind at 1, tasks_tasklists_list, await.
  rewrite Hlists.
  rewrite (list_loop_pages tasks (Js.or_undefined cursor) _ _ [] None pages w1);
    [| done].
  simpl. rewrite <- app_assoc. simpl. by destruct (last_token pages).
Qed.

Lemma list_pages_and_cursor_witness :
  TaskResources.list InMemory.remote None (InMemory.start Scenario.crowded)
  = (Returned
       (map (fun n => InMemory.item ("a" +:+ pretty n) "chore" None) (seq 0 10)
        ++ [InMemory.item "b0" "errand" None],
        Some "after-10"),
     mkSt Scenario.crowded
          [TasklistsList 100; TasksList (Some "A") 10 None;
           TasksList (Some "B") 10 None] []).
Proof.
  rewrite (list_pages_and_cursor InMemory.remote None
             (InMemory.start Scenario.crowded)
             (Some (InMemory.w_lists Scenario.crowded)) Scenario.crowded
             [mkTasks (Some (map (fun n => InMemory.item ("a" +:+ pretty n)
                                                         "chore" None)
                                 (seq 0 10)))
                      (Some "after-10");
              mkTasks (Some [InMemory.item "b0" "errand" None]) None]
             Scenario.crowded);
    reflexivity.
Defined.

Lemma or_undefined_Some (o : option string) (i : string) :
  Js.or_undefined o = Some i -> o = Some i /\ Js.truthy o = true.
Proof.
  unfold Js.or_undefined. destruct (Js.truthy o) eqn:E; [|done].
  by intros ->.
Qed.

Lemma or_undefined_None (o : option string) :
  Js.or_undefined o = None -> Js.truthy o = false.
Proof.
  unfold Js.or_undefined. destruct (Js.truthy o) eqn:E; [|done].
  intros ->. done.
Qed.

Section EnumeratorFacts.

Context {W : Type} (tasks : Remote W).

Local Abbreviation ask :=
  (fun taskList =>
     remote_tasks_list tasks (list_id taskList) MAX_TASK_RESULTS None).
Local Abbreviation asked :=
  (map (fun taskList => TasksList (list_id taskList) MAX_TASK_RESULTS None)).

Lemma _list_loop (taskLists : list Schema_TaskList) :
  forall (s : St W) allTasks os w1,
    answers ask (with_id taskLists) (world s) = (os, w1) ->
    for_of taskLists (TaskActions._list_step tasks) allTasks s =
    (Returned (allTasks ++ concat (zip_with gathered (with_id taskLists) os)),
     mkSt w1 (calls s ++ asked (with_id taskLists))
          (console s ++ concat (zip_with complaint (with_id taskLists) os))).
Proof.
  induction taskLists as [|taskList rest IH]; intros s allTasks os w1.
  - simpl. intros [= <- <-]. unfold ret. destruct s; simpl.
    by rewrite !app_nil_r.
  - simpl. unfold bind at 1. unfold TaskActions._list_step.
    destruct (Js.or_undefined (list_id taskList)) as [i|] eqn:Ei.
    + destruct (or_undefined_Some _ _ Ei) as [Hid Ht]. rewrite Ht. simpl.
      rewrite Hid.
      unfold try_catch, bind, tasks_tasks_list, await, ret, console_log; simpl.
      destruct (remote_tasks_list tasks (Some i) MAX_TASK_RESULTS None (world s))
        as [[page|e] w'] eqn:Ea;
        destruct (answers ask (with_id rest) w') as [os' w''] eqn:Eans;
        intros [= <- <-]; rewrite (IH _ _ os' w''); simpl; try done.
      * rewrite <- !app_assoc, Ei. done.
      * rewrite <- !app_assoc, Hid. done.
    + rewrite (or_undefined_None _ Ei). unfold ret. apply IH.
Qed.

(** The enumerator returns as soon as the collections could be listed. *)
Lemma _list_returns (s : St W) ols w0 :
  remote_tasklists_list tasks MAX_TASK_RESULTS (world s) = (Returned ols, w0) ->
  forall os w1,
    answers ask (with_id (default [] ols)) w0 = (os, w1) ->
    TaskActions._list tasks s =
    (Returned (concat (zip_with gathered (with_id (default [] ols)) os)),
     mkSt w1
          (calls s ++ TasklistsList MAX_TASK_RESULTS
                 :: asked (with_id (default [] ols)))
          (console s ++ concat (zip_with complaint (with_id (default [] ols)) os))).
Proof.
  intros Hlists os w1 Hans.
  unfold TaskActions._list, bind at 1, tasks_tasklists_list, await.
  rewrite Hlists. rewrite (_list_loop _ _ [] os w1); [| done].
  simpl. by rewrite <- app_assoc.
Qed.

End EnumeratorFacts.

(** C9. In [TaskResources.list] the first collection whose item fetch fails
    ends the listing: the error is thrown, no later collection is asked and
    no items are returned. [TaskActions._list], in the same situation, logs
    the failure, keeps the items of the collections that answered and
    returns them. *)
Theorem list_aborts_but__list_skips {W : Type} (tasks : Remote W) :
  (forall (cursor : option string) (s : St W) ols w0 pre taskList post pages
          w1 e w2,
      remote_tasklists_list tasks MAX_TASK_RESULTS (world s)
      = (Returned ols, w0) ->
      default [] ols = pre ++ taskList :: post ->
      answers (fun taskList =>
                 remote_tasks_list tasks (list_id taskList) 10
                                   (Js.or_undefined cursor))
              pre w0
      = (map Returned pages, w1) ->
      remote_tasks_list tasks (list_id taskList) 10 (Js.or_undefined cursor) w1
      = (Thrown e, w2) ->
      TaskResources.list tasks cursor s =
      (Thrown e,
       mkSt w2
            (calls s ++ TasklistsList MAX_TASK_RESULTS
                   :: map (fun taskList =>
                             TasksList (list_id taskList) 10
                                       (Js.or_undefined cursor))
                          (pre ++ [taskList]))
            (console s)))
  /\ (forall (s : St W) ols w0 os w1,
         remote_tasklists_list tasks MAX_TASK_RESULTS (world s)
         = (Returned ols, w0) ->
         answers (fun taskList =>
                    remote_tasks_list tasks (list_id taskList)
                                      MAX_TASK_RESULTS None)
                 (with_id (default [] ols)) w0
         = (os, w1) ->
         TaskActions._list tasks s =
         (Returned (concat (zip_with gathered (with_id (default [] ols)) os)),
          mkSt w1
               (calls s ++ TasklistsList MAX_TASK_RESULTS
                      :: map (fun taskList =>
                                TasksList (list_id taskList) MAX_TASK_RESULTS None)
                             (with_id (default [] ols)))
               (console s
                ++ concat (zip_with complaint (with_id (default [] ols)) os)))).
Proof.
  split.
  - intros cursor s ols w0 pre taskList post pages w1 e w2 Hlists Hsplit Hpre He.
    unfold TaskResources.list, bind at 1, tasks_tasklists_list, await.
    rewrite Hlists, Hsplit.
    rewrite (list_loop_abort tasks (Js.or_undefined cursor) pre _ [] None pages
                             taskList post w1 e w2); [| done | done].
    simpl. by rewrite <- app_assoc.
  - intros s ols w0 os w1 Hlists Hans. by apply (_list_returns tasks s ols w0).
Qed.

Lemma list_aborts_but__list_skips_witness :
  TaskResources.list InMemory.remote None (InMemory.start Scenario.A_down)
  = (Thrown "Backend Error",
     mkSt Scenario.A_down [TasklistsList 100; TasksList (Some "A") 10 None] [])
  /\ TaskActions._list InMemory.remote (InMemory.start Scenario.A_down)
     = (Returned [withListInfo (InMemory.item "b0" "errand" None)
                               (Some "B") (Some "Work")],
        mkSt Scenario.A_down
             [TasklistsList 100; TasksList (Some "A") 100 None;
              TasksList (Some "B") 100 None]
             [ConsoleError "Error fetching tasks for list A:"
                           (Some "Backend Error")]).
Proof.
  destruct (list_aborts_but__list_skips InMemory.remote) as [Habort Hskip].
  split.
  - apply (Habort None (InMemory.start Scenario.A_down)
                  (Some (InMemory.w_lists Scenario.A_down)) Scenario.A_down
                  [] (InMemory.collection "A" "Inbox")
                  [InMemory.collection "B" "Work"] [] Scenario.A_down
                  "Backend Error" Scenario.A_down); reflexivity.
  - apply (Hskip (InMemory.start Scenario.A_down)
                 (Some (InMemory.w_lists Scenario.A_down)) Scenario.A_down
                 [Thrown "Backend Error";
                  Returned (mkTasks (Some [InMemory.item "b0" "errand" None]) None)]
                 Scenario.A_down); reflexivity.
Defined.

(** ** Batch operations: every element is filed exactly once *)

Lemma append_assoc (a b c : string) : (a +:+ b) +:+ c = a +:+ (b +:+ c).
Proof.
  induction a as [|x a IH]; [reflexivity|].
  change (String x ((a +:+ b) +:+ c) = String x (a +:+ b +:+ c)).
  by rewrite IH.
Qed.

Lemma startsWith_append (a b : string) : Js.startsWith (a +:+ b) a = true.
Proof.
  unfold Js.startsWith. induction a as [|x a IH].
  - by destruct b.
  - change (String.prefix (String x a) (String x (a +:+ b)) = true).
    simpl. destruct (ascii_dec x x); [done | congruence].
Qed.

Lemma batch_text_opening {R D} (heading : string) (line : R -> string)
      (what : string) (results : list R) (errors : list (ErrorEntry D)) :
  Js.startsWith (TaskActions.batch_text heading line what results errors)
                (batch_summary heading (length results) (length errors)) = true.
Proof.
  unfold TaskActions.batch_text, batch_summary.
  set (tail := Js.nl +:+ _).
  replace (heading +:+ ": " +:+ Js.show_nat (length results) +:+ " succeeded, "
           +:+ Js.show_nat (length errors) +:+ " failed" +:+ tail)
    with ((heading +:+ ": " +:+ Js.show_nat (length results) +:+ " succeeded, "
           +:+ Js.show_nat (length errors) +:+ " failed") +:+ tail).
  - apply startsWith_append.
  - by rewrite !append_assoc.
Qed.

Lemma batchMoveTasks_text_opening (results : list MoveResult)
      (errors : list (ErrorEntry MoveData)) (warnings : list MoveWarning) :
  Js.startsWith (TaskActions.batchMoveTasks_text results errors warnings)
                (batch_summary "Batch task move" (length results) (length errors))
  = true.
Proof.
  unfold TaskActions.batchMoveTasks_text, batch_summary.
  set (more := if (0 <? length warnings)%nat then _ else _).
  set (tail := Js.nl +:+ _).
  replace (("Batch task move: " +:+ Js.show_nat (length results)
            +:+ " succeeded, " +:+ Js.show_nat (length errors) +:+ " failed"
            +:+ more) +:+ tail)
    with (("Batch task move" +:+ ": " +:+ Js.show_nat (length results)
           +:+ " succeeded, " +:+ Js.show_nat (length errors) +:+ " failed")
          +:+ (more +:+ tail)).
  - apply startsWith_append.
  - by rewrite !append_assoc.
Qed.

(** Unfold the monad and split on the answer of the next remote call. *)
Ltac unfold_js :=
  unfold tasks_tasklists_list, tasks_tasklists_insert, tasks_tasklists_update,
    tasks_tasklists_delete, tasks_tasks_list, tasks_tasks_get,
    tasks_tasks_insert, tasks_tasks_patch, tasks_tasks_delete;
  unfold bind, try_catch, ret, throw, await, console_log; simpl.

Ltac next_answer :=
  match goal with
  | |- context [let (_, _) := ?call in _] =>
      lazymatch call with
      | context [let (_, _) := _ in _] => fail
      | _ => let E := fresh "Ecall" in
             destruct call as [[?|?] ?] eqn:E; simpl
      end
  end.

Ltac js_step :=
  first [ match goal with
          | |- context [Js.or_undefined ?o] =>
              destruct (Js.or_undefined o) eqn:?; simpl
          end
        | next_answer ].

Section BatchFacts.

Context {W : Type} (tasks : Remote W).

Lemma batchCreateTasks_step_files :
  files_each2 (TaskActions.batchCreateTasks_step tasks).
Proof.
  intros x [results errors] s.
  unfold files_one2, TaskActions.batchCreateTasks_step.
  destruct (Js.or_undefined (td_title x)); unfold_js; repeat next_answer;
    eexists _, _; (split; [reflexivity|]); simpl; eauto.
Qed.

Lemma batchUpdateTasks_step_files :
  files_each2 (TaskActions.batchUpdateTasks_step tasks).
Proof.
  intros x [results errors] s.
  unfold files_one2, TaskActions.batchUpdateTasks_step.
  destruct (Js.or_undefined (td_taskListId x));
    destruct (Js.or_undefined (td_taskId x)); unfold_js; repeat next_answer;
    eexists _, _; (split; [reflexivity|]); simpl; eauto.
Qed.

Lemma batchDeleteTasks_step_files :
  files_each2 (TaskActions.batchDeleteTasks_step tasks).
Proof.
  intros x [results errors] s.
  unfold files_one2, TaskActions.batchDeleteTasks_step.
  destruct (Js.or_undefined (td_taskListId x));
    destruct (Js.or_undefined (td_taskId x)); unfold_js; repeat next_answer;
    eexists _, _; (split; [reflexivity|]); simpl; eauto.
Qed.

Lemma batchCreateTaskLists_step_files :
  files_each2 (TaskActions.batchCreateTaskLists_step tasks).
Proof.
  intros x [results errors] s.
  unfold files_one2, TaskActions.batchCreateTaskLists_step.
  destruct (Js.or_undefined (ld_title x)); unfold_js; repeat next_answer;
    eexists _, _; (split; [reflexivity|]); simpl; eauto.
Qed.

Lemma batchUpdateTaskLists_step_files :
  files_each2 (TaskActions.batchUpdateTaskLists_step tasks).
Proof.
  intros x [results errors] s.
  unfold files_one2, TaskActions.batchUpdateTaskLists_step.
  destruct (Js.or_undefined (ld_listId x));
    destruct (Js.or_undefined (ld_title x)); unfold_js; repeat next_answer;
    eexists _, _; (split; [reflexivity|]); simpl; eauto.
Qed.

Lemma batchDeleteTaskLists_step_files :
  files_each2 (TaskActions.batchDeleteTaskLists_step tasks).
Proof.
  intros x [results errors] s.
  unfold files_one2, TaskActions.batchDeleteTaskLists_step.
  destruct (Js.or_undefined (ld_listId x)); unfold_js; repeat next_answer;
    eexists _, _; (split; [reflexivity|]); simpl; eauto.
Qed.

Lemma batchCreateSubtasks_step_files :
  files_each2 (TaskActions.batchCreateSubtasks_step tasks).
Proof.
  intros x [results errors] s.
  unfold files_one2, TaskActions.batchCreateSubtasks_step.
  destruct (Js.or_undefined (sd_parentTaskId x));
    destruct (Js.or_undefined (sd_title x)); unfold_js; repeat next_answer;
    eexists _, _; (split; [reflexivity|]); simpl; eauto.
Qed.

Lemma batchMoveTasks_step_files :
  files_each3 (TaskActions.batchMoveTasks_step tasks).
Proof.
  intros x [[results errors] warnings] s.
  unfold files_one3, TaskActions.batchMoveTasks_step,
    TaskActions.fetch_original, TaskActions.create_copy.
  destruct (Js.or_undefined (md_sourceTaskListId x));
    destruct (Js.or_undefined (md_targetTaskListId x));
    destruct (Js.or_undefined (md_taskId x)); unfold_js;
    repeat first
           [ next_answer
           | match goal with
             | |- context [if ?b then _ else _] => destruct b eqn:?; simpl
             | |- context [match Js.or_undefined ?o with _ => _ end] =>
                 destruct (Js.or_undefined o) eqn:?; simpl
             end ];
    eexists _, _; (split; [reflexivity|]); simpl; eauto.
Qed.

Lemma files_each2_counts {X R E}
      (step : X -> list R * list E -> M W (list R * list E)) :
  files_each2 step ->
  forall x acc s, exists acc' s',
      step x acc s = (Returned acc', s') /\ filed2 acc' = S (filed2 acc).
Proof.
  intros Hstep x acc s. destruct (Hstep x acc s) as (acc' & s' & Eq & H).
  exists acc', s'. split; [done|]. unfold filed2.
  destruct H as [[r ->]|[e ->]]; simpl; rewrite length_app; simpl; lia.
Qed.

Lemma files_each3_counts {X R E V}
      (step : X -> list R * list E * list V -> M W (list R * list E * list V)) :
  files_each3 step ->
  forall x acc s, exists acc' s',
      step x acc s = (Returned acc', s') /\ filed3 acc' = S (filed3 acc).
Proof.
  intros Hstep x acc s. destruct (Hstep x acc s) as (acc' & s' & Eq & H).
  exists acc', s'. split; [done|]. unfold filed3.
  destruct H as [[r ->]|[[e ->]|[v ->]]]; simpl; rewrite length_app; simpl; lia.
Qed.

Lemma two_partitions {X R} (step : X -> list R * list (ErrorEntry X) -> M W _)
      (op : M W CallToolResult) (heading : string) (line : R -> string)
      (what : string) (batch : list X) (s : St W) :
  files_each2 step ->
  op s = bind (for_of batch step ([], []))
              (fun acc =>
                 ret (mkResult
                        (TaskActions.batch_text heading line what (fst acc)
                                                (snd acc))
                        false)) s ->
  accounts_for (for_of batch step ([], [])) op heading (length batch) s.
Proof.
  intros Hstep Hop.
  destruct (for_of_counts filed2 step (files_each2_counts step Hstep) batch
                          ([], []) s)
    as ([results errors] & s' & Erun & Hn).
  exists results, errors, s'. eexists. split; [done|].
  split; [exact Hn|]. rewrite Hop. unfold bind. rewrite Erun. unfold ret.
  split; [reflexivity|]. split; [done|]. apply batch_text_opening.
Qed.

End BatchFacts.

(** C1. Whatever the remote answers, each of the eight batch operations,
    given a non-empty array, returns, and files every element exactly once
    (each round of its loop appends one entry to one partition): the sizes of [results] and [errors] (and of [warnings] for
    [batchMoveTasks]) add up to the number of elements, and the report
    opens with the sizes of [results] and [errors]. *)
Theorem batch_accounts_for_every_element {W : Type} (tasks : Remote W) :
  (files_each2 (TaskActions.batchCreateTasks_step tasks)
   /\ files_each2 (TaskActions.batchUpdateTasks_step tasks)
   /\ files_each2 (TaskActions.batchDeleteTasks_step tasks)
   /\ files_each3 (TaskActions.batchMoveTasks_step tasks)
   /\ files_each2 (TaskActions.batchCreateTaskLists_step tasks)
   /\ files_each2 (TaskActions.batchUpdateTaskLists_step tasks)
   /\ files_each2 (TaskActions.batchDeleteTaskLists_step tasks)
   /\ files_each2 (TaskActions.batchCreateSubtasks_step tasks))
  /\ (forall x rest s,
      accounts_for (for_of (x :: rest) (TaskActions.batchCreateTasks_step tasks)
                           ([], []))
                   (TaskActions.batchCreateTasks tasks (ArgArray (x :: rest)))
                   "Batch task creation" (length (x :: rest)) s)
  /\ (forall x rest s,
      accounts_for (for_of (x :: rest) (TaskActions.batchUpdateTasks_step tasks)
                           ([], []))
                   (TaskActions.batchUpdateTasks tasks (ArgArray (x :: rest)))
                   "Batch task update" (length (x :: rest)) s)
  /\ (forall x rest s,
      accounts_for (for_of (x :: rest) (TaskActions.batchDeleteTasks_step tasks)
                           ([], []))
                   (TaskActions.batchDeleteTasks tasks (ArgArray (x :: rest)))
                   "Batch task deletion" (length (x :: rest)) s)
  /\ (forall x rest s,
      accounts_for3 (TaskActions.batchMoveTasks_run tasks (x :: rest))
                    (TaskActions.batchMoveTasks tasks (ArgArray (x :: rest)))
                    "Batch task move" (length (x :: rest)) s)
  /\ (forall x rest s,
      accounts_for (for_of (x :: rest)
                           (TaskActions.batchCreateTaskLists_step tasks) ([], []))
                   (TaskActions.batchCreateTaskLists tasks (ArgArray (x :: rest)))
                   "Batch task list creation" (length (x :: rest)) s)
  /\ (forall x rest s,
      accounts_for (for_of (x :: rest)
                           (TaskActions.batchUpdateTaskLists_step tasks) ([], []))
                   (TaskActions.batchUpdateTaskLists tasks (ArgArray (x :: rest)))
                   "Batch task list update" (length (x :: rest)) s)
  /\ (forall x rest s,
      accounts_for (for_of (x :: rest)
                           (TaskActions.batchDeleteTaskLists_step tasks) ([], []))
                   (TaskActions.batchDeleteTaskLists tasks (ArgArray (x :: rest)))
                   "Batch task list deletion" (length (x :: rest)) s)
  /\ (forall x rest s,
      accounts_for (for_of (x :: rest)
                           (TaskActions.batchCreateSubtasks_step tasks) ([], []))
                   (TaskActions.batchCreateSubtasks tasks (ArgArray (x :: rest)))
                   "Batch subtask creation" (length (x :: rest)) s).
Proof.
  split.
  { repeat split.
    - apply batchCreateTasks_step_files.
    - apply batchUpdateTasks_step_files.
    - apply batchDeleteTasks_step_files.
    - apply batchMoveTasks_step_files.
    - apply batchCreateTaskLists_step_files.
    - apply batchUpdateTaskLists_step_files.
    - apply batchDeleteTaskLists_step_files.
    - apply batchCreateSubtasks_step_files. }
  repeat split; intros x rest s.
  - eapply two_partitions; [apply batchCreateTasks_step_files | reflexivity].
  - eapply two_partitions; [apply batchUpdateTasks_step_files | reflexivity].
  - eapply two_partitions; [apply batchDeleteTasks_step_files | reflexivity].
  - destruct (for_of_counts filed3 (TaskActions.batchMoveTasks_step tasks)
                            (files_each3_counts _ (batchMoveTasks_step_files tasks))
                            (x :: rest)
                            ([], [], []) s)
      as ([[results errors] warnings] & s' & Erun & Hn).
    exists results, errors, warnings, s'. eexists.
    split; [exact Erun|]. split; [exact Hn|].
    unfold TaskActions.batchMoveTasks, nonempty_array, bind.
    unfold TaskActions.batchMoveTasks_run. rewrite Erun. unfold ret.
    split; [reflexivity|]. split; [done|]. apply batchMoveTasks_text_opening.
  - eapply two_partitions; [apply batchCreateTaskLists_step_files | reflexivity].
  - eapply two_partitions; [apply batchUpdateTaskLists_step_files | reflexivity].
  - eapply two_partitions; [apply batchDeleteTaskLists_step_files | reflexivity].
  - eapply two_partitions; [apply batchCreateSubtasks_step_files | reflexivity].
Qed.

(** ** Single-item transfer *)

Lemma or_undefined_truthy (o : option string) :
  Js.truthy o = true -> Js.or_undefined o = o.
Proof. unfold Js.or_undefined. by intros ->. Qed.

Lemma or_else_truthy (o : option string) (d : string) :
  Js.truthy o = true -> Some (Js.or_else o d) = o.
Proof.
  destruct o as [x|]; simpl; [|done]. by destruct (String.eqb x "").
Qed.

Lemma or_else_empty (o : option string) : Js.or_else o "" = default "" o.
Proof.
  destruct o as [x|]; simpl; [|done].
  destruct (String.eqb_spec x ""); congruence.
Qed.

(** C6. The copy a transfer inserts (by [moveTask] and by a round of
    [batchMoveTasks] alike, right after fetching the original) keeps the
    title, carries the notes or the empty string, the due date or none, the
    status or [needsAction] (absent meaning undefined or empty), and has no
    parent, neither in its body nor as a parameter of the insert. *)
Theorem transfer_copy_policy {W : Type} (tasks : Remote W)
        (src tgt tid : string) (s : St W) (original : Schema_Task) (w1 : W) :
  Js.truthy (Some src) = true ->
  Js.truthy (Some tgt) = true ->
  Js.truthy (Some tid) = true ->
  remote_tasks_get tasks src tid (world s) = (Returned original, w1) ->
  Js.truthy (task_title original) = true ->
  exists copy,
    (task_title copy = task_title original
     /\ task_notes copy = Some (default "" (task_notes original))
     /\ task_due copy = (if Js.truthy (task_due original)
                         then task_due original else None)
     /\ task_status copy = (if Js.truthy (task_status original)
                            then task_status original else Some "needsAction")
     /\ task_parent copy = None)
    /\ (exists later,
           calls (snd (TaskActions.moveTask tasks (Some src) (Some tgt)
                                            (Some tid) s))
           = calls s ++ TasksGet src tid :: TasksInsert tgt copy None :: later
           /\ Forall (fun c => is_insert c = false) later)
    /\ (forall acc, exists later,
           calls (snd (TaskActions.batchMoveTasks_step tasks
                         (mkMoveData (Some src) (Some tgt) (Some tid)) acc s))
           = calls s ++ TasksGet src tid :: TasksInsert tgt copy None :: later
           /\ Forall (fun c => is_insert c = false) later).
Proof.
  intros Hsrc Htgt Htid Hget Htitle.
  exists (TaskActions.newTask_of original). split; [|split].
  - unfold TaskActions.newTask_of; simpl. repeat split.
    + by apply or_else_truthy.
    + by rewrite or_else_empty.
    + destruct (Js.truthy (task_status original)) eqn:Es.
      * by apply or_else_truthy.
      * destruct (task_status original) as [x|]; simpl in *; [|done].
        by destruct (String.eqb x "").
  - unfold TaskActions.moveTask.
    rewrite !or_undefined_truthy by done.
    unfold TaskActions.fetch_original, TaskActions.create_copy. unfold_js.
    rewrite Hget; simpl. rewrite Htitle; simpl.
    repeat js_step;
      rewrite <- ?app_assoc; simpl; eexists; (split; [reflexivity|]);
      repeat constructor.
  - intros [[results errors] warnings].
    unfold TaskActions.batchMoveTasks_step. simpl.
    rewrite !or_undefined_truthy by done.
    unfold TaskActions.fetch_original, TaskActions.create_copy. unfold_js.
    rewrite Hget; simpl. rewrite Htitle; simpl.
    repeat js_step;
      rewrite <- ?app_assoc; simpl; eexists; (split; [reflexivity|]);
      repeat constructor.
Qed.

Lemma transfer_copy_policy_witness :
  exists copy later,
    task_title copy = Some "Buy milk"
    /\ task_parent copy = None
    /\ calls (snd (TaskActions.moveTask InMemory.remote (Some "A") (Some "B")
                     (Some "t1") (InMemory.start Scenario.errand)))
       = [TasksGet "A" "t1"; TasksInsert "B" copy None] ++ later.
Proof.
  destruct (transfer_copy_policy InMemory.remote "A" "B" "t1"
              (InMemory.start Scenario.errand)
              (InMemory.item "t1" "Buy milk" None) Scenario.errand
              eq_refl eq_refl eq_refl eq_refl eq_refl)
    as (copy & (Ht & _ & _ & _ & Hp) & (later & Hc & _) & _).
  exists copy, later. split; [exact Ht|]. split; [exact Hp|]. exact Hc.
Defined.

Lemma includes_unfold (s t : string) :
  Js.includes s t
  = Js.startsWith s t
    || match s with
       | EmptyString => false
       | String _ r => Js.includes r t
       end.
Proof. by destruct s. Qed.

Lemma includes_self (t b : string) : Js.includes (t +:+ b) t = true.
Proof. by rewrite includes_unfold, startsWith_append. Qed.

Lemma includes_later (c : ascii) (x t : string) :
  Js.includes x t = true -> Js.includes (String c x) t = true.
Proof. rewrite (includes_unfold (String c x)). intros ->. apply orb_true_r. Qed.

Lemma includes_append (a x t : string) :
  Js.includes x t = true -> Js.includes (a +:+ x) t = true.
Proof.
  intros H. induction a as [|c a IH]; [done|].
  change (Js.includes (String c (a +:+ x)) t = true).
  by apply includes_later.
Qed.

Lemma prefix_split (t s : string) :
  String.prefix t s = true -> exists b, s = t +:+ b.
Proof.
  revert s. induction t as [|x t IH]; intros s H.
  - by exists s.
  - destruct s as [|y s]; [done|]. cbn [String.prefix] in H.
    destruct (ascii_dec x y) as [->|]; [|done].
    destruct (IH s H) as [b ->]. by exists b.
Qed.

Lemma includes_split (s t : string) :
  Js.includes s t = true -> exists a b, s = a +:+ t +:+ b.
Proof.
  induction s as [|c s IH]; rewrite includes_unfold; unfold Js.startsWith;
    intros H; apply orb_true_iff in H as [H|H]; try done.
  - apply prefix_split in H as [b ->]. by exists "", b.
  - apply prefix_split in H as [b ->]. by exists "", b.
  - destruct (IH H) as (a & b & ->). by exists (String c a), b.
Qed.

Lemma includes_middle (a t b : string) : Js.includes (a +:+ t +:+ b) t = true.
Proof. apply includes_append, includes_self. Qed.

Lemma includes_trans (s t u : string) :
  Js.includes s t = true -> Js.includes t u = true -> Js.includes s u = true.
Proof.
  intros Hs Ht.
  apply includes_split in Hs as (a & b & ->).
  apply includes_split in Ht as (a' & b' & ->).
  replace (a +:+ (a' +:+ u +:+ b') +:+ b) with ((a +:+ a') +:+ u +:+ (b' +:+ b))
    by (by rewrite !append_assoc).
  apply includes_middle.
Qed.

Lemma includes_append_r (x b t : string) :
  Js.includes x t = true -> Js.includes (x +:+ b) t = true.
Proof.
  intros H. apply includes_split in H as (a & c & ->).
  rewrite !append_assoc. apply includes_middle.
Qed.

Lemma includes_join (sep x : string) (xs : list string) :
  In x xs -> Js.includes (Js.join sep xs) x = true.
Proof.
  unfold Js.join. induction xs as [|y [|z rest] IH]; intros Hin; [done| |].
  - destruct Hin as [->|[]]. cbn [String.concat].
    replace x with (x +:+ "") at 1; [apply includes_self|].
    clear. induction x as [|c x IH]; [done|].
    change (String c (x +:+ "") = String c x). by rewrite IH.
  - change (String.concat sep (y :: z :: rest))
      with (y +:+ sep +:+ String.concat sep (z :: rest)).
    destruct Hin as [->|Hin]; [apply includes_self|].
    by apply includes_append, includes_append, IH.
Qed.

(** A batch loop only appends to what was filed before it. *)
Lemma files_each3_extends {W X R E V}
      (step : X -> list R * list E * list V -> M W (list R * list E * list V)) :
  files_each3 step ->
  forall (xs : list X) (r : list R) (e : list E) (v : list V) (s : St W),
  exists r' e' v' s',
    for_of xs step (r, e, v) s = (Returned (r ++ r', e ++ e', v ++ v'), s').
Proof.
  intros Hstep xs. induction xs as [|x xs IH]; intros r e v s.
  - exists [], [], [], s. by rewrite !app_nil_r.
  - cbn [for_of]. unfold bind.
    destruct (Hstep x (r, e, v) s) as (acc1 & s1 & -> & Hone).
    destruct Hone as [[r1 ->]|[[e1 ->]|[v1 ->]]]; cbn [fst snd].
    + destruct (IH (r ++ [r1]) e v s1) as (r' & e' & v' & s' & ->).
      exists (r1 :: r'), e', v', s'. by rewrite <- app_assoc.
    + destruct (IH r (e ++ [e1]) v s1) as (r' & e' & v' & s' & ->).
      exists r', (e1 :: e'), v', s'. by rewrite <- app_assoc.
    + destruct (IH r e (v ++ [v1]) s1) as (r' & e' & v' & s' & ->).
      exists r', e', (v1 :: v'), s'. by rewrite <- app_assoc.
Qed.

(** The report of [batchMoveTasks] has the line of every entry of
    [warnings], whatever the other partitions hold. *)
Lemma batchMoveTasks_text_partial (results : list MoveResult)
      (errors : list (ErrorEntry MoveData)) (warnings : list MoveWarning)
      (w : MoveWarning) :
  In w warnings ->
  Js.includes (TaskActions.batchMoveTasks_text results errors warnings)
              (partial_line (mw_title w)
                            (Js.show (md_targetTaskListId (mw_moveData w)))
                            (Js.show (md_sourceTaskListId (mw_moveData w))))
  = true.
Proof.
  intros Hin. unfold TaskActions.batchMoveTasks_text.
  replace (0 <? length warnings)%nat with true
    by (by destruct warnings).
  do 6 apply includes_append. apply includes_append_r.
  do 4 apply includes_append.
  apply includes_join.
  apply (in_map (fun w0 => partial_line (mw_title w0)
                             (Js.show (md_targetTaskListId (mw_moveData w0)))
                             (Js.show (md_sourceTaskListId (mw_moveData w0))))),
    Hin.
Qed.

(** C2, as the code has it. When a transfer has fetched the original and
    inserted the copy but the delete of the original throws, the result is
    not error-flagged and its text names the title of the item and the
    destination collection (and, in [batchMoveTasks], the source
    collection); the identifier of the copy is written to the console
    warning and, in [batchMoveTasks], kept in the [warnings] entry, but is
    no part of the returned text. For [batchMoveTasks] this holds of the
    element wherever it stands in the batch: [s] is the state the rounds
    of the elements before it have left, and the report of the whole batch
    has the line of the element and, in it, the title. *)
Theorem partial_transfer_report {W : Type} (tasks : Remote W)
        (src tgt tid : string) (s : St W) (original copy : Schema_Task)
        (newTaskId e : string) (w1 w2 w3 : W) :
  Js.truthy (Some src) = true ->
  Js.truthy (Some tgt) = true ->
  Js.truthy (Some tid) = true ->
  remote_tasks_get tasks src tid (world s) = (Returned original, w1) ->
  Js.truthy (task_title original) = true ->
  remote_tasks_insert tasks tgt (TaskActions.newTask_of original) None w1
  = (Returned copy, w2) ->
  Js.or_undefined (task_id copy) = Some newTaskId ->
  remote_tasks_delete tasks src tid w2 = (Thrown e, w3) ->
  let issued :=
    calls s ++ [TasksGet src tid;
                TasksInsert tgt (TaskActions.newTask_of original) None;
                TasksDelete src tid] in
  let warning := TaskActions.not_deleted_warning newTaskId tgt e in
  let moveData := mkMoveData (Some src) (Some tgt) (Some tid) in
  let entry :=
    mkMoveWarning warning moveData tid newTaskId (task_title original) in
  TaskActions.moveTask tasks (Some src) (Some tgt) (Some tid) s
  = (Returned (mkResult (TaskActions.copied_text (task_title original) tgt)
                        false),
     mkSt w3 issued
          (console s ++ [ConsoleError ("Warning: " +:+ warning) None]))
  /\ Js.includes (TaskActions.copied_text (task_title original) tgt)
                 (Js.show (task_title original)) = true
  /\ (forall results errors warnings,
         TaskActions.batchMoveTasks_step tasks moveData
                                         (results, errors, warnings) s
         = (Returned (results, errors, warnings ++ [entry]),
            mkSt w3 issued (console s ++ [ConsoleError warning None])))
  /\ TaskActions.batchMoveTasks tasks (ArgArray [moveData]) s
     = (Returned (mkResult (TaskActions.batchMoveTasks_text [] [] [entry]) false),
        mkSt w3 issued (console s ++ [ConsoleError warning None]))
  /\ Js.includes (TaskActions.batchMoveTasks_text [] [] [entry])
                 (Js.show (task_title original)) = true
  /\ (forall (pre post : list MoveData) (s0 : St W) acc,
         for_of pre (TaskActions.batchMoveTasks_step tasks) ([], [], []) s0
         = (Returned acc, s) ->
         exists results errors warnings s',
           TaskActions.batchMoveTasks_run tasks (pre ++ moveData :: post) s0
           = (Returned (results, errors, warnings), s')
           /\ In entry warnings
           /\ TaskActions.batchMoveTasks tasks
                (ArgArray (pre ++ moveData :: post)) s0
              = (Returned (mkResult (TaskActions.batchMoveTasks_text
                                       results errors warnings) false),
                 s')
           /\ Js.includes (TaskActions.batchMoveTasks_text
                             results errors warnings)
                          (partial_line (task_title original) tgt src) = true
           /\ Js.includes (TaskActions.batchMoveTasks_text
                             results errors warnings)
                          (Js.show (task_title original)) = true).
Proof.
  intros Hsrc Htgt Htid Hget Htitle Hins Hid Hdel issued warning moveData entry.
  assert (Hstep : forall results errors warnings,
             TaskActions.batchMoveTasks_step tasks moveData
                                             (results, errors, warnings) s
             = (Returned (results, errors, warnings ++ [entry]),
                mkSt w3 issued (console s ++ [ConsoleError warning None]))).
  { intros results errors warnings.
    unfold TaskActions.batchMoveTasks_step. simpl.
    rewrite !or_undefined_truthy by done.
    unfold TaskActions.fetch_original, TaskActions.create_copy. unfold_js.
    rewrite Hget; simpl. rewrite Htitle; simpl. rewrite Hins; simpl.
    rewrite Hid; simpl. rewrite Hdel; simpl.
    unfold issued. by rewrite <- !app_assoc. }
  split; [|split; [|split; [|split; [|split]]]].
  - unfold TaskActions.moveTask.
    rewrite !or_undefined_truthy by done.
    unfold TaskActions.fetch_original, TaskActions.create_copy. unfold_js.
    rewrite Hget; simpl. rewrite Htitle; simpl. rewrite Hins; simpl.
    rewrite Hid; simpl. rewrite Hdel; simpl.
    unfold issued. by rewrite <- !app_assoc.
  - unfold TaskActions.copied_text, Js.quoted. rewrite !append_assoc.
    do 2 apply includes_append. apply includes_self.
  - exact Hstep.
  - cbv beta iota delta [TaskActions.batchMoveTasks
                           TaskActions.batchMoveTasks_run nonempty_array
                           for_of bind].
    rewrite Hstep. reflexivity.
  - unfold TaskActions.batchMoveTasks_text, TaskActions.errors_section,
      Js.quoted, Js.join, entry.
    cbn [map length Nat.ltb Nat.leb String.concat mw_title mw_moveData].
    rewrite !append_assoc.
    repeat first [ apply includes_self | apply includes_append ].
  - intros pre post s0 [[r0 e0] v0] Hpre.
    destruct (files_each3_extends _ (batchMoveTasks_step_files tasks) post
                r0 e0 (v0 ++ [entry])
                (mkSt w3 issued (console s ++ [ConsoleError warning None])))
      as (r' & e' & v' & s' & Hpost).
    assert (Hrun : TaskActions.batchMoveTasks_run tasks
                     (pre ++ moveData :: post) s0
                   = (Returned (r0 ++ r', e0 ++ e', (v0 ++ [entry]) ++ v'), s')).
    { unfold TaskActions.batchMoveTasks_run.
      rewrite for_of_app, Hpre. cbn [for_of]. unfold bind at 1.
      by rewrite Hstep. }
    assert (Hline : Js.includes
                      (TaskActions.batchMoveTasks_text
                         (r0 ++ r') (e0 ++ e') ((v0 ++ [entry]) ++ v'))
                      (partial_line (task_title original) tgt src) = true).
    { apply (batchMoveTasks_text_partial _ _ _ entry).
      apply in_or_app. left. apply in_or_app. right. by left. }
    exists (r0 ++ r'), (e0 ++ e'), ((v0 ++ [entry]) ++ v'), s'.
    split; [exact Hrun|].
    split; [apply in_or_app; left; apply in_or_app; right; by left|].
    split; [|split; [exact Hline|]].
    + unfold TaskActions.batchMoveTasks.
      replace (nonempty_array (ArgArray (pre ++ moveData :: post)))
        with (Some (pre ++ moveData :: post)) by (by destruct pre).
      unfold bind. by rewrite Hrun.
    + apply (includes_trans _ _ _ Hline).
      unfold partial_line, Js.quoted. rewrite !append_assoc.
      do 2 apply includes_append. apply includes_self.
Qed.

Lemma partial_transfer_report_witness :
  TaskActions.moveTask InMemory.remote (Some "A") (Some "B") (Some "t1")
                       (InMemory.start Scenario.errand_no_delete)
  = (Returned (mkResult (TaskActions.copied_text (Some "Buy milk") "B") false),
     mkSt Scenario.errand_copied
          [TasksGet "A" "t1";
           TasksInsert "B" (TaskActions.newTask_of
                              (InMemory.item "t1" "Buy milk" None)) None;
           TasksDelete "A" "t1"]
          [ConsoleError
             ("Warning: "
              +:+ TaskActions.not_deleted_warning "id-1" "B" "Forbidden")
             None]).
Proof.
  exact (proj1 (partial_transfer_report InMemory.remote "A" "B" "t1"
                  (InMemory.start Scenario.errand_no_delete)
                  (InMemory.item "t1" "Buy milk" None)
                  (snd (List.last (InMemory.w_items Scenario.errand_copied)
                                  ("", InMemory.item "" "" None)))
                  "id-1" "Forbidden"
                  Scenario.errand_no_delete Scenario.errand_copied
                  Scenario.errand_copied
                  eq_refl eq_refl eq_refl eq_refl eq_refl eq_refl eq_refl
                  eq_refl)).
Defined.

(** C2 as stated fails: after a transfer whose delete step throws, the
    returned text, of [moveTask] and of [batchMoveTasks] alike, names the
    title but not the identifier ([id-1]) of the item just created. *)
Lemma partial_transfer_omits_new_id :
  (exists r,
      TaskActions.moveTask InMemory.remote (Some "A") (Some "B") (Some "t1")
                           (InMemory.start Scenario.errand_no_delete)
      = (Returned r,
         mkSt Scenario.errand_copied
              [TasksGet "A" "t1";
               TasksInsert "B" (TaskActions.newTask_of
                                  (InMemory.item "t1" "Buy milk" None)) None;
               TasksDelete "A" "t1"]
              [ConsoleError
                 ("Warning: "
                  +:+ TaskActions.not_deleted_warning "id-1" "B" "Forbidden")
                 None])
      /\ isError r = false
      /\ Js.includes (text r) "Buy milk" = true
      /\ Js.includes (text r) "id-1" = false)
  /\ (exists r,
         fst (TaskActions.batchMoveTasks InMemory.remote
                (ArgArray [mkMoveData (Some "A") (Some "B") (Some "t1")])
                (InMemory.start Scenario.errand_no_delete))
         = Returned r
         /\ isError r = false
         /\ Js.includes (text r) "Buy milk" = true
         /\ Js.includes (text r) "id-1" = false).
Proof.
  split; eexists; (split; [vm_compute; reflexivity|]); vm_compute; done.
Qed.

(** ** [listSubtasks] *)

(** C7. [listSubtasks] asks for one page of at most 100 items of the
    collection, then for the parent. When the parent cannot be fetched the
    result is error-flagged. Otherwise the report lists, in page order,
    exactly the items of the page whose [parent] is the requested
    identifier: grandchildren and top-level items are left out. *)
Theorem listSubtasks_selects_children {W : Type} (tasks : Remote W)
        (taskListId : option string) (parentTaskId : string) (s : St W)
        (page : Schema_Tasks) (w1 : W) :
  Js.truthy (Some parentTaskId) = true ->
  let lid := Js.or_else taskListId "@default" in
  remote_tasks_list tasks (Some lid) MAX_TASK_RESULTS None (world s)
  = (Returned page, w1) ->
  let issued :=
    calls s ++ [TasksList (Some lid) MAX_TASK_RESULTS None;
                TasksGet lid parentTaskId] in
  (forall e w2,
      remote_tasks_get tasks lid parentTaskId w1 = (Thrown e, w2) ->
      TaskActions.listSubtasks tasks taskListId (Some parentTaskId) s
      = (Returned (mkResult ("Error listing subtasks: "
                             +:+ "Could not get parent task: " +:+ e) true),
         mkSt w2 issued
              (console s
               ++ [ConsoleError "Error listing subtasks:"
                                (Some ("Could not get parent task: " +:+ e))])))
  /\ (forall parentTask w2,
         remote_tasks_get tasks lid parentTaskId w1 = (Returned parentTask, w2) ->
         exists children,
           TaskActions.listSubtasks tasks taskListId (Some parentTaskId) s
           = (Returned
                (mkResult
                   ("Found " +:+ Js.show_nat (length children)
                    +:+ " subtasks for "
                    +:+ Js.quoted (Js.or_else (task_title parentTask)
                                              "Unknown task")
                    +:+ ":" +:+ Js.nl
                    +:+ TaskActions.formatTaskList
                          (map (fun task =>
                                  withListInfo task (Some lid) (Some ""))
                               children))
                   false),
              mkSt w2 issued (console s))
           /\ sublist children (page_items page)
           /\ (forall task,
                  In task children <->
                  In task (page_items page)
                  /\ task_parent task = Some parentTaskId)).
Proof.
  intros Hpid lid Hlist issued.
  assert (Hlid : Js.or_undefined (Some lid) = Some lid).
  { apply or_undefined_truthy. unfold lid.
    destruct taskListId as [x|]; simpl; [|done].
    destruct (String.eqb x "") eqn:E; simpl; [done | by rewrite E]. }
  split.
  - intros e w2 Hget. unfold TaskActions.listSubtasks. fold lid.
    rewrite Hlid, or_undefined_truthy by done. unfold_js.
    rewrite Hlist; simpl. rewrite Hget; simpl.
    unfold issued. by rewrite <- !app_assoc.
  - intros parentTask w2 Hget.
    exists (List.filter
              (fun task => Js.strict_eq (task_parent task) parentTaskId)
              (page_items page)).
    split; [|split].
    + unfold TaskActions.listSubtasks. fold lid.
      rewrite Hlid, or_undefined_truthy by done. unfold_js.
      rewrite Hlist; simpl. rewrite Hget; simpl.
      unfold issued, page_items. rewrite <- !app_assoc, !length_map. done.
    + induction (page_items page) as [|task rest IH]; simpl.
      * constructor.
      * destruct (Js.strict_eq (task_parent task) parentTaskId);
          by constructor.
    + intros task. rewrite filter_In. unfold Js.strict_eq.
      destruct (task_parent task) as [x|].
      * destruct (String.eqb_spec x parentTaskId) as [->|Hne];
          split; intros [Hin Hp]; try done; congruence.
      * split; intros [Hin Hp]; done.
Qed.

Lemma listSubtasks_selects_children_witness :
  exists children,
    TaskActions.listSubtasks InMemory.remote (Some "A") (Some "p")
                             (InMemory.start Scenario.family)
    = (Returned
         (mkResult
            ("Found " +:+ Js.show_nat (length children) +:+ " subtasks for "
             +:+ Js.quoted "Plan trip" +:+ ":" +:+ Js.nl
             +:+ TaskActions.formatTaskList
                   (map (fun task => withListInfo task (Some "A") (Some ""))
                        children))
            false),
       mkSt Scenario.family
            [TasksList (Some "A") 100 None; TasksGet "A" "p"] [])
    /\ sublist children (map snd (InMemory.w_items Scenario.family))
    /\ (forall task,
           In task children <->
           In task (map snd (InMemory.w_items Scenario.family))
           /\ task_parent task = Some "p").
Proof.
  exact (proj2 (listSubtasks_selects_children InMemory.remote (Some "A") "p"
                  (InMemory.start Scenario.family)
                  (mkTasks (Some (map snd (InMemory.w_items Scenario.family)))
                           None)
                  Scenario.family eq_refl eq_refl)
               (InMemory.item "p" "Plan trip" None) Scenario.family eq_refl).
Defined.

(** ** [reorganizeTasks]: planning *)

Section PlanFacts.

Context {W : Type} (tasks : Remote W)
        (listIdByTitle listIdByNormalizedTitle : JsObject)
        (task : Schema_Task) (title taskListId : string).

Local Abbreviation routes_here :=
  (routes listIdByTitle listIdByNormalizedTitle title taskListId).
Local Abbreviation warned :=
  (unresolved_warnings listIdByTitle listIdByNormalizedTitle title).
Local Abbreviation scan :=
  (TaskActions.plan_task_loop (W := W) listIdByTitle listIdByNormalizedTitle
                              task title taskListId).

Lemma plan_task_loop_cons (entry : string * string)
      (rest : list (string * string)) (s : St W) :
  scan (entry :: rest) s =
  match routes_here entry with
  | Some targetListId =>
      (Returned (Some (mkPlan task targetListId (snd entry) (fst entry))), s)
  | None =>
      scan rest (mkSt (world s) (calls s) (console s ++ warned [entry]))
  end.
Proof.
  destruct entry as [prefix targetListTitle].
  unfold routes, unresolved_warnings, unresolved, carries; simpl.
  destruct (Js.startsWith title ("[" +:+ prefix +:+ "]")); simpl.
  - destruct (TaskActions.resolve_target _ _ targetListTitle) as [i|]; simpl.
    + destruct (String.eqb taskListId i); [|done].
      rewrite app_nil_r. by destruct s.
    + by unfold bind, console_log.
  - rewrite app_nil_r. by destruct s.
Qed.

Lemma plan_task_loop_none (entries : list (string * string)) :
  forall (s : St W),
    Forall (fun entry => routes_here entry = None) entries ->
    scan entries s =
    (Returned None, mkSt (world s) (calls s) (console s ++ warned entries)).
Proof.
  induction entries as [|entry rest IH]; intros s Hnone.
  - simpl. unfold ret. rewrite app_nil_r. by destruct s.
  - inversion Hnone as [|? ? Hentry Hrest]; subst.
    rewrite plan_task_loop_cons, Hentry, IH by done. simpl.
    rewrite <- app_assoc. do 3 f_equal.
    unfold unresolved_warnings. simpl.
    by destruct (unresolved _ _ _ entry).
Qed.

Lemma plan_task_loop_first (pre : list (string * string)) :
  forall (s : St W) entry post targetListId,
    Forall (fun entry => routes_here entry = None) pre ->
    routes_here entry = Some targetListId ->
    scan (pre ++ entry :: post) s =
    (Returned (Some (mkPlan task targetListId (snd entry) (fst entry))),
     mkSt (world s) (calls s) (console s ++ warned pre)).
Proof.
  induction pre as [|entry0 pre IH]; intros s entry post targetListId Hpre Hentry.
  - simpl app. rewrite plan_task_loop_cons, Hentry.
    unfold unresolved_warnings; simpl. rewrite app_nil_r. by destruct s.
  - inversion Hpre as [|? ? Hentry0 Hrest]; subst.
    simpl app. rewrite plan_task_loop_cons, Hentry0.
    rewrite (IH _ entry post targetListId) by done. simpl.
    rewrite <- app_assoc. do 3 f_equal.
    unfold unresolved_warnings. simpl.
    by destruct (unresolved _ _ _ entry0).
Qed.

End PlanFacts.

(** C3, as the code has it. For one enumerated item, the scan of the
    mapping goes through the entries in order and stops at the first entry
    that routes the item: its prefix is carried by the title, its
    destination title resolves (exactly or normalized), and to a collection
    other than the current one. An earlier entry whose prefix is carried
    but whose destination does not resolve only leaves a console warning:
    the entries after it are still tried. So at most one plan is made per
    item, and none when no entry routes it. *)
Theorem plan_task_first_routing_entry {W : Type}
        (listIdByTitle listIdByNormalizedTitle : JsObject)
        (task : Schema_Task) (title taskListId : string)
        (entries : list (string * string)) (s : St W) :
  (forall pre entry post targetListId,
      entries = pre ++ entry :: post ->
      Forall (fun entry =>
                routes listIdByTitle listIdByNormalizedTitle title taskListId
                       entry = None) pre ->
      routes listIdByTitle listIdByNormalizedTitle title taskListId entry
      = Some targetListId ->
      TaskActions.plan_task_loop listIdByTitle listIdByNormalizedTitle
                                 task title taskListId entries s
      = (Returned (Some (mkPlan task targetListId (snd entry) (fst entry))),
         mkSt (world s) (calls s)
              (console s
               ++ unresolved_warnings listIdByTitle listIdByNormalizedTitle
                                      title pre)))
  /\ (Forall (fun entry =>
                routes listIdByTitle listIdByNormalizedTitle title taskListId
                       entry = None) entries ->
      TaskActions.plan_task_loop listIdByTitle listIdByNormalizedTitle
                                 task title taskListId entries s
      = (Returned None,
         mkSt (world s) (calls s)
              (console s
               ++ unresolved_warnings listIdByTitle listIdByNormalizedTitle
                                      title entries))).
Proof.
  split.
  - intros pre entry post targetListId -> Hpre Hentry.
    by apply plan_task_loop_first.
  - apply plan_task_loop_none.
Qed.

Lemma plan_task_first_routing_entry_witness :
  TaskActions.plan_task_loop
    [("Inbox", "A"); ("Work", "B")] [("inbox", "A"); ("work", "B")]
    (InMemory.item "t1" "[X]] foo" None) "[X]] foo" "A"
    [("X", "Missing"); ("X]", "Work")] (InMemory.start Scenario.two_prefixes)
  = (Returned (Some (mkPlan (InMemory.item "t1" "[X]] foo" None)
                            "B" "Work" "X]")),
     mkSt Scenario.two_prefixes []
          [ConsoleWarn (TaskActions.target_not_found
                          [("Inbox", "A"); ("Work", "B")] "Missing")]).
Proof.
  apply (proj1 (plan_task_first_routing_entry
                  [("Inbox", "A"); ("Work", "B")]
                  [("inbox", "A"); ("work", "B")]
                  (InMemory.item "t1" "[X]] foo" None) "[X]] foo" "A"
                  [("X", "Missing"); ("X]", "Work")]
                  (InMemory.start Scenario.two_prefixes))
               [("X", "Missing")] ("X]", "Work") [] "B").
  - reflexivity.
  - repeat constructor.
  - reflexivity.
Defined.

(** C3 as stated fails: the title carries the prefix [X] of the first
    entry, whose destination "Missing" resolves to no collection, and the
    item is nevertheless routed, by the later entry [X]], to "Work". *)
Lemma later_prefix_routes_item :
  carries "[X]] foo" ("X", "Missing") = true
  /\ TaskActions.resolve_target [("Inbox", "A"); ("Work", "B")]
                                [("inbox", "A"); ("work", "B")] "Missing"
     = None
  /\ TaskActions.build_lookups (InMemory.w_lists Scenario.two_prefixes)
     = ([("Inbox", "A"); ("Work", "B")], [("inbox", "A"); ("work", "B")])
  /\ TaskActions.reorganizeTasks InMemory.remote
       (Some [("X", "Missing"); ("X]", "Work")]) (Some true)
       (InMemory.start Scenario.two_prefixes)
     = (Returned
          (mkResult
             (Js.join Js.nl
                ["Would move 1 tasks:";
                 "- " +:+ Js.quoted "[X]] foo" +:+ " from "
                 +:+ Js.quoted "Inbox" +:+ " to " +:+ Js.quoted "Work"])
             false),
        mkSt Scenario.two_prefixes
             [TasklistsList 100; TasksList (Some "A") 100 None;
              TasksList (Some "B") 100 None; TasklistsList 100]
             [ConsoleWarn (TaskActions.target_not_found
                             [("Inbox", "A"); ("Work", "B")] "Missing")]).
Proof. repeat split; vm_compute; reflexivity. Qed.

(** ** [reorganizeTasks]: the calls it issues *)

Lemma for_of_invariant {W X Acc} (I : Acc -> St W -> Prop)
      (body : X -> Acc -> M W Acc) :
  (forall x acc s, I acc s ->
                   exists acc' s', body x acc s = (Returned acc', s') /\ I acc' s') ->
  forall xs acc s, I acc s ->
                   exists acc' s', for_of xs body acc s = (Returned acc', s')
                                   /\ I acc' s'.
Proof.
  intros Hbody xs. induction xs as [|x xs IH]; intros acc s HI; simpl.
  - by exists acc, s.
  - destruct (Hbody x acc s HI) as (acc1 & s1 & E1 & HI1).
    destruct (IH acc1 s1 HI1) as (acc2 & s2 & E2 & HI2).
    exists acc2, s2. unfold bind. by rewrite E1.
Qed.

Section ReorganizeFacts.

Context {W : Type} (tasks : Remote W).

Lemma plan_task_loop_quiet (listIdByTitle listIdByNormalizedTitle : JsObject)
      (task : Schema_Task) (title taskListId : string)
      (entries : list (string * string)) :
  forall (s : St W), exists found s',
      TaskActions.plan_task_loop listIdByTitle listIdByNormalizedTitle
                                 task title taskListId entries s
      = (Returned found, s')
      /\ world s' = world s /\ calls s' = calls s
      /\ (forall plan, found = Some plan -> plan_task plan = task).
Proof.
  induction entries as [|entry rest IH]; intros s.
  - exists None, s. simpl. by unfold ret.
  - rewrite plan_task_loop_cons.
    destruct (routes _ _ _ _ entry) as [i|].
    + eexists _, s. repeat split. by intros plan [= <-].
    + destruct (IH (mkSt (world s) (calls s)
                         (console s
                          ++ unresolved_warnings listIdByTitle
                               listIdByNormalizedTitle title [entry])))
        as (found & s' & E & Hw & Hc & Hp).
      by exists found, s'.
Qed.

Lemma plan_moves_quiet (entries : list (string * string))
      (allTasks : list Schema_Task) (taskLists : list Schema_TaskList)
      (s : St W) :
  exists plans s',
    TaskActions.plan_moves entries allTasks taskLists s = (Returned plans, s')
    /\ world s' = world s /\ calls s' = calls s
    /\ Forall well_formed plans.
Proof.
  unfold TaskActions.plan_moves.
  destruct (TaskActions.build_lookups taskLists) as [byTitle byNormalized].
  set (I := fun (acc : list MovePlan) (s' : St W) =>
              world s' = world s /\ calls s' = calls s
              /\ Forall well_formed acc).
  assert (Hstep : forall task movePlans s0,
             I movePlans s0 ->
             exists acc' s',
               TaskActions.plan_step byTitle byNormalized entries task
                                     movePlans s0
               = (Returned acc', s') /\ I acc' s').
  { intros task movePlans s0 (Hw & Hc & Hwf). unfold TaskActions.plan_step.
    destruct (Js.or_undefined (task_title task)) as [title|] eqn:Et;
      [| by exists movePlans, s0].
    destruct (Js.or_undefined (task_taskListId task)) as [taskListId|] eqn:El;
      [| by exists movePlans, s0].
    destruct (Js.or_undefined (task_id task)) as [i|] eqn:Ei;
      [| by exists movePlans, s0].
    destruct (plan_task_loop_quiet byTitle byNormalized task title taskListId
                                   entries s0)
      as (found & s1 & E & Hw1 & Hc1 & Hp).
    unfold bind. rewrite E. destruct found as [plan|].
    - exists (movePlans ++ [plan]), s1. unfold ret.
      split; [done|]. split; [congruence|]. split; [congruence|].
      apply Forall_app. split; [done|]. constructor; [|done].
      unfold well_formed. rewrite (Hp plan eq_refl).
      apply or_undefined_Some in Et, El, Ei. tauto.
    - exists movePlans, s1. unfold ret.
      split; [done|]. split; [congruence|]. split; [congruence|]. done. }
  destruct (for_of_invariant I _ Hstep allTasks [] s)
    as (plans & s' & E & Hw & Hc & Hwf); [by repeat split|].
  by exists plans, s'.
Qed.

Lemma execute_step_fate (plan : MovePlan) (results : list string)
      (successCount failureCount : nat) (s : St W) :
  well_formed plan ->
  exists fate s',
    TaskActions.execute_step tasks plan (results, successCount, failureCount) s
    = (Returned (results ++ [transfer_line plan fate],
                 (if is_moved fate then S successCount else successCount),
                 (if is_moved fate then failureCount else S failureCount)),
       s')
    /\ calls s' = calls s ++ transfer_calls plan fate.
Proof.
  intros (Ht & Hi & Hl). unfold TaskActions.execute_step.
  rewrite !or_undefined_truthy by done.
  destruct (task_title (plan_task plan)) as [title|] eqn:Etitle; [|done].
  destruct (task_id (plan_task plan)) as [tid|] eqn:Eid; [|done].
  destruct (task_taskListId (plan_task plan)) as [lid|] eqn:Elid; [|done].
  assert (Hbody : requestBody None (Some title)
                    (Some (Js.or_else (task_notes (plan_task plan)) ""))
                    (Js.or_undefined (task_due (plan_task plan)))
                    (Some (Js.or_else (task_status (plan_task plan))
                                      "needsAction"))
                  = TaskActions.newTask_of (plan_task plan)).
  { unfold TaskActions.newTask_of. rewrite Etitle.
    by rewrite (or_else_truthy (Some title) "Untitled Task" Ht). }
  rewrite Hbody. unfold transfer_calls, transfer_line.
  rewrite Etitle, Eid, Elid. unfold_js.
  destruct (remote_tasks_insert tasks (plan_targetListId plan)
              (TaskActions.newTask_of (plan_task plan)) None (world s))
    as [[copy|e] w1] eqn:Eins; simpl.
  - destruct (Js.truthy (task_id copy)); simpl.
    + destruct (remote_tasks_delete tasks lid tid w1) as [[[]|e] w2] eqn:Edel;
        simpl.
      * exists Moved. eexists. split; [reflexivity|].
        simpl. by rewrite <- app_assoc.
      * exists (NotDeleted e). eexists. split; [reflexivity|].
        simpl. by rewrite <- app_assoc.
    + exists (NotCreated "Failed to create new task - no ID returned").
      eexists. split; [reflexivity|]. done.
  - exists (NotCreated e). eexists. split; [reflexivity|]. done.
Qed.

Lemma execute_loop (plans : list MovePlan) :
  forall results successCount failureCount (s : St W),
    Forall well_formed plans ->
    exists fates s',
      length fates = length plans
      /\ for_of plans (TaskActions.execute_step tasks)
                (results, successCount, failureCount) s
         = (Returned (results ++ zip_with transfer_line plans fates,
                      successCount + moved_count fates,
                      failureCount + failed_count fates),
            s')
      /\ calls s' = calls s ++ concat (zip_with transfer_calls plans fates).
Proof.
  induction plans as [|plan rest IH];
    intros results successCount failureCount s Hwf.
  - exists [], s. simpl. unfold ret, moved_count, failed_count; simpl.
    by rewrite !app_nil_r, !Nat.add_0_r.
  - inversion Hwf as [|? ? Hplan Hrest]; subst.
    destruct (execute_step_fate plan results successCount failureCount s Hplan)
      as (fate & s1 & E1 & Hc1).
    destruct (IH (results ++ [transfer_line plan fate])
                 (if is_moved fate then S successCount else successCount)
                 (if is_moved fate then failureCount else S failureCount)
                 s1 Hrest)
      as (fates & s2 & Hlen & E2 & Hc2).
    exists (fate :: fates), s2. cbn [for_of]. unfold bind. rewrite E1, E2.
    simpl. split; [by rewrite Hlen|]. split.
    + rewrite <- app_assoc. simpl. unfold moved_count, failed_count. simpl.
      destruct (is_moved fate); simpl; by rewrite Nat.add_succ_r.
    + rewrite Hc2, Hc1. by rewrite <- app_assoc.
Qed.

Lemma execute_moves_calls (dryRun : bool) (plans : list MovePlan) (s : St W) :
  Forall well_formed plans ->
  exists fates acc s',
    length fates = length plans
    /\ TaskActions.execute_moves tasks dryRun plans s = (Returned acc, s')
    /\ fst (fst acc) = (if dryRun then TaskActions.dry_run_report plans
                        else live_report plans fates)
    /\ calls s' = calls s ++ (if dryRun then []
                              else concat (zip_with transfer_calls plans fates)).
Proof.
  intros Hwf. unfold TaskActions.execute_moves. destruct dryRun.
  - exists (map (fun _ => Moved) plans). eexists _, s. unfold ret.
    rewrite length_map, app_nil_r. done.
  - destruct (execute_loop plans
                ["Moving " +:+ Js.show_nat (length plans) +:+ " tasks:"] 0 0 s Hwf)
      as (fates & s' & Hlen & E & Hc).
    exists fates. eexists _, s'. unfold bind. rewrite E. unfold ret.
    repeat split; done.
Qed.

Lemma asked_reads (taskLists : list Schema_TaskList) :
  Forall (fun c => is_mutation c = false)
         (map (fun taskList =>
                 TasksList (list_id taskList) MAX_TASK_RESULTS None) taskLists).
Proof. induction taskLists; by constructor. Qed.

(** The enumerator only reads; it throws exactly when the collections
    cannot be listed. *)
Lemma _list_reads (s : St W) :
  exists o s' reads,
    TaskActions._list tasks s = (o, s')
    /\ calls s' = calls s ++ reads
    /\ Forall (fun c => is_mutation c = false) reads.
Proof.
  destruct (remote_tasklists_list tasks MAX_TASK_RESULTS (world s))
    as [[ols|e] w0] eqn:Elists.
  - destruct (answers (fun taskList =>
                         remote_tasks_list tasks (list_id taskList)
                                           MAX_TASK_RESULTS None)
                      (with_id (default [] ols)) w0) as [os w1] eqn:Eans.
    rewrite (_list_returns tasks s ols w0 Elists os w1 Eans).
    eexists _, _, _. split; [reflexivity|]. split; [reflexivity|].
    constructor; [done | apply asked_reads].
  - unfold TaskActions._list. unfold_js. rewrite Elists.
    eexists _, _, _. split; [reflexivity|]. split; [reflexivity|].
    by repeat constructor.
Qed.

End ReorganizeFacts.

Section ReorganizeRun.

Context {W : Type} (tasks : Remote W).

(** The whole of [reorganizeTasks] on a non-empty mapping. *)
Lemma reorganizeTasks_run (entry : string * string)
      (rest : list (string * string)) (dryRun : option bool) (s : St W) :
  exists r s' reads plans fates,
    TaskActions.reorganizeTasks tasks (Some (entry :: rest)) dryRun s
    = (Returned r, s')
    /\ Forall (fun c => is_mutation c = false) reads
    /\ length fates = length plans
    /\ calls s' = calls s ++ reads
                  ++ (if default false dryRun then []
                      else concat (zip_with transfer_calls plans fates))
    /\ ((exists e, enumeration_fails tasks s e /\ plans = []
                   /\ r = mkResult ("Error reorganizing tasks: " +:+ e) true)
        \/ (planned tasks (entry :: rest) s plans
            /\ r = mkResult
                     (Js.join Js.nl
                        (if default false dryRun
                         then TaskActions.dry_run_report plans
                         else live_report plans fates))
                     false)).
Proof.
  destruct (_list_reads tasks s) as (o & s1 & reads1 & Elist & Hc1 & Hr1).
  unfold TaskActions.reorganizeTasks, try_catch. unfold bind at 1.
  rewrite Elist. destruct o as [allTasks|e].
  - unfold bind at 1.
    destruct (tasks_tasklists_list tasks MAX_TASK_RESULTS s1)
      as [[ols|e] s2] eqn:Elists.
    + assert (Hc2 : calls s2 = calls s1 ++ [TasklistsList MAX_TASK_RESULTS]).
      { revert Elists. unfold tasks_tasklists_list, await.
        destruct (remote_tasklists_list _ _ _). by intros [= _ <-]. }
      destruct (plan_moves_quiet (entry :: rest) allTasks (default [] ols) s2)
        as (plans & s3 & Eplan & _ & Hc3 & Hwf).
      destruct (execute_moves_calls tasks (default false dryRun) plans s3 Hwf)
        as (fates & acc & s4 & Hlen & Eexec & Hacc & Hc4).
      unfold bind at 1. rewrite Eplan. unfold bind. rewrite Eexec. unfold ret.
      exists (mkResult (Js.join Js.nl (fst (fst acc))) false), s4,
        (reads1 ++ [TasklistsList MAX_TASK_RESULTS]), plans, fates.
      split; [done|]. split.
      { apply Forall_app. split; [done | by repeat constructor]. }
      split; [done|]. split.
      { rewrite Hc4, Hc3, Hc2, Hc1. by rewrite <- !app_assoc. }
      right. split; [| by rewrite Hacc].
      by exists allTasks, s1, ols, s2, s3.
    + assert (Hc2 : calls s2 = calls s1 ++ [TasklistsList MAX_TASK_RESULTS]).
      { revert Elists. unfold tasks_tasklists_list, await.
        destruct (remote_tasklists_list _ _ _). by intros [= _ <-]. }
      unfold bind, console_log, ret.
      eexists _, _, (reads1 ++ [TasklistsList MAX_TASK_RESULTS]), [], [].
      split; [reflexivity|]. split.
      { apply Forall_app. split; [done | by repeat constructor]. }
      split; [done|]. split.
      { simpl. rewrite Hc2, Hc1. destruct (default false dryRun);
          by rewrite <- !app_assoc, ?app_nil_r. }
      left. exists e. split; [|done]. right. by exists allTasks, s1, s2.
  - unfold bind, console_log, ret.
    eexists _, _, reads1, [], [].
    split; [reflexivity|]. split; [done|]. split; [done|]. split.
    { simpl. rewrite Hc1. destruct (default false dryRun);
        by rewrite ?app_nil_r. }
    left. exists e. split; [|done]. left. by exists s1.
Qed.

End ReorganizeRun.

Lemma filter_reads (reads : list Call) (f : Call -> bool) :
  (forall c, f c = true -> is_mutation c = true) ->
  Forall (fun c => is_mutation c = false) reads ->
  List.filter f reads = [].
Proof.
  intros Hf. induction 1 as [|c reads Hc _ IH]; simpl; [done|].
  destruct (f c) eqn:E; [|done]. apply Hf in E. congruence.
Qed.

Lemma transfers_are_mutations (plans : list MovePlan) :
  forall fates,
    List.filter is_mutation (concat (zip_with transfer_calls plans fates))
    = concat (zip_with transfer_calls plans fates).
Proof.
  induction plans as [|plan rest IH]; intros [|fate fates]; simpl; try done.
  destruct fate; simpl; by rewrite IH.
Qed.

Lemma transfers_insert_once (plans : list MovePlan) :
  forall fates,
    length fates = length plans ->
    length (List.filter is_insert (concat (zip_with transfer_calls plans fates)))
    = length plans.
Proof.
  induction plans as [|plan rest IH]; intros [|fate fates]; simpl; try done.
  intros [= Hlen]. destruct fate; simpl; by rewrite IH.
Qed.

Lemma transfers_delete_once (plans : list MovePlan) :
  forall fates,
    length fates = length plans ->
    length (List.filter is_delete (concat (zip_with transfer_calls plans fates)))
    = length (List.filter is_created fates).
Proof.
  induction plans as [|plan rest IH]; intros [|fate fates]; simpl; try done.
  intros [= Hlen]. destruct fate; simpl; by rewrite IH.
Qed.

(** C4. [reorganizeTasks], on a non-empty mapping, always returns. In a dry
    run none of the calls it issues is a mutation. In a live run its
    mutations are, plan after plan in plan order, the insert of the copy
    followed, when the copy was created, by the delete of the original:
    one insert per plan, one delete per created copy, so exactly one insert
    and one delete for each transfer reported as moved, and nothing else
    (no update, no patch, nothing for an item without a plan). *)
Theorem reorganize_mutations {W : Type} (tasks : Remote W)
        (entry : string * string) (rest : list (string * string))
        (dryRun : option bool) (s : St W) :
  exists r s' issued plans fates,
    TaskActions.reorganizeTasks tasks (Some (entry :: rest)) dryRun s
    = (Returned r, s')
    /\ calls s' = calls s ++ issued
    /\ length fates = length plans
    /\ (isError r = false -> planned tasks (entry :: rest) s plans)
    /\ (isError r = true -> plans = [])
    /\ (if default false dryRun
        then List.filter is_mutation issued = []
             /\ (isError r = false ->
                 text r = Js.join Js.nl (TaskActions.dry_run_report plans))
        else List.filter is_mutation issued
             = concat (zip_with transfer_calls plans fates)
             /\ length (List.filter is_insert issued) = length plans
             /\ length (List.filter is_delete issued)
                = length (List.filter is_created fates)
             /\ (isError r = false ->
                 text r = Js.join Js.nl (live_report plans fates))).
Proof.
  destruct (reorganizeTasks_run tasks entry rest dryRun s)
    as (r & s' & reads & plans & fates & Erun & Hreads & Hlen & Hcalls & Hcase).
  exists r, s', (reads ++ (if default false dryRun then []
                           else concat (zip_with transfer_calls plans fates))),
    plans, fates.
  split; [done|]. split; [done|]. split; [done|].
  split; [|split].
  - destruct Hcase as [(e & _ & _ & ->)|[Hplanned _]]; [done|done].
  - destruct Hcase as [(e & _ & -> & _)|[_ ->]]; [done|done].
  - destruct (default false dryRun).
    + rewrite app_nil_r. split.
      * by apply filter_reads.
      * destruct Hcase as [(e & _ & _ & ->)|[_ ->]]; [done|done].
    + rewrite !List.filter_app.
      rewrite (filter_reads reads is_mutation), (filter_reads reads is_insert),
        (filter_reads reads is_delete); try done;
        try (by intros []).
      simpl. rewrite transfers_are_mutations, transfers_insert_once,
        transfers_delete_once by done.
      repeat split.
      destruct Hcase as [(e & _ & _ & ->)|[_ ->]]; [done|done].
Qed.

(** ** Input validation *)

Section ValidationFacts.

Context {W : Type} (tasks : Remote W).

Lemma accounts_for_guards {A R E} (op : ArrayArg A -> M W CallToolResult)
      (step : A -> list R * list E -> M W (list R * list E))
      (heading msg : string) :
  (forall arg s, nonempty_array arg = None -> op arg s = (Thrown msg, s)) ->
  (forall x rest s,
      accounts_for (for_of (x :: rest) step ([], []))
                   (op (ArgArray (x :: rest))) heading (length (x :: rest)) s) ->
  guards_input op msg.
Proof.
  intros Hbad Hgood arg s.
  destruct (nonempty_array arg) as [batch|] eqn:Earg; [|by apply Hbad].
  destruct arg as [| |[|x rest]]; try done.
  destruct (Hgood x rest s) as (results & errors & s' & r & _ & _ & Hop & Hr & _).
  by exists r, s'.
Qed.

Lemma lacks_or_undefined (o : option string) :
  lacks o = true -> Js.or_undefined o = None.
Proof.
  unfold lacks, Js.or_undefined. by destruct (Js.truthy o).
Qed.

End ValidationFacts.

Ltac bad_input :=
  let arg := fresh "arg" in
  let s := fresh "s" in
  let H := fresh "H" in
  intros arg s H; destruct arg as [| |[|? ?]]; done.

Ltac missing_field :=
  repeat match goal with
         | H : _ || _ = true |- _ => apply orb_true_iff in H; destruct H as [H|H]
         end;
  match goal with
  | H : lacks ?o = true |- _ => rewrite (lacks_or_undefined o H)
  end;
  repeat match goal with
         | |- context [Js.or_undefined ?o] => destruct (Js.or_undefined o)
         end;
  reflexivity.

(** C5, as the code has it. Each batch operation throws, before any remote
    call, exactly when its argument is missing, not an array or empty, and
    otherwise returns a result that is not error-flagged, whatever its
    elements do; an element that misses a required field is filed under
    [errors] without any remote call. [reorganizeTasks] throws, before any
    remote call, exactly when the mapping is missing or empty; otherwise it
    returns, error-flagged exactly when the enumeration fails (one of the
    two listings of the collections throws) and never because transfers
    failed. *)
Theorem only_bad_input_throws {W : Type} (tasks : Remote W) :
  (guards_input (TaskActions.batchCreateTasks tasks)
                "tasks array is required and must not be empty"
   /\ guards_input (TaskActions.batchUpdateTasks tasks)
                   "tasks array is required and must not be empty"
   /\ guards_input (TaskActions.batchDeleteTasks tasks)
                   "tasks array is required and must not be empty"
   /\ guards_input (TaskActions.batchMoveTasks tasks)
                   "tasks array is required and must not be empty"
   /\ guards_input (TaskActions.batchCreateTaskLists tasks)
                   "lists array is required and must not be empty"
   /\ guards_input (TaskActions.batchUpdateTaskLists tasks)
                   "lists array is required and must not be empty"
   /\ guards_input (TaskActions.batchDeleteTaskLists tasks)
                   "lists array is required and must not be empty"
   /\ guards_input (TaskActions.batchCreateSubtasks tasks)
                   "subtasks array is required and must not be empty")
  /\ (forall prefixMappings dryRun (s : St W),
         match prefixMappings with
         | None | Some [] =>
             TaskActions.reorganizeTasks tasks prefixMappings dryRun s
             = (Thrown "Prefix mappings are required and must not be empty", s)
         | Some entries =>
             exists r s',
               TaskActions.reorganizeTasks tasks prefixMappings dryRun s
               = (Returned r, s')
               /\ ((isError r = false
                    /\ exists plans, planned tasks entries s plans)
                   \/ (isError r = true
                       /\ exists e, enumeration_fails tasks s e))
         end)
  /\ (rejects_unasked2 (TaskActions.batchCreateTasks_step tasks)
                       (fun x => lacks (td_title x))
                       "Task title is required"
      /\ rejects_unasked2 (TaskActions.batchUpdateTasks_step tasks)
                          (fun x => lacks (td_taskListId x) || lacks (td_taskId x))
                          "Task list ID and task ID are required"
      /\ rejects_unasked2 (TaskActions.batchDeleteTasks_step tasks)
                          (fun x => lacks (td_taskListId x) || lacks (td_taskId x))
                          "Task list ID and task ID are required"
      /\ rejects_unasked3 (TaskActions.batchMoveTasks_step tasks)
                          (fun x => lacks (md_sourceTaskListId x)
                                    || lacks (md_targetTaskListId x)
                                    || lacks (md_taskId x))
           "Source task list ID, target task list ID, and task ID are required"
      /\ rejects_unasked2 (TaskActions.batchCreateTaskLists_step tasks)
                          (fun x => lacks (ld_title x))
                          "Task list title is required"
      /\ rejects_unasked2 (TaskActions.batchUpdateTaskLists_step tasks)
                          (fun x => lacks (ld_listId x) || lacks (ld_title x))
                          "Task list ID and title are required"
      /\ rejects_unasked2 (TaskActions.batchDeleteTaskLists_step tasks)
                          (fun x => lacks (ld_listId x))
                          "Task list ID is required"
      /\ rejects_unasked2 (TaskActions.batchCreateSubtasks_step tasks)
                          (fun x => lacks (sd_parentTaskId x) || lacks (sd_title x))
                          "Parent task ID and title are required").
Proof.
  split; [|split].
  - repeat split.
    + eapply accounts_for_guards; [bad_input|].
      intros x rest s. eapply two_partitions;
        [apply batchCreateTasks_step_files | reflexivity].
    + eapply accounts_for_guards; [bad_input|].
      intros x rest s. eapply two_partitions;
        [apply batchUpdateTasks_step_files | reflexivity].
    + eapply accounts_for_guards; [bad_input|].
      intros x rest s. eapply two_partitions;
        [apply batchDeleteTasks_step_files | reflexivity].
    + intros arg s. destruct arg as [| |[|x rest]]; try done.
      destruct (for_of_invariant
                  (fun (_ : list MoveResult * list (ErrorEntry MoveData)
                            * list MoveWarning) (_ : St W) => True)
                  (TaskActions.batchMoveTasks_step tasks))
        with (xs := x :: rest) (acc := (@nil MoveResult, @nil (ErrorEntry MoveData),
                                        @nil MoveWarning)) (s := s)
        as ([[results errors] warnings] & s' & E & _).
      * intros x0 acc s0 _.
        destruct (batchMoveTasks_step_files tasks x0 acc s0)
          as (acc' & s1 & E & _).
        by exists acc', s1.
      * done.
      * cbv beta iota delta [nonempty_array TaskActions.batchMoveTasks
                               TaskActions.batchMoveTasks_run bind].
        rewrite E. by eexists _, _.
    + eapply accounts_for_guards; [bad_input|].
      intros x rest s. eapply two_partitions;
        [apply batchCreateTaskLists_step_files | reflexivity].
    + eapply accounts_for_guards; [bad_input|].
      intros x rest s. eapply two_partitions;
        [apply batchUpdateTaskLists_step_files | reflexivity].
    + eapply accounts_for_guards; [bad_input|].
      intros x rest s. eapply two_partitions;
        [apply batchDeleteTaskLists_step_files | reflexivity].
    + eapply accounts_for_guards; [bad_input|].
      intros x rest s. eapply two_partitions;
        [apply batchCreateSubtasks_step_files | reflexivity].
  - intros [[|entry rest]|] dryRun s; [done| |done].
    destruct (reorganizeTasks_run tasks entry rest dryRun s)
      as (r & s' & reads & plans & fates & Erun & _ & _ & _ & Hcase).
    exists r, s'. split; [done|].
    destruct Hcase as [(e & Hfail & _ & ->)|[Hplanned ->]].
    + right. split; [done|]. by exists e.
    + left. split; [done|]. by exists plans.
  - repeat split; intros x acc s Hmissing.
    + destruct acc as [results errors].
      unfold TaskActions.batchCreateTasks_step. missing_field.
    + destruct acc as [results errors].
      unfold TaskActions.batchUpdateTasks_step. missing_field.
    + destruct acc as [results errors].
      unfold TaskActions.batchDeleteTasks_step. missing_field.
    + destruct acc as [[results errors] warnings].
      unfold TaskActions.batchMoveTasks_step. missing_field.
    + destruct acc as [results errors].
      unfold TaskActions.batchCreateTaskLists_step. missing_field.
    + destruct acc as [results errors].
      unfold TaskActions.batchUpdateTaskLists_step. missing_field.
    + destruct acc as [results errors].
      unfold TaskActions.batchDeleteTaskLists_step. missing_field.
    + destruct acc as [results errors].
      unfold TaskActions.batchCreateSubtasks_step. missing_field.
Qed.

Lemma only_bad_input_throws_witness :
  TaskActions.batchDeleteTasks_step InMemory.remote
    (mkTaskData (Some "A") None None None None None) ([], [])
    (InMemory.start Scenario.errand)
  = (Returned ([], [mkError "Task list ID and task ID are required"
                            (mkTaskData (Some "A") None None None None None)]),
     InMemory.start Scenario.errand).
Proof.
  apply (proj1 (proj2 (proj2 (proj2 (proj2
           (only_bad_input_throws InMemory.remote)))))).
  reflexivity.
Defined.

(** C5 as stated fails for [reorganizeTasks]: with a non-empty mapping and
    no transfer attempted at all, the result is error-flagged when the
    collections cannot be listed. *)
Lemma reorganize_flags_failed_listing :
  TaskActions.reorganizeTasks InMemory.remote (Some [("X", "Work")]) None
                              (InMemory.start Scenario.unreachable)
  = (Returned (mkResult "Error reorganizing tasks: Backend Error" true),
     mkSt Scenario.unreachable [TasklistsList 100]
          [ConsoleError "Error reorganizing tasks:" (Some "Backend Error")]).
Proof. vm_compute. reflexivity. Qed.

(** The scenario of the specification: one valid descriptor and one without
    [taskId] give one success, one error entry and a single remote call. *)
Example batchDeleteTasks_one_valid_one_missing :
  exists r s',
    TaskActions.batchDeleteTasks InMemory.remote
      (ArgArray [mkTaskData (Some "A") (Some "t1") None None None None;
                 mkTaskData (Some "A") None None None None None])
      (InMemory.start Scenario.errand)
    = (Returned r, s')
    /\ isError r = false
    /\ Js.startsWith (text r) (batch_summary "Batch task deletion" 1 1) = true
    /\ calls s' = [TasksDelete "A" "t1"].
Proof. eexists _, _. split; [vm_compute; reflexivity|]. by vm_compute. Qed.

(** A live run on one prefixed item: the item is enumerated, planned for
    "Work", copied there under a new identifier and deleted from [A]. *)
Example reorganize_moves_prefixed_item :
  exists r s',
    TaskActions.reorganizeTasks InMemory.remote (Some [("X", "Work")])
                                (Some false)
                                (InMemory.start Scenario.prefixed)
    = (Returned r, s')
    /\ isError r = false
    /\ text r
       = Js.join Js.nl
           ["Moving 1 tasks:";
            "- Moved " +:+ Js.quoted "[X] foo" +:+ " from "
            +:+ Js.quoted "Inbox" +:+ " to " +:+ Js.quoted "Work";
            TaskActions.summary_line 1 0]
    /\ calls s'
       = [TasklistsList 100; TasksList (Some "A") 100 None;
          TasksList (Some "B") 100 None; TasklistsList 100;
          TasksInsert "B"
                      (requestBody None (Some "[X] foo") (Some "") None
                                   (Some "needsAction")) None;
          TasksDelete "A" "t1"]
    /\ map (fun e => (fst e, task_id (snd e), task_title (snd e)))
           (InMemory.w_items (world s'))
       = [("B", Some "id-1", Some "[X] foo")].
Proof. eexists _, _. split; [vm_compute; reflexivity|]. by vm_compute. Qed.

(** * Further properties *)

(** ** Transfers never delete before the copy exists *)

(** X1. [moveTask] throws, having done nothing, when one of its three
    arguments is missing or empty. Otherwise it always returns a result,
    and what it does follows the answers of the remote step by step: the
    fetch of the original, then the insert of the copy, then the delete of
    the original, cut short at the first step that fails. When the fetch
    throws, or answers with an item without title, nothing else is called
    and the result is error-flagged; when the insert throws, or answers
    without an identifier, no delete is issued and the result is
    error-flagged; only when the insert has answered with an identifier is
    the delete issued, and then the result is not error-flagged, whether
    the delete succeeds ("moved") or throws ("was copied ... but could not
    be deleted"). The remote world left is the one the last call left. *)
Theorem moveTask_deletes_only_after_copy {W : Type} (tasks : Remote W)
        (sourceTaskListId targetTaskListId taskId : option string) (s : St W) :
  match Js.or_undefined sourceTaskListId, Js.or_undefined targetTaskListId,
        Js.or_undefined taskId with
  | Some src, Some tgt, Some tid =>
      exists r s',
        TaskActions.moveTask tasks sourceTaskListId targetTaskListId taskId s
        = (Returned r, s')
        /\ match remote_tasks_get tasks src tid (world s) with
           | (Thrown e, w1) =>
               world s' = w1
               /\ calls s' = calls s ++ [TasksGet src tid]
               /\ r = mkResult ("Error moving task: "
                                +:+ "Could not get source task: " +:+ e) true
           | (Returned original, w1) =>
               if Js.truthy (task_title original) then
                 let body := TaskActions.newTask_of original in
                 match remote_tasks_insert tasks tgt body None w1 with
                 | (Thrown e, w2) =>
                     world s' = w2
                     /\ calls s' = calls s ++ [TasksGet src tid;
                                               TasksInsert tgt body None]
                     /\ r = mkResult
                              ("Error moving task: "
                               +:+ "Could not create task in target list: "
                               +:+ e) true
                 | (Returned copy, w2) =>
                     if Js.truthy (task_id copy) then
                       calls s' = calls s ++ [TasksGet src tid;
                                              TasksInsert tgt body None;
                                              TasksDelete src tid]
                       /\ match remote_tasks_delete tasks src tid w2 with
                          | (Returned _, w3) =>
                              world s' = w3
                              /\ r = mkResult
                                       (TaskActions.moved_text
                                          (task_title original) src tgt)
                                       false
                          | (Thrown _, w3) =>
                              world s' = w3
                              /\ r = mkResult
                                       (TaskActions.copied_text
                                          (task_title original) tgt)
                                       false
                          end
                     else
                       world s' = w2
                       /\ calls s' = calls s ++ [TasksGet src tid;
                                                 TasksInsert tgt body None]
                       /\ r = mkResult
                                ("Error moving task: "
                                 +:+ "Could not create task in target list: "
                                 +:+ "Failed to create new task - no ID returned")
                                true
                 end
               else
                 world s' = w1
                 /\ calls s' = calls s ++ [TasksGet src tid]
                 /\ r = mkResult
                          ("Error moving task: "
                           +:+ "Could not get source task: "
                           +:+ "Task not found or has invalid format")
                          true
           end
  | _, _, _ =>
      TaskActions.moveTask tasks sourceTaskListId targetTaskListId taskId s
      = (Thrown
           "Source task list ID, target task list ID, and task ID are required",
         s)
  end.
Proof.
  unfold TaskActions.moveTask.
  destruct (Js.or_undefined sourceTaskListId) as [src|]; [|done].
  destruct (Js.or_undefined targetTaskListId) as [tgt|]; [|done].
  destruct (Js.or_undefined taskId) as [tid|]; [|done].
  unfold TaskActions.fetch_original, TaskActions.create_copy. unfold_js.
  destruct (remote_tasks_get tasks src tid (world s)) as [[original|e] w1];
    simpl.
  - destruct (Js.truthy (task_title original)); simpl.
    + destruct (remote_tasks_insert tasks tgt (TaskActions.newTask_of original)
                                    None w1) as [[copy|e] w2]; simpl.
      * unfold Js.or_undefined.
        destruct (Js.truthy (task_id copy)) eqn:Eid; simpl.
        -- destruct (task_id copy) as [newTaskId|]; [|done]. simpl.
           destruct (remote_tasks_delete tasks src tid w2) as [[[]|e] w3];
             simpl; eexists _, _; (split; [reflexivity|]); simpl;
             rewrite <- !app_assoc; done.
        -- eexists _, _. split; [reflexivity|]. simpl.
           by rewrite <- !app_assoc.
      * eexists _, _. split; [reflexivity|]. simpl. by rewrite <- !app_assoc.
    + by eexists _, _.
  - by eexists _, _.
Qed.

(** X2. A round of [batchMoveTasks] on an element with its three fields
    files it under [errors] exactly when the transfer stopped before the
    delete (after the fetch, or after the insert), and under [results] or
    [warnings] exactly when fetch, insert and delete were all issued: an
    element reported as failed has never had its original deleted. *)
Theorem batchMoveTasks_step_deletes_only_after_copy {W : Type}
        (tasks : Remote W) (moveData : MoveData)
        (results : list MoveResult) (errors : list (ErrorEntry MoveData))
        (warnings : list MoveWarning) (s : St W) :
  match Js.or_undefined (md_sourceTaskListId moveData),
        Js.or_undefined (md_targetTaskListId moveData),
        Js.or_undefined (md_taskId moveData) with
  | Some src, Some tgt, Some tid =>
      exists acc' s' issued,
        TaskActions.batchMoveTasks_step tasks moveData
                                        (results, errors, warnings) s
        = (Returned acc', s')
        /\ calls s' = calls s ++ issued
        /\ ((exists e,
                acc' = (results, errors ++ [mkError e moveData], warnings)
                /\ (issued = [TasksGet src tid]
                    \/ exists body,
                        issued = [TasksGet src tid; TasksInsert tgt body None]))
            \/ ((exists r, acc' = (results ++ [r], errors, warnings)
                           /\ mr_originalTaskId r = tid)
                \/ (exists w, acc' = (results, errors, warnings ++ [w])
                              /\ mw_originalTaskId w = tid))
               /\ exists body,
                   issued = [TasksGet src tid; TasksInsert tgt body None;
                             TasksDelete src tid])
  | _, _, _ =>
      TaskActions.batchMoveTasks_step tasks moveData
                                      (results, errors, warnings) s
      = (Returned
           (results,
            errors ++ [mkError
              "Source task list ID, target task list ID, and task ID are required"
              moveData],
            warnings),
         s)
  end.
Proof.
  unfold TaskActions.batchMoveTasks_step.
  destruct (Js.or_undefined (md_sourceTaskListId moveData)) as [src|]; [|done].
  destruct (Js.or_undefined (md_targetTaskListId moveData)) as [tgt|]; [|done].
  destruct (Js.or_undefined (md_taskId moveData)) as [tid|]; [|done].
  unfold TaskActions.fetch_original, TaskActions.create_copy. unfold_js.
  destruct (remote_tasks_get tasks src tid (world s)) as [[original|e] w1];
    simpl.
  - destruct (Js.truthy (task_title original)); simpl.
    + destruct (remote_tasks_insert tasks tgt (TaskActions.newTask_of original)
                                    None w1) as [[copy|e] w2]; simpl.
      * destruct (Js.or_undefined (task_id copy)) as [newTaskId|]; simpl.
        -- destruct (remote_tasks_delete tasks src tid w2) as [[[]|e] w3];
             simpl; eexists _, _, _; (split; [reflexivity|]);
             rewrite <- !app_assoc; simpl; (split; [reflexivity|]);
             right; eauto 8.
        -- eexists _, _, _. split; [reflexivity|].
           rewrite <- !app_assoc; simpl. split; [reflexivity|]. left. eauto 8.
      * eexists _, _, _. split; [reflexivity|].
        rewrite <- !app_assoc; simpl. split; [reflexivity|]. left. eauto 8.
    + eexists _, _, _. split; [reflexivity|]. split; [reflexivity|].
      left. eauto 8.
  - eexists _, _, _. split; [reflexivity|]. split; [reflexivity|]. left.
    eauto 8.
Qed.

(** ** Batches compose *)

Section BatchComposition.

Context {W : Type}.

Lemma independent2_loop {X R E}
      (step : X -> list R * list E -> M W (list R * list E)) :
  independent2 step ->
  forall ys r e s,
    for_of ys step (r, e) s = frame2 r e (for_of ys step ([], []) s).
Proof.
  intros Hstep ys. induction ys as [|y ys IH]; intros r e s.
  - simpl. unfold ret. by rewrite !app_nil_r.
  - simpl. unfold bind. rewrite (Hstep y r e s).
    destruct (step y ([], []) s) as [[[r1 e1]|m] s1]; simpl; [|done].
    rewrite (IH (r ++ r1) (e ++ e1)), (IH r1 e1).
    destruct (for_of ys step ([], []) s1) as [[[r2 e2]|m] s2]; simpl; [|done].
    by rewrite !app_assoc.
Qed.

Lemma independent2_splits {X R E}
      (step : X -> list R * list E -> M W (list R * list E)) :
  independent2 step -> splits2 step.
Proof.
  intros Hstep xs ys s. rewrite for_of_app.
  destruct (for_of xs step ([], []) s) as [[[r e]|m] s1]; [|done].
  by apply independent2_loop.
Qed.

Lemma independent3_loop {X R E V}
      (step : X -> list R * list E * list V -> M W (list R * list E * list V)) :
  independent3 step ->
  forall ys r e v s,
    for_of ys step (r, e, v) s = frame3 r e v (for_of ys step ([], [], []) s).
Proof.
  intros Hstep ys. induction ys as [|y ys IH]; intros r e v s.
  - simpl. unfold ret. by rewrite !app_nil_r.
  - simpl. unfold bind. rewrite (Hstep y r e v s).
    destruct (step y ([], [], []) s) as [[[[r1 e1] v1]|m] s1]; simpl; [|done].
    rewrite (IH (r ++ r1) (e ++ e1) (v ++ v1)), (IH r1 e1 v1).
    destruct (for_of ys step ([], [], []) s1) as [[[[r2 e2] v2]|m] s2]; simpl;
      [|done].
    by rewrite !app_assoc.
Qed.

Lemma independent3_splits {X R E V}
      (step : X -> list R * list E * list V -> M W (list R * list E * list V)) :
  independent3 step -> splits3 step.
Proof.
  intros Hstep xs ys s. rewrite for_of_app.
  destruct (for_of xs step ([], [], []) s) as [[[[r e] v]|m] s1]; [|done].
  by apply independent3_loop.
Qed.

End BatchComposition.

Ltac independent_step :=
  repeat js_step; rewrite ?app_nil_r; reflexivity.

(** X3. In each of the eight batch operations a round files the same
    entry and leaves the same remote state whatever was filed for the
    earlier elements; so the batch [xs ++ ys] gives the entries of the
    batch [xs] followed by those of the batch [ys] run on the state [xs]
    left. *)
Theorem batches_compose {W : Type} (tasks : Remote W) :
  (independent2 (TaskActions.batchCreateTasks_step tasks)
   /\ independent2 (TaskActions.batchUpdateTasks_step tasks)
   /\ independent2 (TaskActions.batchDeleteTasks_step tasks)
   /\ independent3 (TaskActions.batchMoveTasks_step tasks)
   /\ independent2 (TaskActions.batchCreateTaskLists_step tasks)
   /\ independent2 (TaskActions.batchUpdateTaskLists_step tasks)
   /\ independent2 (TaskActions.batchDeleteTaskLists_step tasks)
   /\ independent2 (TaskActions.batchCreateSubtasks_step tasks))
  /\ (splits2 (TaskActions.batchCreateTasks_step tasks)
      /\ splits2 (TaskActions.batchUpdateTasks_step tasks)
      /\ splits2 (TaskActions.batchDeleteTasks_step tasks)
      /\ splits3 (TaskActions.batchMoveTasks_step tasks)
      /\ splits2 (TaskActions.batchCreateTaskLists_step tasks)
      /\ splits2 (TaskActions.batchUpdateTaskLists_step tasks)
      /\ splits2 (TaskActions.batchDeleteTaskLists_step tasks)
      /\ splits2 (TaskActions.batchCreateSubtasks_step tasks)).
Proof.
  assert (H1 : independent2 (TaskActions.batchCreateTasks_step tasks)).
  { intros x r e s. unfold TaskActions.batchCreateTasks_step. unfold_js.
    independent_step. }
  assert (H2 : independent2 (TaskActions.batchUpdateTasks_step tasks)).
  { intros x r e s. unfold TaskActions.batchUpdateTasks_step. unfold_js.
    independent_step. }
  assert (H3 : independent2 (TaskActions.batchDeleteTasks_step tasks)).
  { intros x r e s. unfold TaskActions.batchDeleteTasks_step. unfold_js.
    independent_step. }
  assert (H4 : independent3 (TaskActions.batchMoveTasks_step tasks)).
  { intros x r e v s. unfold TaskActions.batchMoveTasks_step,
      TaskActions.fetch_original, TaskActions.create_copy. unfold_js.
    repeat first [ js_step
                 | match goal with
                   | |- context [if ?b then _ else _] => destruct b; simpl
                   end ];
      rewrite ?app_nil_r; reflexivity. }
  assert (H5 : independent2 (TaskActions.batchCreateTaskLists_step tasks)).
  { intros x r e s. unfold TaskActions.batchCreateTaskLists_step. unfold_js.
    independent_step. }
  assert (H6 : independent2 (TaskActions.batchUpdateTaskLists_step tasks)).
  { intros x r e s. unfold TaskActions.batchUpdateTaskLists_step. unfold_js.
    independent_step. }
  assert (H7 : independent2 (TaskActions.batchDeleteTaskLists_step tasks)).
  { intros x r e s. unfold TaskActions.batchDeleteTaskLists_step. unfold_js.
    independent_step. }
  assert (H8 : independent2 (TaskActions.batchCreateSubtasks_step tasks)).
  { intros x r e s. unfold TaskActions.batchCreateSubtasks_step. unfold_js.
    independent_step. }
  split; [by repeat split|].
  repeat split; by (apply independent2_splits || apply independent3_splits).
Qed.

(** ** Subtasks *)

(** X4. [createSubtask] and a round of [batchCreateSubtasks] fetch the
    parent before anything else: when that fetch throws, no insert is
    issued and the failure is reported ("Could not verify parent task");
    when it answers, one insert follows, in the same collection, with the
    parent handed over as a parameter of the call and never as a field of
    the body. [createSubtask] throws only for a missing parent identifier
    or title, before any call. *)
Theorem subtask_creation_verifies_parent {W : Type} (tasks : Remote W) :
  (forall taskListId parentTaskId taskTitle taskNotes taskStatus taskDue
          (s : St W),
      let l := Js.or_else taskListId "@default" in
      match Js.or_undefined parentTaskId, Js.or_undefined taskTitle with
      | Some p, Some t =>
          exists r s' issued,
            TaskActions.createSubtask tasks taskListId parentTaskId taskTitle
                                      taskNotes taskStatus taskDue s
            = (Returned r, s')
            /\ calls s' = calls s ++ issued
            /\ ((exists e,
                    fst (remote_tasks_get tasks l p (world s)) = Thrown e
                    /\ issued = [TasksGet l p]
                    /\ r = mkResult ("Error creating subtask: "
                                     +:+ "Could not verify parent task: " +:+ e)
                                    true)
                \/ (exists parent body,
                       fst (remote_tasks_get tasks l p (world s))
                       = Returned parent
                       /\ issued = [TasksGet l p; TasksInsert l body (Some p)]
                       /\ task_title body = Some t
                       /\ task_parent body = None))
      | _, _ =>
          TaskActions.createSubtask tasks taskListId parentTaskId taskTitle
                                    taskNotes taskStatus taskDue s
          = (Thrown "Parent task ID and task title are required", s)
      end)
  /\ (forall subtaskData results errors (s : St W),
         let l := Js.or_else (sd_taskListId subtaskData) "@default" in
         match Js.or_undefined (sd_parentTaskId subtaskData),
               Js.or_undefined (sd_title subtaskData) with
         | Some p, Some t =>
             exists acc' s' issued,
               TaskActions.batchCreateSubtasks_step tasks subtaskData
                                                    (results, errors) s
               = (Returned acc', s')
               /\ calls s' = calls s ++ issued
               /\ ((exists e,
                       fst (remote_tasks_get tasks l p (world s)) = Thrown e
                       /\ issued = [TasksGet l p]
                       /\ acc' = (results,
                                  errors
                                  ++ [mkError ("Could not verify parent task: "
                                               +:+ e) subtaskData]))
                   \/ (exists parent body,
                          fst (remote_tasks_get tasks l p (world s))
                          = Returned parent
                          /\ issued = [TasksGet l p; TasksInsert l body (Some p)]
                          /\ task_title body = Some t
                          /\ task_parent body = None))
         | _, _ =>
             TaskActions.batchCreateSubtasks_step tasks subtaskData
                                                  (results, errors) s
             = (Returned (results,
                          errors ++ [mkError "Parent task ID and title are required"
                                             subtaskData]),
                s)
         end).
Proof.
  split.
  - intros taskListId parentTaskId taskTitle taskNotes taskStatus taskDue s l.
    unfold TaskActions.createSubtask. fold l.
    destruct (Js.or_undefined parentTaskId) as [p|]; [|done].
    destruct (Js.or_undefined taskTitle) as [t|]; [|done].
    unfold_js.
    destruct (remote_tasks_get tasks l p (world s)) as [[parent|e] w1]; simpl.
    + destruct (remote_tasks_insert tasks l _ (Some p) w1) as [[child|e] w2];
        simpl; eexists _, _, _; (split; [reflexivity|]);
        rewrite <- !app_assoc; simpl; (split; [reflexivity|]);
        right; eexists _, _; repeat split.
    + eexists _, _, _. split; [reflexivity|]. split; [reflexivity|].
      left. by exists e.
  - intros subtaskData results errors s l.
    unfold TaskActions.batchCreateSubtasks_step. fold l.
    destruct (Js.or_undefined (sd_parentTaskId subtaskData)) as [p|]; [|done].
    destruct (Js.or_undefined (sd_title subtaskData)) as [t|]; [|done].
    unfold_js.
    destruct (remote_tasks_get tasks l p (world s)) as [[parent|e] w1]; simpl.
    + destruct (remote_tasks_insert tasks l _ (Some p) w1) as [[child|e] w2];
        simpl; eexists _, _, _; (split; [reflexivity|]);
        rewrite <- !app_assoc; simpl; (split; [reflexivity|]);
        right; eexists _, _; repeat split.
    + eexists _, _, _. split; [reflexivity|]. split; [reflexivity|].
      left. by exists e.
Qed.

(** ** Single-entity operations *)

(** X5. [create] and [delete] throw, before any call, when the title
    (respectively the task identifier) is missing or empty. Otherwise they
    issue exactly one remote call, in the given collection or in
    ["@default"], and report a remote failure by throwing it on: they never
    return an error-flagged result. The body [create] inserts carries the
    title, the notes and the due date as given, and no status, whatever
    status was asked for. *)
Theorem create_and_delete_throw_failures {W : Type} (tasks : Remote W) :
  (forall taskListId taskTitle taskNotes taskStatus taskDue (s : St W),
      match Js.or_undefined taskTitle with
      | None =>
          TaskActions.create tasks taskListId taskTitle taskNotes taskStatus
                             taskDue s
          = (Thrown "Task title is required", s)
      | Some title =>
          let l := Js.or_else taskListId "@default" in
          exists body o s',
            TaskActions.create tasks taskListId taskTitle taskNotes taskStatus
                               taskDue s
            = (o, s')
            /\ calls s' = calls s ++ [TasksInsert l body None]
            /\ task_title body = Some title
            /\ task_notes body = taskNotes
            /\ task_due body = taskDue
            /\ task_status body = None
            /\ match o with
               | Returned r =>
                   isError r = false
                   /\ exists created,
                       fst (remote_tasks_insert tasks l body None (world s))
                       = Returned created
                       /\ text r = "Task created: "
                                   +:+ Js.show (task_title created)
               | Thrown e =>
                   fst (remote_tasks_insert tasks l body None (world s))
                   = Thrown e
               end
      end)
  /\ (forall taskListId taskId (s : St W),
         match Js.or_undefined taskId with
         | None =>
             TaskActions.delete tasks taskListId taskId s
             = (Thrown "Task URI is required", s)
         | Some i =>
             let l := Js.or_else taskListId "@default" in
             exists o s',
               TaskActions.delete tasks taskListId taskId s = (o, s')
               /\ calls s' = calls s ++ [TasksDelete l i]
               /\ match o with
                  | Returned r =>
                      r = mkResult ("Task " +:+ i +:+ " deleted") false
                      /\ fst (remote_tasks_delete tasks l i (world s))
                         = Returned tt
                  | Thrown e =>
                      fst (remote_tasks_delete tasks l i (world s)) = Thrown e
                  end
         end).
Proof.
  split.
  - intros taskListId taskTitle taskNotes taskStatus taskDue s.
    unfold TaskActions.create.
    destruct (Js.or_undefined taskTitle) as [title|]; [|done].
    cbv zeta. set (l := Js.or_else taskListId "@default"). unfold_js.
    exists (requestBody None (Some title) taskNotes taskDue None).
    destruct (remote_tasks_insert tasks l _ None (world s)) as [[created|e] w1];
      simpl; eexists _, _; repeat split; eauto.
  - intros taskListId taskId s. unfold TaskActions.delete.
    destruct (Js.or_undefined taskId) as [i|]; [|done].
    cbv zeta. set (l := Js.or_else taskListId "@default"). unfold_js.
    destruct (remote_tasks_delete tasks l i (world s)) as [[[]|e] w1];
      simpl; eexists _, _; repeat split; eauto.
Qed.

(** X6. [listTaskLists] never throws and issues exactly one call, the
    listing of the collections: it is error-flagged exactly when that call
    throws, and otherwise its text opens with the number of collections
    listed. *)
Theorem listTaskLists_never_throws {W : Type} (tasks : Remote W) (s : St W) :
  exists r s',
    TaskActions.listTaskLists tasks s = (Returned r, s')
    /\ calls s' = calls s ++ [TasklistsList MAX_TASK_RESULTS]
    /\ match fst (remote_tasklists_list tasks MAX_TASK_RESULTS (world s)) with
       | Returned taskLists =>
           isError r = false
           /\ Js.startsWith (text r)
                            ("Found "
                             +:+ Js.show_nat (length (default [] taskLists))
                             +:+ " task lists:") = true
       | Thrown e =>
           r = mkResult ("Error listing task lists: " +:+ e) true
       end.
Proof.
  unfold TaskActions.listTaskLists. unfold_js.
  destruct (remote_tasklists_list tasks MAX_TASK_RESULTS (world s))
    as [[taskLists|e] w1]; simpl; eexists _, _;
    (split; [reflexivity|]); (split; [reflexivity|]); [|done].
  split; [done|].
  set (n := Js.show_nat (length (default [] taskLists))).
  set (tail := Js.nl +:+ Js.join Js.nl
                 (map TaskActions.formatList (default [] taskLists))).
  change (Js.startsWith ("Found " +:+ n +:+ " task lists:" +:+ tail)
                        ("Found " +:+ n +:+ " task lists:") = true).
  replace ("Found " +:+ n +:+ " task lists:" +:+ tail)
    with (("Found " +:+ n +:+ " task lists:") +:+ tail)
    by (by rewrite !append_assoc).
  apply startsWith_append.
Qed.

(** ** The enumerator and the search *)

Lemma in_gathered (taskLists : list Schema_TaskList) :
  forall os task,
    In task (concat (zip_with gathered taskLists os)) ->
    exists taskList o, In taskList taskLists /\ In task (gathered taskList o).
Proof.
  induction taskLists as [|taskList rest IH]; intros [|o os] task; simpl;
    try done.
  rewrite in_app_iff. intros [Hin|Hin].
  - exists taskList, o. by split; [left|].
  - destruct (IH os task Hin) as (tl & o' & Htl & Ht).
    exists tl, o'. by split; [right|].
Qed.

(** X7. Every task [_list] returns carries the non-empty identifier, and
    the title, of one of the collections the remote listed: the
    enumeration never yields a task without its collection. *)
Theorem _list_tasks_carry_their_collection {W : Type} (tasks : Remote W)
        (s : St W) (allTasks : list Schema_Task) (s' : St W) :
  TaskActions._list tasks s = (Returned allTasks, s') ->
  exists taskLists,
    fst (remote_tasklists_list tasks MAX_TASK_RESULTS (world s))
    = Returned taskLists
    /\ Forall (fun task =>
                 Js.truthy (task_taskListId task) = true
                 /\ exists taskList,
                     In taskList (default [] taskLists)
                     /\ task_taskListId task = list_id taskList
                     /\ task_taskListTitle task
                        = Js.or_undefined (list_title taskList))
              allTasks.
Proof.
  intros Hrun.
  destruct (remote_tasklists_list tasks MAX_TASK_RESULTS (world s))
    as [[taskLists|e] w0] eqn:Elists.
  - exists taskLists. split; [done|].
    destruct (answers (fun taskList =>
                         remote_tasks_list tasks (list_id taskList)
                                           MAX_TASK_RESULTS None)
                      (with_id (default [] taskLists)) w0) as [os w1] eqn:Eans.
    rewrite (_list_returns tasks s taskLists w0 Elists os w1 Eans) in Hrun.
    injection Hrun as <- _. apply List.Forall_forall. intros task Hin.
    destruct (in_gathered _ _ _ Hin) as (taskList & o & Htl & Ht).
    unfold with_id in Htl. apply filter_In in Htl as [Htl Hid].
    destruct o as [page|e]; [|done]. simpl in Ht.
    apply in_map_iff in Ht as (task0 & <- & _). simpl.
    rewrite (or_undefined_truthy _ Hid). split; [done|].
    by exists taskList.
  - revert Hrun. unfold TaskActions._list. unfold_js. by rewrite Elists.
Qed.

Lemma _list_tasks_carry_their_collection_witness :
  exists taskLists,
    fst (remote_tasklists_list InMemory.remote MAX_TASK_RESULTS
           (world (InMemory.start Scenario.A_down)))
    = Returned taskLists
    /\ Forall (fun task =>
                 Js.truthy (task_taskListId task) = true
                 /\ exists taskList,
                     In taskList (default [] taskLists)
                     /\ task_taskListId task = list_id taskList
                     /\ task_taskListTitle task
                        = Js.or_undefined (list_title taskList))
              [withListInfo (InMemory.item "b0" "errand" None)
                            (Some "B") (Some "Work")].
Proof.
  exact (_list_tasks_carry_their_collection InMemory.remote
           (InMemory.start Scenario.A_down) _ _ eq_refl).
Defined.

Lemma lower_ascii_idem (c : ascii) :
  Js.lower_ascii (Js.lower_ascii c) = Js.lower_ascii c.
Proof. by destruct c as [[] [] [] [] [] [] [] []]. Qed.

Lemma toLowerCase_idem (x : string) :
  Js.toLowerCase (Js.toLowerCase x) = Js.toLowerCase x.
Proof.
  induction x as [|c x IH]; simpl; [done|].
  by rewrite lower_ascii_idem, IH.
Qed.

Lemma includes_empty (x : string) : Js.includes x "" = true.
Proof. rewrite includes_unfold. by destruct x. Qed.

(** X8. [search] does not look at the case of ASCII letters, on either
    side: two queries with the same lower-case form give the same result,
    and a task is hit as its lower-cased copy is. The empty query hits
    exactly the tasks that have a title or notes. *)
Theorem search_ignores_case {W : Type} (tasks : Remote W) :
  (forall q q' (s : St W),
      Js.toLowerCase q = Js.toLowerCase q' ->
      TaskActions.search tasks q s = TaskActions.search tasks q' s)
  /\ (forall q task,
         TaskActions.search_hit q (lowered task) = TaskActions.search_hit q task)
  /\ (forall task,
         TaskActions.search_hit "" task = true <->
         is_Some (task_title task) \/ is_Some (task_notes task)).
Proof.
  split; [|split].
  - intros q q' s Hq. unfold TaskActions.search, bind.
    destruct (TaskActions._list tasks s) as [[allTasks|e] s1]; [|done].
    unfold ret. do 2 f_equal.
    assert (Hhit : forall task,
               TaskActions.search_hit q task = TaskActions.search_hit q' task).
    { intros task. unfold TaskActions.search_hit. by rewrite Hq. }
    by rewrite (filter_ext _ _ Hhit).
  - intros q task. unfold TaskActions.search_hit, lowered; simpl.
    destruct (task_title task), (task_notes task); simpl;
      by rewrite ?toLowerCase_idem.
  - intros task. unfold TaskActions.search_hit.
    destruct (task_title task) as [t|], (task_notes task) as [n|]; simpl;
      rewrite ?includes_empty; simpl; split; intros H; eauto;
      try done; by destruct H as [[? ?]|[? ?]].
Qed.

Lemma search_ignores_case_witness :
  TaskActions.search InMemory.remote "MILK" (InMemory.start Scenario.errand)
  = TaskActions.search InMemory.remote "milk" (InMemory.start Scenario.errand).
Proof.
  apply (proj1 (search_ignores_case InMemory.remote)). reflexivity.
Defined.

(** ** [reorganizeTasks]: resolving a destination title *)

Lemma obj_get_set (o : JsObject) (k v k' : string) :
  obj_get (obj_set o k v) k' = if String.eqb k k' then Some v else obj_get o k'.
Proof.
  induction o as [|[k0 v0] o IH]; simpl.
  - done.
  - destruct (String.eqb_spec k0 k) as [->|Hne]; simpl.
    + by destruct (String.eqb k k').
    + rewrite IH. destruct (String.eqb_spec k0 k') as [->|Hne'].
      * destruct (String.eqb_spec k k'); [congruence | done].
      * done.
Qed.

Lemma last_id_cons (k : string) (p : string * string)
      (pairs : list (string * string)) :
  last_id k (p :: pairs)
  = match last_id k pairs with
    | Some i => Some i
    | None => if String.eqb (fst p) k then Some (snd p) else None
    end.
Proof.
  unfold last_id. simpl.
  destruct (String.eqb (fst p) k); [| by destruct (last _)].
  rewrite last_cons. by destruct (last _).
Qed.

Lemma obj_get_filled (pairs : list (string * string)) :
  forall (o : JsObject) (k : string),
    obj_get (fold_left (fun o p => obj_set o (fst p) (snd p)) pairs o) k
    = match last_id k pairs with
      | Some i => Some i
      | None => obj_get o k
      end.
Proof.
  induction pairs as [|p pairs IH]; intros o k; simpl; [done|].
  rewrite IH, last_id_cons, obj_get_set.
  destruct (last_id k pairs); [done|]. by destruct (String.eqb (fst p) k).
Qed.

Lemma build_lookups_filled (taskLists : list Schema_TaskList) :
  forall byTitle byNormalized,
    fold_left
      (fun '(listIdByTitle, listIdByNormalizedTitle) l =>
         match Js.or_undefined (list_title l), Js.or_undefined (list_id l) with
         | Some title, Some i =>
             let normalizedTitle := Js.trim (Js.toLowerCase title) in
             (obj_set listIdByTitle title i,
              obj_set listIdByNormalizedTitle normalizedTitle i)
         | _, _ => (listIdByTitle, listIdByNormalizedTitle)
         end)
      taskLists (byTitle, byNormalized)
    = (fold_left (fun o p => obj_set o (fst p) (snd p)) (usable taskLists)
                 byTitle,
       fold_left (fun o p => obj_set o (fst p) (snd p))
                 (normalized_pairs (usable taskLists)) byNormalized).
Proof.
  induction taskLists as [|l rest IH]; intros byTitle byNormalized; simpl;
    [done|].
  unfold usable; simpl. fold (usable rest).
  destruct (Js.or_undefined (list_title l)) as [title|]; simpl; [|apply IH].
  destruct (Js.or_undefined (list_id l)) as [i|]; simpl; [|apply IH].
  apply IH.
Qed.

Lemma usable_ids_truthy (taskLists : list Schema_TaskList) :
  Forall (fun p => Js.truthy (Some (snd p)) = true) (usable taskLists).
Proof.
  induction taskLists as [|l rest IH]; [constructor|].
  unfold usable; simpl. fold (usable rest).
  destruct (Js.or_undefined (list_title l)) as [title|]; simpl; [|done].
  destruct (Js.or_undefined (list_id l)) as [i|] eqn:Ei; simpl; [|done].
  constructor; [|done]. simpl.
  destruct (or_undefined_Some _ _ Ei) as [Hid Ht]. by rewrite Hid in Ht.
Qed.

Lemma last_id_truthy (k : string) (pairs : list (string * string)) (i : string) :
  Forall (fun p => Js.truthy (Some (snd p)) = true) pairs ->
  last_id k pairs = Some i ->
  Js.truthy (Some i) = true.
Proof.
  induction 1 as [|p pairs Hp _ IH]; [done|].
  rewrite last_id_cons. destruct (last_id k pairs) as [j|].
  - intros [= <-]. by apply IH.
  - destruct (String.eqb (fst p) k); [|done]. by intros [= <-].
Qed.

Lemma resolve_target_filled
      (taskLists : list Schema_TaskList) (targetListTitle : string) :
  TaskActions.resolve_target (fst (TaskActions.build_lookups taskLists))
                             (snd (TaskActions.build_lookups taskLists))
                             targetListTitle
  = match last_id targetListTitle (usable taskLists) with
    | Some i => Some i
    | None => last_id (normalized targetListTitle)
                      (normalized_pairs (usable taskLists))
    end.
Proof.
  unfold TaskActions.build_lookups. rewrite build_lookups_filled. simpl.
  unfold TaskActions.resolve_target. rewrite !obj_get_filled. simpl.
  pose proof (usable_ids_truthy taskLists) as Hids.
  destruct (last_id targetListTitle (usable taskLists)) as [i|] eqn:Eexact.
  - by rewrite (or_undefined_truthy _ (last_id_truthy _ _ _ Hids Eexact)).
  - simpl. fold (normalized targetListTitle).
    destruct (last_id (normalized targetListTitle)
                      (normalized_pairs (usable taskLists))) as [i|] eqn:Enorm;
      [|done].
    apply or_undefined_truthy.
    apply (last_id_truthy (normalized targetListTitle)
                          (normalized_pairs (usable taskLists))); [|done].
    unfold normalized_pairs. apply Forall_map.
    eapply Forall_impl; [exact Hids|]. by intros [t j].
Qed.

(** X9. A destination title resolves to the identifier of the last listed
    collection that bears exactly this title (among the collections with a
    non-empty title and identifier); failing that, to the identifier of the
    last listed collection whose lower-cased, trimmed title is the
    lower-cased, trimmed destination title; failing that, to nothing. The
    titles are ASCII text and the destination names no member of
    [Object.prototype], which is where the lookups of the model are those
    of JavaScript. *)
Theorem resolve_target_last_exact_then_normalized
        (taskLists : list Schema_TaskList) (targetListTitle : string) :
  ascii_titles taskLists = true ->
  plain_key targetListTitle = true ->
  TaskActions.resolve_target (fst (TaskActions.build_lookups taskLists))
                             (snd (TaskActions.build_lookups taskLists))
                             targetListTitle
  = match last_id targetListTitle (usable taskLists) with
    | Some i => Some i
    | None => last_id (normalized targetListTitle)
                      (normalized_pairs (usable taskLists))
    end.
Proof. intros _ _. apply resolve_target_filled. Qed.

Lemma resolve_target_last_exact_then_normalized_witness :
  TaskActions.resolve_target
    (fst (TaskActions.build_lookups
            [InMemory.collection "L1" "Work"; InMemory.collection "L2" "work ";
             InMemory.collection "L3" "Work"; InMemory.collection "L4" "WORK"]))
    (snd (TaskActions.build_lookups
            [InMemory.collection "L1" "Work"; InMemory.collection "L2" "work ";
             InMemory.collection "L3" "Work"; InMemory.collection "L4" "WORK"]))
    "Work"
  = Some "L3".
Proof.
  rewrite (resolve_target_last_exact_then_normalized
             [InMemory.collection "L1" "Work"; InMemory.collection "L2" "work ";
              InMemory.collection "L3" "Work"; InMemory.collection "L4" "WORK"]
             "Work" eq_refl eq_refl).
  reflexivity.
Defined.

(** ** [reorganizeTasks]: what is planned *)

Lemma carries_bracket (title : string) (entry : string * string) :
  carries title entry = true -> Js.startsWith title "[" = true.
Proof.
  unfold carries, Js.startsWith.
  change ("[" +:+ fst entry +:+ "]") with (String "[" (fst entry +:+ "]")).
  destruct title as [|c title]; [done|]. cbn [String.prefix].
  destruct (ascii_dec "[" c); [|done]. intros _. by destruct title.
Qed.

(** X10. An item whose title does not begin with an opening bracket is
    never planned, whatever the mapping, and leaves no warning: the scan of
    the mapping changes nothing. *)
Theorem plan_needs_leading_bracket {W : Type}
        (listIdByTitle listIdByNormalizedTitle : JsObject)
        (task : Schema_Task) (title taskListId : string)
        (entries : list (string * string)) (s : St W) :
  Js.startsWith title "[" = false ->
  TaskActions.plan_task_loop listIdByTitle listIdByNormalizedTitle
                             task title taskListId entries s
  = (Returned None, s).
Proof.
  intros Hbracket.
  assert (Hcarries : forall entry, carries title entry = false).
  { intros entry. destruct (carries title entry) eqn:E; [|done].
    apply carries_bracket in E. congruence. }
  rewrite plan_task_loop_none.
  - unfold unresolved_warnings.
    replace (List.filter _ entries) with (@nil (string * string)).
    + simpl. rewrite app_nil_r. by destruct s.
    + induction entries as [|entry rest IH]; simpl; [done|].
      unfold unresolved at 1. by rewrite Hcarries.
  - apply List.Forall_forall. intros entry _. unfold routes.
    by rewrite Hcarries.
Qed.

Lemma plan_needs_leading_bracket_witness :
  TaskActions.plan_task_loop [("Admin", "B")] [("admin", "B")]
                             (InMemory.item "t1" "Buy milk" None)
                             "Buy milk" "A" [("ADMIN", "Admin")]
                             (InMemory.start Scenario.errand)
  = (Returned None, InMemory.start Scenario.errand).
Proof. by apply plan_needs_leading_bracket. Defined.

Lemma last_id_in (k : string) (pairs : list (string * string)) (i : string) :
  last_id k pairs = Some i -> exists t, In (t, i) pairs.
Proof.
  induction pairs as [|[t j] pairs IH]; [done|].
  rewrite last_id_cons. destruct (last_id k pairs) as [i'|].
  - intros [= <-]. destruct (IH eq_refl) as [t' Hin]. exists t'. by right.
  - simpl. destruct (String.eqb t k); [|done]. intros [= <-].
    exists t. by left.
Qed.

Lemma usable_in (taskLists : list Schema_TaskList) (t i : string) :
  In (t, i) (usable taskLists) ->
  exists taskList, In taskList taskLists /\ list_id taskList = Some i.
Proof.
  induction taskLists as [|l rest IH]; [done|].
  unfold usable; simpl. fold (usable rest).
  destruct (Js.or_undefined (list_title l)) as [title|]; simpl.
  - destruct (Js.or_undefined (list_id l)) as [j|] eqn:Ej; simpl.
    + intros [[= <- <-]|Hin].
      * exists l. split; [by left|]. by apply or_undefined_Some in Ej as [? _].
      * destruct (IH Hin) as (tl & ? & ?). exists tl. split; [by right | done].
    + intros Hin. destruct (IH Hin) as (tl & ? & ?).
      exists tl. split; [by right | done].
  - intros Hin. destruct (IH Hin) as (tl & ? & ?).
    exists tl. split; [by right | done].
Qed.

Lemma resolved_is_listed (taskLists : list Schema_TaskList) (t i : string) :
  TaskActions.resolve_target (fst (TaskActions.build_lookups taskLists))
                             (snd (TaskActions.build_lookups taskLists)) t
  = Some i ->
  exists taskList, In taskList taskLists /\ list_id taskList = Some i.
Proof.
  rewrite resolve_target_filled.
  destruct (last_id t (usable taskLists)) as [j|] eqn:Eexact.
  - intros [= <-]. destruct (last_id_in _ _ _ Eexact) as [t' Hin].
    by apply (usable_in taskLists t').
  - intros Hnorm. destruct (last_id_in _ _ _ Hnorm) as [t' Hin].
    unfold normalized_pairs in Hin. apply in_map_iff in Hin as ([t0 j] & [= _ ->] & Hin).
    by apply (usable_in taskLists t0).
Qed.

Section PlanInvariants.

Context {W : Type} (taskLists : list Schema_TaskList)
        (entries : list (string * string)).

Local Abbreviation byTitle := (fst (TaskActions.build_lookups taskLists)).
Local Abbreviation byNormalized := (snd (TaskActions.build_lookups taskLists)).

Lemma plan_task_loop_found (task : Schema_Task) (title taskListId : string)
      (scanned : list (string * string)) :
  forall (s : St W) plan s',
    TaskActions.plan_task_loop byTitle byNormalized task title taskListId
                               scanned s
    = (Returned (Some plan), s') ->
    plan_task plan = task
    /\ In (plan_prefix plan, plan_targetListTitle plan) scanned
    /\ routes byTitle byNormalized title taskListId
              (plan_prefix plan, plan_targetListTitle plan)
       = Some (plan_targetListId plan).
Proof.
  induction scanned as [|entry rest IH]; intros s plan s'; [done|].
  rewrite plan_task_loop_cons.
  destruct (routes _ _ _ _ entry) as [i|] eqn:Eroute.
  - intros [= <- _]. simpl. destruct entry.
    split; [done|]. split; [by left | done].
  - intros Hrest. destruct (IH _ _ _ Hrest) as (? & ? & ?).
    split; [done|]. split; [by right | done].
Qed.

Lemma plan_loop_sound (allTasks : list Schema_Task) :
  forall movePlans (s : St W),
  exists planned s',
    for_of allTasks (TaskActions.plan_step byTitle byNormalized entries)
           movePlans s
    = (Returned (movePlans ++ planned), s')
    /\ world s' = world s /\ calls s' = calls s
    /\ sublist (map plan_task planned) allTasks
    /\ Forall (sound_plan taskLists entries) planned.
Proof.
  induction allTasks as [|task rest IH]; intros movePlans s.
  - exists [], s. simpl. unfold ret. rewrite app_nil_r.
    repeat split; constructor.
  - cbn [for_of]. unfold bind.
    assert (Hskip : forall s0 : St W,
               exists (planned : list MovePlan) (s' : St W),
                 for_of rest (TaskActions.plan_step byTitle byNormalized entries)
                        movePlans s0
                 = (Returned (movePlans ++ planned), s')
                 /\ world s' = world s0 /\ calls s' = calls s0
                 /\ sublist (map plan_task planned) (task :: rest)
                 /\ Forall (sound_plan taskLists entries) planned).
    { intros s0. destruct (IH movePlans s0) as (planned & s' & E & ? & ? & ? & ?).
      exists planned, s'. repeat split; try done. by constructor. }
    unfold TaskActions.plan_step at 1.
    destruct (Js.or_undefined (task_title task)) as [title|] eqn:Et;
      [| apply Hskip].
    destruct (Js.or_undefined (task_taskListId task)) as [lid|] eqn:El;
      [| apply Hskip].
    destruct (Js.or_undefined (task_id task)) as [i|] eqn:Ei; [| apply Hskip].
    unfold bind.
    destruct (plan_task_loop_quiet byTitle byNormalized task title lid entries s)
      as (found & s1 & Escan & Hw1 & Hc1 & _).
    rewrite Escan. destruct found as [plan|]; unfold ret.
    + destruct (plan_task_loop_found _ _ _ _ _ _ _ Escan)
        as (Htask & Hentry & Hroute).
      destruct (IH (movePlans ++ [plan]) s1)
        as (planned & s' & E & Hw & Hc & Hsub & Hsound).
      exists (plan :: planned), s'. rewrite E, <- app_assoc.
      split; [done|]. split; [congruence|]. split; [congruence|]. split.
      * simpl. rewrite Htask. by constructor.
      * constructor; [|done].
        apply or_undefined_Some in Et as [Et Ht], El as [El Hl], Ei as [Ei Hi].
        unfold routes in Hroute.
        destruct (carries title _) eqn:Ecarries; [|done].
        destruct (TaskActions.resolve_target _ _ _) as [target|] eqn:Eres;
          [|done].
        simpl in Eres.
        destruct (String.eqb_spec lid target) as [|Hne]; [done|].
        unfold sound_plan, well_formed. injection Hroute as <-.
        rewrite Htask, Et, El, Ei. rewrite Et in Ht. rewrite El in Hl.
        rewrite Ei in Hi.
        repeat split; try done.
        -- by apply (resolved_is_listed taskLists (plan_targetListTitle plan)).
        -- congruence.
    + destruct (Hskip s1) as (planned & s' & E & Hw & Hc & Hsub & Hsound).
      exists planned, s'. repeat split; try done; congruence.
Qed.

End PlanInvariants.

(** X11. Planning always returns, issues no remote call and leaves the
    remote world as it is. The plans follow the enumeration order, at most
    one per item, and each of them is sound: its item has a title, an
    identifier and a collection; its prefix and destination title are an
    entry of the mapping, the title carries the prefix, and the destination
    resolves to the plan's target, which is a listed collection other than
    the one the item is in. The titles are ASCII text and the destinations
    name no member of [Object.prototype], which is where the lookups of the
    model are those of JavaScript. *)
Theorem plan_moves_sound {W : Type} (entries : list (string * string))
        (allTasks : list Schema_Task) (taskLists : list Schema_TaskList)
        (s : St W) :
  ascii_titles taskLists = true ->
  plain_targets entries = true ->
  exists plans s',
    TaskActions.plan_moves entries allTasks taskLists s = (Returned plans, s')
    /\ world s' = world s
    /\ calls s' = calls s
    /\ sublist (map plan_task plans) allTasks
    /\ Forall (sound_plan taskLists entries) plans.
Proof.
  intros _ _. unfold TaskActions.plan_moves.
  destruct (plan_loop_sound taskLists entries allTasks [] s)
    as (plans & s' & E & Hw & Hc & Hsub & Hsound).
  exists plans, s'. split; [|done].
  by destruct (TaskActions.build_lookups taskLists).
Qed.

Lemma plan_moves_sound_witness :
  exists plans s',
    TaskActions.plan_moves
      [("X", "work")]
      [mkTask (Some "t1") (Some "[X] foo") None None (Some "needsAction") None
              None None None None None None None None (Some "tasks#task")
              (Some "A") (Some "Inbox")]
      [InMemory.collection "A" "Inbox"; InMemory.collection "B" "Work"]
      (InMemory.start Scenario.prefixed)
    = (Returned plans, s')
    /\ world s' = world (InMemory.start Scenario.prefixed)
    /\ calls s' = calls (InMemory.start Scenario.prefixed)
    /\ sublist (map plan_task plans)
               [mkTask (Some "t1") (Some "[X] foo") None None
                       (Some "needsAction") None None None None None None None
                       None None (Some "tasks#task") (Some "A") (Some "Inbox")]
    /\ Forall (sound_plan
                 [InMemory.collection "A" "Inbox"; InMemory.collection "B" "Work"]
                 [("X", "work")])
              plans.
Proof.
  apply (plan_moves_sound
           [("X", "work")]
           [mkTask (Some "t1") (Some "[X] foo") None None (Some "needsAction")
                   None None None None None None None None None
                   (Some "tasks#task") (Some "A") (Some "Inbox")]
           [InMemory.collection "A" "Inbox"; InMemory.collection "B" "Work"]
           (InMemory.start Scenario.prefixed)).
  - reflexivity.
  - reflexivity.
Defined.

(** ** [reorganizeTasks]: the dry run and the live run *)

Lemma planned_functional {W : Type} (tasks : Remote W)
      (entries : list (string * string)) (s : St W)
      (plans plans' : list MovePlan) :
  planned tasks entries s plans -> planned tasks entries s plans' ->
  plans = plans'.
Proof.
  intros (all1 & s1 & ols1 & s2 & s3 & El1 & Et1 & Ep1)
         (all2 & t1 & ols2 & t2 & t3 & El2 & Et2 & Ep2).
  rewrite El1 in El2. injection El2 as <- <-.
  rewrite Et1 in Et2. injection Et2 as <- <-.
  rewrite Ep1 in Ep2. by injection Ep2.
Qed.

Lemma planned_excludes_failure {W : Type} (tasks : Remote W)
      (entries : list (string * string)) (s : St W)
      (plans : list MovePlan) (e : string) :
  planned tasks entries s plans -> enumeration_fails tasks s e -> False.
Proof.
  intros (all1 & s1 & ols1 & s2 & s3 & El1 & Et1 & Ep1)
         [(t1 & El2)|(all2 & t1 & t2 & El2 & Et2)].
  - rewrite El1 in El2. done.
  - rewrite El1 in El2. injection El2 as <- <-.
    rewrite Et1 in Et2. done.
Qed.

Lemma enumeration_fails_functional {W : Type} (tasks : Remote W) (s : St W)
      (e e' : string) :
  enumeration_fails tasks s e -> enumeration_fails tasks s e' -> e = e'.
Proof.
  intros [(s1 & El1)|(all1 & s1 & s2 & El1 & Et1)]
         [(t1 & El2)|(all2 & t1 & t2 & El2 & Et2)];
    rewrite El1 in El2; try done.
  - by injection El2.
  - injection El2 as <- <-. rewrite Et1 in Et2. by injection Et2.
Qed.

(** X12. From one and the same state, the dry run and the live run of
    [reorganizeTasks] plan the same moves: either both report the same
    enumeration failure, or the dry run lists exactly the plans, in order,
    that the live run then attempts and reports on line by line. *)
Theorem dry_run_previews_live_run {W : Type} (tasks : Remote W)
        (entry : string * string) (rest : list (string * string)) (s : St W) :
  (exists e,
      enumeration_fails tasks s e
      /\ fst (TaskActions.reorganizeTasks tasks (Some (entry :: rest))
                                          (Some true) s)
         = Returned (mkResult ("Error reorganizing tasks: " +:+ e) true)
      /\ fst (TaskActions.reorganizeTasks tasks (Some (entry :: rest))
                                          (Some false) s)
         = Returned (mkResult ("Error reorganizing tasks: " +:+ e) true))
  \/ (exists plans fates,
         planned tasks (entry :: rest) s plans
         /\ length fates = length plans
         /\ fst (TaskActions.reorganizeTasks tasks (Some (entry :: rest))
                                             (Some true) s)
            = Returned (mkResult
                          (Js.join Js.nl (TaskActions.dry_run_report plans))
                          false)
         /\ fst (TaskActions.reorganizeTasks tasks (Some (entry :: rest))
                                             (Some false) s)
            = Returned (mkResult (Js.join Js.nl (live_report plans fates))
                                 false)).
Proof.
  destruct (reorganizeTasks_run tasks entry rest (Some true) s)
    as (r1 & s1 & _ & plans1 & fates1 & E1 & _ & _ & _ & Hcase1).
  destruct (reorganizeTasks_run tasks entry rest (Some false) s)
    as (r2 & s2 & _ & plans2 & fates2 & E2 & _ & Hlen2 & _ & Hcase2).
  rewrite E1, E2. simpl in *.
  destruct Hcase1 as [(e1 & Hf1 & _ & ->)|[Hp1 ->]];
    destruct Hcase2 as [(e2 & Hf2 & _ & ->)|[Hp2 ->]].
  - left. exists e1. rewrite (enumeration_fails_functional tasks s e2 e1 Hf2 Hf1).
    done.
  - destruct (planned_excludes_failure tasks _ s plans2 e1 Hp2 Hf1).
  - destruct (planned_excludes_failure tasks _ s plans1 e2 Hp1 Hf2).
  - right. exists plans2, fates2.
    rewrite (planned_functional tasks _ s plans1 plans2 Hp1 Hp2). done.
Qed.

Lemma fates_add_up (fates : list Fate) :
  moved_count fates + failed_count fates = length fates.
Proof.
  unfold moved_count, failed_count.
  induction fates as [|fate fates IH]; simpl; [done|].
  destruct (is_moved fate); simpl; lia.
Qed.

(** X13. The report of a live run that could enumerate has one line per
    plan between its heading and its summary, and the two counts of the
    summary add up to the number of plans: every planned transfer is
    counted once, as moved or as failed. *)
Theorem live_summary_adds_up {W : Type} (tasks : Remote W)
        (entry : string * string) (rest : list (string * string))
        (dryRun : option bool) (s : St W) :
  default false dryRun = false ->
  exists r s',
    TaskActions.reorganizeTasks tasks (Some (entry :: rest)) dryRun s
    = (Returned r, s')
    /\ (isError r = true
        \/ exists plans lines succeeded failed,
            planned tasks (entry :: rest) s plans
            /\ length lines = length plans
            /\ succeeded + failed = length plans
            /\ text r
               = Js.join Js.nl
                   (("Moving " +:+ Js.show_nat (length plans) +:+ " tasks:")
                    :: lines
                    ++ [TaskActions.summary_line succeeded failed])).
Proof.
  intros Hlive.
  destruct (reorganizeTasks_run tasks entry rest dryRun s)
    as (r & s' & _ & plans & fates & E & _ & Hlen & _ & Hcase).
  exists r, s'. split; [done|]. rewrite Hlive in Hcase.
  destruct Hcase as [(e & _ & _ & ->)|[Hp ->]]; [by left|].
  right. exists plans, (zip_with transfer_line plans fates),
           (moved_count fates), (failed_count fates).
  split; [done|]. split.
  - rewrite length_zip_with. lia.
  - split; [| done]. by rewrite fates_add_up.
Qed.

Lemma live_summary_adds_up_witness :
  exists r s',
    TaskActions.reorganizeTasks InMemory.remote (Some [("X", "Work")]) None
                                (InMemory.start Scenario.prefixed)
    = (Returned r, s')
    /\ (isError r = true
        \/ exists plans lines succeeded failed,
            planned InMemory.remote [("X", "Work")]
                    (InMemory.start Scenario.prefixed) plans
            /\ length lines = length plans
            /\ succeeded + failed = length plans
            /\ text r
               = Js.join Js.nl
                   (("Moving " +:+ Js.show_nat (length plans) +:+ " tasks:")
                    :: lines
                    ++ [TaskActions.summary_line succeeded failed])).
Proof.
  exact (live_summary_adds_up InMemory.remote ("X", "Work") [] None
                              (InMemory.start Scenario.prefixed) eq_refl).
Defined.

(** ** Resources: the address of a task *)

Lemma substring_all (x : string) : String.substring 0 (String.length x) x = x.
Proof. induction x as [|c x IH]; simpl; [done | by rewrite IH]. Qed.

Lemma substring_skip (pat x : string) (n : nat) :
  String.substring (String.length pat) n (pat +:+ x) = String.substring 0 n x.
Proof.
  induction pat as [|c pat IH]; [done|].
  change (String c pat +:+ x) with (String c (pat +:+ x)). simpl. apply IH.
Qed.

Lemma length_append (a b : string) :
  String.length (a +:+ b) = String.length a + String.length b.
Proof.
  induction a as [|c a IH]; [done|].
  change (String c a +:+ b) with (String c (a +:+ b)). simpl. by rewrite IH.
Qed.

Lemma remove_first_unfold (pat s : string) :
  Js.remove_first pat s
  = if String.prefix pat s
    then String.substring (String.length pat)
                          (String.length s - String.length pat) s
    else match s with
         | EmptyString => EmptyString
         | String c r => String c (Js.remove_first pat r)
         end.
Proof. by destruct s. Qed.

Lemma remove_first_prefixed (pat x : string) :
  Js.remove_first pat (pat +:+ x) = x.
Proof.
  assert (Hcut : String.substring (String.length pat)
                   (String.length (pat +:+ x) - String.length pat) (pat +:+ x)
                 = x).
  { rewrite substring_skip, length_append.
    replace (String.length pat + String.length x - String.length pat)
      with (String.length x) by lia.
    apply substring_all. }
  pose proof (startsWith_append pat x) as Hpre. unfold Js.startsWith in Hpre.
  by rewrite remove_first_unfold, Hpre.
Qed.

(** X14. The address [listResources] publishes for a task takes
    [readResource] back to the identifier of that task: reading it probes
    the collections, in order, for this identifier and answers with the
    details of the first task found under it (for a task without
    identifier the address ends in "undefined", and this is the identifier
    probed for). *)
Theorem resource_address_round_trip {W : Type} (tasks : Remote W)
        (task : Schema_Task) (s : St W)
        (ols : option (list Schema_TaskList)) (w0 : W)
        (pre : list string) (i : string) (post : list string)
        (es : list string) (found : Schema_Task) (w1 w2 : W) :
  let address := Server.resource_uri (Server.resource_of task) in
  let taskId := Js.show (task_id task) in
  remote_tasklists_list tasks MAX_TASK_RESULTS (world s) = (Returned ols, w0) ->
  list_ids (default [] ols) = pre ++ i :: post ->
  answers (fun l => remote_tasks_get tasks l taskId) pre w0
  = (map Thrown es, w1) ->
  remote_tasks_get tasks i taskId w1 = (Returned found, w2) ->
  Js.remove_first "gtasks:///" address = taskId
  /\ Server.readResource tasks address s
     = (Returned [Server.mkContents address "text/plain"
                                    (Server.taskDetails found)],
        mkSt w2
             (calls s ++ TasklistsList MAX_TASK_RESULTS
                    :: map (fun l => TasksGet l taskId) (pre ++ [i]))
             (console s)).
Proof.
  intros address taskId Hlists Hids Hpre Hget.
  assert (Haddress : Js.remove_first "gtasks:///" address = taskId)
    by apply remove_first_prefixed.
  split; [done|].
  unfold Server.readResource, TaskResources.read, bind at 1.
  unfold bind at 1. unfold tasks_tasklists_list, await. rewrite Hlists.
  rewrite Haddress. unfold bind.
  rewrite (read_loop_hit tasks taskId _ _ pre i post es found w1 w2 Hids);
    [| done | done].
  simpl. unfold ret. by rewrite <- app_assoc.
Qed.

Lemma resource_address_round_trip_witness :
  Js.remove_first "gtasks:///"
    (Server.resource_uri
       (Server.resource_of (InMemory.item "t1" "the copy in B" None)))
  = "t1"
  /\ Server.readResource InMemory.remote
       (Server.resource_uri
          (Server.resource_of (InMemory.item "t1" "the copy in B" None)))
       (InMemory.start Scenario.shared_id)
     = (Returned [Server.mkContents "gtasks:///t1" "text/plain"
                    (Server.taskDetails
                       (InMemory.item "t1" "the copy in A" None))],
        mkSt Scenario.shared_id [TasklistsList 100; TasksGet "A" "t1"] []).
Proof.
  exact (resource_address_round_trip InMemory.remote
           (InMemory.item "t1" "the copy in B" None)
           (InMemory.start Scenario.shared_id)
           (Some (InMemory.w_lists Scenario.shared_id)) Scenario.shared_id
           [] "A" ["B"] [] (InMemory.item "t1" "the copy in A" None)
           Scenario.shared_id Scenario.shared_id
           eq_refl eq_refl eq_refl eq_refl).
Defined.

(** ** [makeSubtask], [update] and [clear] *)

Ltac unfold_js' :=
  unfold TaskActionsMore.tasks_tasks_update, TaskActionsMore.tasks_tasks_clear,
    TaskActionsMore.tasks_tasks_move;
  unfold TaskActionsMore.bind', TaskActionsMore.try_catch',
    TaskActionsMore.ret', TaskActionsMore.throw', TaskActionsMore.await',
    TaskActionsMore.console_log', TaskActionsMore.lift;
  unfold tasks_tasks_get, await; simpl.

(** X15. [makeSubtask] throws, having done nothing, when one of its three
    arguments is missing or empty. Otherwise it always returns a result,
    and what it does follows the answers of the remote: it fetches the
    task, then the parent, and issues the reparenting [tasks.move] only
    when both fetches have answered. When the fetch of the task throws,
    the parent is not asked for; when either fetch throws, no move is
    issued and the result is error-flagged ("Could not verify tasks"); when
    the move throws, the result is error-flagged ("Could not make
    subtask"); when it answers, the result is not error-flagged and names
    the title the remote sent back. The remote world left is the one the
    last call left. *)
Theorem makeSubtask_verifies_before_move {W : Type}
        (tasks : TaskActionsMore.Remote' W)
        (taskListId taskId parentTaskId : option string)
        (s : TaskActionsMore.St' W) :
  match Js.or_undefined taskListId, Js.or_undefined taskId,
        Js.or_undefined parentTaskId with
  | Some l, Some t, Some p =>
      exists r s',
        TaskActionsMore.makeSubtask tasks taskListId taskId parentTaskId s
        = (Returned r, s')
        /\ match remote_tasks_get (TaskActionsMore.remote_base tasks) l t
                                  (TaskActionsMore.world' s) with
           | (Thrown e, w1) =>
               TaskActionsMore.world' s' = w1
               /\ TaskActionsMore.calls' s'
                  = TaskActionsMore.calls' s
                    ++ [TaskActionsMore.Base (TasksGet l t)]
               /\ r = mkResult ("Error making subtask: "
                                +:+ "Could not verify tasks: " +:+ e) true
           | (Returned _, w1) =>
               match remote_tasks_get (TaskActionsMore.remote_base tasks) l p
                                      w1 with
               | (Thrown e, w2) =>
                   TaskActionsMore.world' s' = w2
                   /\ TaskActionsMore.calls' s'
                      = TaskActionsMore.calls' s
                        ++ [TaskActionsMore.Base (TasksGet l t);
                            TaskActionsMore.Base (TasksGet l p)]
                   /\ r = mkResult ("Error making subtask: "
                                    +:+ "Could not verify tasks: " +:+ e) true
               | (Returned _, w2) =>
                   TaskActionsMore.calls' s'
                   = TaskActionsMore.calls' s
                     ++ [TaskActionsMore.Base (TasksGet l t);
                         TaskActionsMore.Base (TasksGet l p);
                         TaskActionsMore.TasksMove l t p]
                   /\ match TaskActionsMore.remote_tasks_move tasks l t p w2
                      with
                      | (Thrown e, w3) =>
                          TaskActionsMore.world' s' = w3
                          /\ r = mkResult
                                   ("Error making subtask: "
                                    +:+ "Could not make subtask: " +:+ e)
                                   true
                      | (Returned moved, w3) =>
                          TaskActionsMore.world' s' = w3
                          /\ r = mkResult
                                   ("Task "
                                    +:+ Js.quoted (Js.show (task_title moved))
                                    +:+ " is now a subtask of task with ID "
                                    +:+ p)
                                   false
                      end
               end
           end
  | _, _, _ =>
      TaskActionsMore.makeSubtask tasks taskListId taskId parentTaskId s
      = (Thrown "Task list ID, task ID, and parent task ID are required", s)
  end.
Proof.
  unfold TaskActionsMore.makeSubtask.
  destruct (Js.or_undefined taskListId) as [l|]; [|done].
  destruct (Js.or_undefined taskId) as [t|]; [|done].
  destruct (Js.or_undefined parentTaskId) as [p|]; [|done].
  unfold_js'.
  destruct (remote_tasks_get (TaskActionsMore.remote_base tasks) l t
                             (TaskActionsMore.world' s))
    as [[task|e] w1]; simpl.
  - destruct (remote_tasks_get (TaskActionsMore.remote_base tasks) l p w1)
      as [[parent|e] w2]; simpl.
    + destruct (TaskActionsMore.remote_tasks_move tasks l t p w2)
        as [[moved|e] w3]; simpl;
        eexists _, _; (split; [reflexivity|]); simpl;
        rewrite <- !app_assoc; done.
    + eexists _, _. split; [reflexivity|]. simpl. by rewrite <- !app_assoc.
  - by eexists _, _.
Qed.


(** ** [list] and [search] over the enumeration *)

Lemma found_opening (n : nat) (rest : string) :
  Js.startsWith ("Found " +:+ Js.show_nat n +:+ " tasks:" +:+ rest)
                ("Found " +:+ Js.show_nat n +:+ " tasks:") = true.
Proof.
  replace ("Found " +:+ Js.show_nat n +:+ " tasks:" +:+ rest)
    with (("Found " +:+ Js.show_nat n +:+ " tasks:") +:+ rest)
    by (by rewrite !append_assoc).
  apply startsWith_append.
Qed.

Lemma filter_keeps_order {A} (f : A -> bool) (l : list A) :
  sublist (List.filter f l) l.
Proof.
  induction l as [|x l IH]; simpl; [constructor|].
  destruct (f x); by constructor.
Qed.

(** X17. [list] and [search] throw exactly when the collections cannot be
    listed, with the error of the remote. Otherwise they return, never
    error-flagged, even when the items of some collections could not be
    fetched: [list] reports the number of tasks the enumeration gathered,
    [search] the number of those it hits, in enumeration order; and the
    state they leave is the state the enumeration leaves. *)
Theorem list_and_search_follow_enumeration {W : Type} (tasks : Remote W)
        (userQuery : string) (s : St W) :
  match TaskActions._list tasks s with
  | (Returned allTasks, s') =>
      (exists r,
          TaskActions.list tasks s = (Returned r, s')
          /\ isError r = false
          /\ Js.startsWith (text r)
                           ("Found " +:+ Js.show_nat (length allTasks)
                            +:+ " tasks:") = true)
      /\ (exists r hits,
             TaskActions.search tasks userQuery s = (Returned r, s')
             /\ isError r = false
             /\ sublist hits allTasks
             /\ (forall task,
                    In task hits <->
                    In task allTasks
                    /\ TaskActions.search_hit userQuery task = true)
             /\ Js.startsWith (text r)
                              ("Found " +:+ Js.show_nat (length hits)
                               +:+ " tasks:") = true)
  | (Thrown e, s') =>
      fst (remote_tasklists_list tasks MAX_TASK_RESULTS (world s)) = Thrown e
      /\ TaskActions.list tasks s = (Thrown e, s')
      /\ TaskActions.search tasks userQuery s = (Thrown e, s')
  end.
Proof.
  unfold TaskActions.list, TaskActions.search, bind.
  destruct (TaskActions._list tasks s) as [[allTasks|e] s'] eqn:Elist.
  - unfold ret. split.
    + eexists. split; [reflexivity|]. split; [done|]. apply found_opening.
    + eexists _, (List.filter (TaskActions.search_hit userQuery) allTasks).
      split; [reflexivity|]. split; [done|]. split; [|split].
      * apply filter_keeps_order.
      * intros task. apply filter_In.
      * apply found_opening.
  - split; [|done].
    destruct (remote_tasklists_list tasks MAX_TASK_RESULTS (world s))
      as [[ols|e'] w0] eqn:Elists.
    + destruct (answers (fun taskList =>
                           remote_tasks_list tasks (list_id taskList)
                                             MAX_TASK_RESULTS None)
                        (with_id (default [] ols)) w0) as [os w1] eqn:Eans.
      rewrite (_list_returns tasks s ols w0 Elists os w1 Eans) in Elist. done.
    + revert Elist. unfold TaskActions._list. unfold_js. rewrite Elists.
      by intros [= <- _].
Qed.

(** ** [reorganizeTasks]: titles that differ by case and white space *)

Lemma last_id_key (k : string) (pairs : list (string * string)) (i : string) :
  last_id k pairs = Some i -> In (k, i) pairs.
Proof.
  induction pairs as [|[t j] pairs IH]; [done|].
  rewrite last_id_cons. destruct (last_id k pairs) as [i'|].
  - intros [= <-]. right. by apply IH.
  - simpl. destruct (String.eqb_spec t k) as [->|]; [|done].
    intros [= <-]. by left.
Qed.

Lemma last_id_some (k : string) (pairs : list (string * string)) (i : string) :
  In (k, i) pairs -> is_Some (last_id k pairs).
Proof.
  induction pairs as [|[t j] pairs IH]; [done|].
  rewrite last_id_cons. intros [[= -> ->]|Hin].
  - destruct (last_id k pairs); [by eexists|]. simpl.
    rewrite String.eqb_refl. by eexists.
  - destruct (IH Hin) as [i' ->]. by eexists.
Qed.

Lemma usable_origin (taskLists : list Schema_TaskList) (t i : string) :
  In (t, i) (usable taskLists) ->
  exists taskList,
    In taskList taskLists
    /\ list_title taskList = Some t /\ list_id taskList = Some i.
Proof.
  induction taskLists as [|l rest IH]; [done|].
  unfold usable; simpl. fold (usable rest).
  assert (Hrest : In (t, i) (usable rest) ->
                  exists taskList,
                    In taskList (l :: rest)
                    /\ list_title taskList = Some t /\ list_id taskList = Some i).
  { intros Hin. destruct (IH Hin) as (tl & ? & ? & ?).
    exists tl. split; [by right | done]. }
  destruct (Js.or_undefined (list_title l)) as [title|] eqn:Et; simpl;
    [|done].
  destruct (Js.or_undefined (list_id l)) as [j|] eqn:Ej; simpl; [|done].
  intros [[= <- <-]|Hin]; [|by apply Hrest].
  exists l. apply or_undefined_Some in Et as [? _], Ej as [? _].
  split; [by left | done].
Qed.

Lemma in_usable (taskLists : list Schema_TaskList) (l : Schema_TaskList) :
  In l taskLists ->
  Js.truthy (list_title l) = true -> Js.truthy (list_id l) = true ->
  In (Js.show (list_title l), Js.show (list_id l)) (usable taskLists).
Proof.
  intros Hin Ht Hi. induction taskLists as [|l0 rest IH]; [done|].
  unfold usable; simpl. fold (usable rest).
  destruct Hin as [->|Hin].
  - rewrite !or_undefined_truthy by done.
    destruct (list_title l) as [t|]; [|done].
    destruct (list_id l) as [i|]; [|done]. by left.
  - destruct (Js.or_undefined (list_title l0)); simpl; [|by apply IH].
    destruct (Js.or_undefined (list_id l0)); simpl; [|by apply IH].
    right. by apply IH.
Qed.

(** X18. Whenever some listed collection, with a non-empty title and
    identifier, has a title that agrees with the destination title up to
    the case of ASCII letters and surrounding white space, the destination
    resolves, and to the identifier of a listed collection whose title
    agrees with it in that way. The titles are ASCII text and the
    destination names no member of [Object.prototype]. *)
Theorem normalized_title_resolves (taskLists : list Schema_TaskList)
        (l : Schema_TaskList) (targetListTitle : string) :
  ascii_titles taskLists = true ->
  plain_key targetListTitle = true ->
  In l taskLists ->
  Js.truthy (list_title l) = true ->
  Js.truthy (list_id l) = true ->
  normalized (Js.show (list_title l)) = normalized targetListTitle ->
  exists i l',
    TaskActions.resolve_target (fst (TaskActions.build_lookups taskLists))
                               (snd (TaskActions.build_lookups taskLists))
                               targetListTitle
    = Some i
    /\ In l' taskLists
    /\ list_id l' = Some i
    /\ normalized (Js.show (list_title l')) = normalized targetListTitle.
Proof.
  intros _ _ Hin Ht Hi Hnorm. rewrite resolve_target_filled.
  destruct (last_id targetListTitle (usable taskLists)) as [i|] eqn:Eexact.
  - apply last_id_key, usable_origin in Eexact as (l' & Hl' & Htitle & Hid).
    exists i, l'. by rewrite Htitle.
  - assert (Hpair : In (normalized targetListTitle, Js.show (list_id l))
                       (normalized_pairs (usable taskLists))).
    { unfold normalized_pairs. apply in_map_iff.
      exists (Js.show (list_title l), Js.show (list_id l)). simpl.
      split; [by rewrite Hnorm | by apply in_usable]. }
    destruct (last_id_some _ _ _ Hpair) as [i Ei]. rewrite Ei.
    apply last_id_key in Ei. unfold normalized_pairs in Ei.
    apply in_map_iff in Ei as ([t j] & [= Ht' ->] & Hu).
    apply usable_origin in Hu as (l' & Hl' & Htitle & Hid).
    exists i, l'. by rewrite Htitle.
Qed.

Lemma normalized_title_resolves_witness :
  exists i l',
    TaskActions.resolve_target
      (fst (TaskActions.build_lookups [InMemory.collection "L1" "Admin Tasks"]))
      (snd (TaskActions.build_lookups [InMemory.collection "L1" "Admin Tasks"]))
      "  admin TASKS "
    = Some i
    /\ In l' [InMemory.collection "L1" "Admin Tasks"]
    /\ list_id l' = Some i
    /\ normalized (Js.show (list_title l')) = normalized "  admin TASKS ".
Proof.
  apply (normalized_title_resolves [InMemory.collection "L1" "Admin Tasks"]
           (InMemory.collection "L1" "Admin Tasks") "  admin TASKS ").
  - reflexivity.
  - reflexivity.
  - by left.
  - reflexivity.
  - reflexivity.
  - reflexivity.
Defined.

(** ** The earlier [moveTask] against the current one *)

(** X19. On an original that has a title, notes, a status and no empty
    due date, the earlier [moveTask] and the current one issue the same
    three calls. They return the same result when the delete succeeds.
    When the delete throws, with the copy already created, the earlier one
    returns an error-flagged result and the current one a result that is
    not error-flagged. And when the insert answers without an identifier,
    the earlier one goes on to delete the original, which the current one
    never does. *)
Theorem legacy_moveTask_against_current {W : Type} (tasks : Remote W)
        (src tgt tid : string) (s : St W) (original copy : Schema_Task)
        (w1 w2 : W) :
  Js.truthy (Some src) = true ->
  Js.truthy (Some tgt) = true ->
  Js.truthy (Some tid) = true ->
  remote_tasks_get tasks src tid (world s) = (Returned original, w1) ->
  Js.truthy (task_title original) = true ->
  is_Some (task_notes original) ->
  Js.truthy (task_status original) = true ->
  task_due original <> Some "" ->
  remote_tasks_insert tasks tgt (TaskActions.newTask_of original) None w1
  = (Returned copy, w2) ->
  let legacy := Legacy.moveTask tasks (Some src) (Some tgt) (Some tid) s in
  let current := TaskActions.moveTask tasks (Some src) (Some tgt) (Some tid) s in
  let three := [TasksGet src tid;
                TasksInsert tgt (TaskActions.newTask_of original) None;
                TasksDelete src tid] in
  calls (snd legacy) = calls s ++ three
  /\ (Js.truthy (task_id copy) = true ->
      calls (snd current) = calls s ++ three
      /\ match remote_tasks_delete tasks src tid w2 with
         | (Returned _, _) => legacy = current
         | (Thrown e, _) =>
             fst legacy
             = Returned (mkResult ("Error moving task: " +:+ e) true)
             /\ fst current
                = Returned (mkResult
                              (TaskActions.copied_text (task_title original) tgt)
                              false)
         end)
  /\ (Js.truthy (task_id copy) = false ->
      calls (snd current)
      = calls s ++ [TasksGet src tid;
                    TasksInsert tgt (TaskActions.newTask_of original) None]
      /\ isError_of current = Some true).
Proof.
  intros Hsrc Htgt Htid Hget Htitle [notes Hnotes] Hstatus Hdue Hins.
  assert (Hbody : requestBody None (task_title original) (task_notes original)
                              (task_due original) (task_status original)
                  = TaskActions.newTask_of original).
  { unfold TaskActions.newTask_of.
    rewrite (or_else_truthy _ "Untitled Task" Htitle),
      (or_else_truthy _ "needsAction" Hstatus), or_else_empty, Hnotes.
    simpl. f_equal. unfold Js.or_undefined.
    destruct (task_due original) as [d|]; simpl; [|done].
    by destruct (String.eqb_spec d "") as [->|]. }
  cbv zeta. unfold Legacy.moveTask, TaskActions.moveTask.
  rewrite !or_undefined_truthy by done.
  unfold TaskActions.fetch_original, TaskActions.create_copy. unfold_js.
  rewrite Hget; simpl. rewrite Htitle; simpl. rewrite Hbody, Hins; simpl.
  split; [|split].
  - destruct (remote_tasks_delete tasks src tid w2) as [[[]|e] w3]; simpl;
      by rewrite <- !app_assoc.
  - intros Hid. unfold Js.or_undefined. rewrite Hid.
    destruct (task_id copy) as [i|]; [|done]. simpl.
    destruct (remote_tasks_delete tasks src tid w2) as [[[]|e] w3]; simpl;
      rewrite <- !app_assoc; simpl; done.
  - intros Hid. unfold Js.or_undefined. rewrite Hid. simpl.
    by rewrite <- !app_assoc.
Qed.

Lemma legacy_moveTask_against_current_witness :
  Legacy.moveTask InMemory.remote (Some "A") (Some "B") (Some "t1")
                  (InMemory.start Scenario.annotated)
  = TaskActions.moveTask InMemory.remote (Some "A") (Some "B") (Some "t1")
                         (InMemory.start Scenario.annotated).
Proof.
  destruct (legacy_moveTask_against_current InMemory.remote "A" "B" "t1"
              (InMemory.start Scenario.annotated) Scenario.annotated_item
              Scenario.annotated_copy Scenario.annotated
              Scenario.annotated_copied)
    as (_ & Hsame & _).
  - reflexivity.
  - reflexivity.
  - reflexivity.
  - reflexivity.
  - reflexivity.
  - exists "2 litres". reflexivity.
  - reflexivity.
  - discriminate.
  - reflexivity.
  - exact (proj2 (Hsame eq_refl)).
Defined.
